(** * Newsletter ingestion: a shallow embedding of the mailbox pipeline

    The development follows the Python sources
    - [app/services/gmail_service.py]  (module [Gmail] below),
    - [app/crud/newsletter.py]         (module [Crud]),
    - [app/api/endpoints/email.py]     (module [Sync]),
    and states the properties of the specification over these definitions.

    Conventions.  A Python [str] is a [string] of [ascii] characters (text is
    taken to be ASCII); [Optional[str]] is [option string] with [None] for
    Python's [None]; a [dict] used as a finite map is a [gmap]; database
    tables are lists of rows in storage order; timestamps are integers. *)

From Stdlib Require Import Ascii ZArith QArith.QArith_base.
From stdpp Require Import base option list strings pretty gmap sorting.

#[local] Open Scope string_scope.
#[local] Open Scope list_scope.
#[local] Open Scope Z_scope.

(* ================================================================== *)
(** * Python primitives *)
(* ================================================================== *)

Module Py.

(** [bool(s)] for a string. *)
Definition str_truthy (s : string) : bool :=
  match s with EmptyString => false | String _ _ => true end.

(** [bool(o)] for an [Optional[str]]: [None] and [''] are falsy. *)
Definition truthy (o : option string) : bool :=
  match o with Some s => str_truthy s | None => false end.

(** [o or ''] for an [Optional[str]]. *)
Definition or_empty (o : option string) : string :=
  match o with Some (String a s) => String a s | _ => "" end.

Definition lower_ascii (a : ascii) : ascii :=
  let n := Ascii.nat_of_ascii a in
  if ((65 <=? n) && (n <=? 90))%nat then Ascii.ascii_of_nat (n + 32) else a.

(** [s.lower()] *)
Fixpoint lower (s : string) : string :=
  match s with
  | EmptyString => EmptyString
  | String a s' => String (lower_ascii a) (lower s')
  end.

(** [needle in hay] for strings. *)
Fixpoint contains (needle hay : string) : bool :=
  String.prefix needle hay
  || match hay with
     | EmptyString => false
     | String _ hay' => contains needle hay'
     end.

(** Exceptions that the modelled code can raise. *)
Inductive exn :=
| TypeError
| ValueError (message : string)
| HttpError
| OperationalError.

(** Either an exception or a value. *)
Definition result (A : Type) : Type := exn + A.
Definition ret {A} (a : A) : result A := inr a.
Definition raise {A} (e : exn) : result A := inl e.
Definition bind {A B} (m : result A) (k : A -> result B) : result B :=
  match m with inl e => inl e | inr a => k a end.

End Py.

Notation "'do' x <- m ; k" := (Py.bind m (fun x => k))
  (at level 10, x name, m at level 100, k at level 200).

(* ================================================================== *)
(** * Regular expressions ([re.search]) *)
(* ================================================================== *)

Module Re.

Inductive regex :=
| Void
| Eps
| Chr (c : ascii)
| Dot                      (* [.]  : any character but newline *)
| Digit                    (* [\d] *)
| Space                    (* [\s] *)
| Cat (r s : regex)
| Alt (r s : regex)
| Star (r : regex).

Definition Opt (r : regex) : regex := Alt r Eps.       (* [r?] *)
Definition Plus (r : regex) : regex := Cat r (Star r). (* [r+] *)

(** A literal word. *)
Fixpoint Lit (s : string) : regex :=
  match s with
  | EmptyString => Eps
  | String a s' => Cat (Chr a) (Lit s')
  end.

Definition is_digit (a : ascii) : bool :=
  let n := Ascii.nat_of_ascii a in ((48 <=? n) && (n <=? 57))%nat.

Definition is_space (a : ascii) : bool :=
  let n := Ascii.nat_of_ascii a in
  (((9 <=? n) && (n <=? 13)) || ((28 <=? n) && (n <=? 32)))%nat.

Definition is_newline (a : ascii) : bool :=
  (Ascii.nat_of_ascii a =? 10)%nat.

(** Does pattern character [c] accept input character [a]?  With
    [ignorecase] both are compared after case folding. *)
Definition chr_match (ignorecase : bool) (c a : ascii) : bool :=
  if ignorecase then Ascii.eqb (Py.lower_ascii c) (Py.lower_ascii a)
  else Ascii.eqb c a.

Fixpoint nullable (r : regex) : bool :=
  match r with
  | Void | Chr _ | Dot | Digit | Space => false
  | Eps | Star _ => true
  | Cat r s => nullable r && nullable s
  | Alt r s => nullable r || nullable s
  end.

Definition cat (r s : regex) : regex :=
  match r, s with
  | Void, _ | _, Void => Void
  | Eps, _ => s
  | _, _ => Cat r s
  end.

Definition alt (r s : regex) : regex :=
  match r, s with
  | Void, _ => s
  | _, Void => r
  | _, _ => Alt r s
  end.

Definition of_bool (b : bool) : regex := if b then Eps else Void.

(** Brzozowski derivative of [r] by the character [a]. *)
Fixpoint deriv (ic : bool) (a : ascii) (r : regex) : regex :=
  match r with
  | Void | Eps => Void
  | Chr c => of_bool (chr_match ic c a)
  | Dot => of_bool (negb (is_newline a))
  | Digit => of_bool (is_digit a)
  | Space => of_bool (is_space a)
  | Cat r s =>
      if nullable r then alt (cat (deriv ic a r) s) (deriv ic a s)
      else cat (deriv ic a r) s
  | Alt r s => alt (deriv ic a r) (deriv ic a s)
  | Star r => cat (deriv ic a r) (Star r)
  end.

(** Some prefix of [s] is matched by [r] ([re.match]). *)
Fixpoint match_prefix (ic : bool) (r : regex) (s : string) : bool :=
  nullable r
  || match s with
     | EmptyString => false
     | String a s' => match_prefix ic (deriv ic a r) s'
     end.

(** Some substring of [s] is matched by [r]: the truth value of
    [re.search(r, s)], resp. [re.search(r, s, re.IGNORECASE)]. *)
Fixpoint search (ic : bool) (r : regex) (s : string) : bool :=
  match_prefix ic r s
  || match s with
     | EmptyString => false
     | String _ s' => search ic r s'
     end.

(** The words a pattern denotes, [ic] telling whether case is ignored:
    the reference semantics that [search] is proved against. *)
Inductive Matches (ic : bool) : regex → string → Prop :=
| MEps : Matches ic Eps ""
| MChr c a : chr_match ic c a = true → Matches ic (Chr c) (String a "")
| MDot a : is_newline a = false → Matches ic Dot (String a "")
| MDigit a : is_digit a = true → Matches ic Digit (String a "")
| MSpace a : is_space a = true → Matches ic Space (String a "")
| MCat r s u v :
    Matches ic r u → Matches ic s v → Matches ic (Cat r s) (u +:+ v)
| MAltL r s u : Matches ic r u → Matches ic (Alt r s) u
| MAltR r s u : Matches ic s u → Matches ic (Alt r s) u
| MStarNil r : Matches ic (Star r) ""
| MStarApp r u v :
    Matches ic r u → Matches ic (Star r) v → Matches ic (Star r) (u +:+ v).

End Re.

(* ================================================================== *)
(** * Data carried through the pipeline *)
(* ================================================================== *)

(** One node of a Gmail message body: [part.get('mimeType', '')],
    [part['body']['data']] when present, and [part['parts']] when present. *)
#[warning="-register-all"]
Inductive Part : Type :=
  mkPart { mimeType : string;
           body_data : option string;
           parts : option (list Part) }.

(** The raw message handed to [parse_message]. *)
Module Message.
Record t := mk {
  id : string;
  threadId : string;
  labelIds : option (list string);
  snippet : option string;
  sizeEstimate : option Z;
  headers : list (string * string);   (* [payload.get('headers', [])] *)
  payload : Part
}.
End Message.

(** The dictionary returned by [parse_message]. *)
Module EmailData.
Record t := mk {
  id : string;
  thread_id : string;
  labels : list string;
  snippet : string;
  received_at : Z;
  sender_email : string;
  sender_name : option string;
  subject : string;
  content_text : option string;
  content_html : option string;
  content_length : Z;
  message_id_header : string;
  size_estimate : Z;
  is_newsletter : bool
}.
End EmailData.

(** The dictionary returned by [extract_newsletter_metadata]. *)
Module Metadata.
Record t := mk {
  sender_email : string;
  sender_name : option string;
  newsletter_title : option string;
  domain : string;
  category : option string;
  publication_frequency : string;
  average_length : Z
}.
End Metadata.

(* ================================================================== *)
(** * [app/services/gmail_service.py] *)
(* ================================================================== *)

Module Gmail.
Import Py.

(** ** [list_messages] *)

Record MessageRef := { ref_id : string; ref_threadId : string }.

(** What the provider answers to the successive [messages().list] calls of
    one listing: a page without [nextPageToken], a page carrying a token
    followed by the answers to the later calls, or an [HttpError].
    [None] as batch is a response without the [messages] key. *)
Inductive Pages :=
| LastPage (batch : option (list MessageRef))
| NextPage (batch : option (list MessageRef)) (nextPageToken : string)
           (rest : Pages)
| Fails.

(** The parameters of one [messages().list] request. *)
Record ListRequest := { pageToken : option string; maxResults : nat }.

(** The [while len(messages) < max_results] loop; the second component
    logs the requests issued.  [inl HttpError] is the exception leaving
    the loop. *)
Fixpoint list_loop (max_results : nat) (srv : Pages)
    (messages : list MessageRef) (page_token : option string)
    (log : list ListRequest) : result (list MessageRef) * list ListRequest :=
  if (length messages <? max_results)%nat then
    let request :=
      {| pageToken := page_token;
         maxResults := Nat.min 500 (max_results - length messages) |} in
    let log := log ++ [request] in
    match srv with
    | Fails => (raise HttpError, log)
    | LastPage batch =>
        let batch_messages := default [] batch in
        let messages := messages ++ batch_messages in
        (ret messages, log)                  (* no token: [break] *)
    | NextPage batch token rest =>
        let batch_messages := default [] batch in
        let messages := messages ++ batch_messages in
        if str_truthy token
        then list_loop max_results rest messages (Some token) log
        else (ret messages, log)             (* [not page_token]: [break] *)
    end
  else (ret messages, log).

(** [list_messages]: [service] tells whether [self.service] is set; the
    result is the returned list together with the requests sent.  The
    budget [max_results] is a count (the sync request validates it to lie
    between 1 and 500). *)
Definition list_messages (service : bool) (srv : Pages) (max_results : nat)
    : list MessageRef * list ListRequest :=
  if negb service then ([], [])
  else
    match list_loop max_results srv [] None [] with
    | (inr messages, log) => (take max_results messages, log)
    | (inl _, log) => ([], log)              (* [except HttpError] *)
    end.

(** ** [extract_message_body] and [html_to_text] *)

Section Extract.
(** [base64.urlsafe_b64decode(data).decode('utf-8', errors='ignore')],
    total on the data the mail API delivers. *)
Variable decode : string -> string.
(** [BeautifulSoup(html, 'html.parser').get_text(separator=' ',
    strip=True)]; [None] when the library raises. *)
Variable get_text : string -> option string.

Definition html_to_text (html_content : string) : string :=
  match get_text html_content with
  | Some text => text
  | None => html_content                   (* [except Exception] *)
  end.

(** The closure [extract_from_part]; the pair is the state of the two
    [nonlocal] variables [text_content] and [html_content]. *)
Definition extract_from_part (part : Part)
    (st : option string * option string) : option string * option string :=
  let '(text_content, html_content) := st in
  let mime_type := mimeType part in
  match body_data part with
  | Some data =>
      let content := decode data in
      if String.eqb mime_type "text/plain" && negb (truthy text_content)
      then (Some content, html_content)
      else if String.eqb mime_type "text/html" && negb (truthy html_content)
      then (text_content, Some content)
      else st
  | None => st
  end.

(** The two nested [for] loops over [payload['parts']]. *)
Definition walk_parts (payload : Part)
    (st : option string * option string) : option string * option string :=
  match parts payload with
  | Some ps =>
      foldl (fun st part =>
               match parts part with
               | Some subparts =>                   (* nested multipart *)
                   foldl (fun st subpart => extract_from_part subpart st)
                         st subparts
               | None => extract_from_part part st
               end) st ps
  | None => extract_from_part payload st
  end.

Definition extract_message_body (payload : Part)
    : option string * option string :=
  let '(text_content, html_content) := walk_parts payload (None, None) in
  let text_content :=
    match html_content with
    | Some html =>
        if negb (truthy text_content) && str_truthy html
        then Some (html_to_text html)
        else text_content
    | None => text_content
    end in
  (text_content, html_content).
End Extract.

(** ** [is_likely_newsletter] *)

(** Concatenation of regular expressions, as they are written in a
    pattern string. *)
Definition seq (rs : list Re.regex) : Re.regex :=
  foldr Re.Cat Re.Eps rs.

Definition unsubscribe_patterns : list Re.regex :=
  [ Re.Lit "unsubscribe";                                   (* unsubscribe *)
    seq [Re.Lit "opt"; Re.Opt Re.Dot; Re.Lit "out"];        (* opt.?out *)
    seq [Re.Lit "remove"; Re.Opt Re.Dot; Re.Lit "me"];      (* remove.?me *)
    seq [Re.Lit "manage"; Re.Opt Re.Dot; Re.Lit "preferences"];
                                                   (* manage.?preferences *)
    seq [Re.Lit "email"; Re.Opt Re.Dot; Re.Lit "preferences"]
                                                    (* email.?preferences *)
  ].

Definition list_headers : list string :=
  ["List-ID"; "List-Post"; "List-Help"; "Mailing-List"].

Definition newsletter_sender_patterns : list Re.regex :=
  [ Re.Lit "newsletter";                                     (* newsletter *)
    Re.Lit "noreply";                                        (* noreply *)
    Re.Lit "no-reply";                                       (* no-reply *)
    Re.Lit "digest";                                         (* digest *)
    seq [Re.Lit "update"; Re.Opt (Re.Chr "s")];              (* updates? *)
    seq [Re.Lit "notification"; Re.Opt (Re.Chr "s")];   (* notifications? *)
    seq [Re.Lit "alert"; Re.Opt (Re.Chr "s")]                (* alerts? *)
  ].

Definition newsletter_subject_patterns : list Re.regex :=
  [ Re.Lit "newsletter";                                     (* newsletter *)
    Re.Lit "digest";                                         (* digest *)
    seq [Re.Lit "weekly"; Re.Star Re.Dot; Re.Lit "update"];  (* weekly.*update *)
    seq [Re.Lit "daily"; Re.Star Re.Dot; Re.Lit "update"];   (* daily.*update *)
    seq [Re.Lit "monthly"; Re.Star Re.Dot; Re.Lit "update"]; (* monthly.*update *)
    seq [Re.Lit "issue"; Re.Star Re.Dot; Re.Plus Re.Digit];  (* issue.*\d+ *)
    seq [Re.Lit "edition"; Re.Star Re.Dot; Re.Plus Re.Digit];(* edition.*\d+ *)
    seq [Re.Lit "vol"; Re.Opt (Re.Chr "."); Re.Star Re.Space;
         Re.Plus Re.Digit]                                   (* vol\.?\s*\d+ *)
  ].

(** [for pattern in unsubscribe_patterns: if re.search(...): indicators
    += 2; break] *)
Fixpoint unsubscribe_loop (patterns : list Re.regex) (content : string)
    (indicators : Z) : Z :=
  match patterns with
  | [] => indicators
  | pattern :: rest =>
      if Re.search true pattern content then indicators + 2
      else unsubscribe_loop rest content indicators
  end.

Definition is_likely_newsletter (headers : gmap string string)
    (text_content html_content : option string) : bool :=
  let indicators := 0 in
  (* unsubscribe links *)
  let indicators :=
    if truthy text_content || truthy html_content then
      let content := or_empty text_content +:+ or_empty html_content in
      unsubscribe_loop unsubscribe_patterns content indicators
    else indicators in
  (* headers *)
  let list_unsubscribe := default "" (headers !! "List-Unsubscribe") in
  let indicators :=
    if str_truthy list_unsubscribe then indicators + 3 else indicators in
  (* mailing list headers *)
  let indicators :=
    foldl (fun indicators header =>
             if truthy (headers !! header) then indicators + 1
             else indicators) indicators list_headers in
  (* sender patterns *)
  let sender := lower (default "" (headers !! "From")) in
  let indicators :=
    foldl (fun indicators pattern =>
             if Re.search false pattern sender then indicators + 1
             else indicators) indicators newsletter_sender_patterns in
  (* subject patterns *)
  let subject := lower (default "" (headers !! "Subject")) in
  let indicators :=
    foldl (fun indicators pattern =>
             if Re.search false pattern subject then indicators + 1
             else indicators) indicators newsletter_subject_patterns in
  3 <=? indicators.

(** ** [parse_message] *)

(** [{header['name']: header['value'] for header in headers}]: a later
    header of the same name replaces an earlier one. *)
Definition header_dict (headers : list (string * string))
    : gmap string string :=
  foldl (fun d h => <[h.1 := h.2]> d) ∅ headers.

Section Parse.
Variable decode : string -> string.
Variable get_text : string -> option string.
(** [email.utils.parsedate_to_datetime]; [None] when it raises. *)
Variable parsedate_to_datetime : string -> option Z.
(** [email.utils.parseaddr], giving (name, address). *)
Variable parseaddr : string -> string * string.
(** [datetime.now()] *)
Variable now : Z.

Definition parse_email_date (date_str : string) : Z :=
  match parsedate_to_datetime date_str with
  | Some d => d
  | None => now
  end.

Definition parse_sender (from_header : string) : string * option string :=
  let '(name, email_addr) := parseaddr from_header in
  (lower email_addr, if str_truthy name then Some name else None).

Definition parse_message (message : Message.t) : EmailData.t :=
  let header_dict := header_dict (Message.headers message) in
  let '(text_content, html_content) :=
    extract_message_body decode get_text (Message.payload message) in
  let date_str := default "" (header_dict !! "Date") in
  let received_at := parse_email_date date_str in
  let '(sender_email, sender_name) :=
    parse_sender (default "" (header_dict !! "From")) in
  {| EmailData.id := Message.id message;
     EmailData.thread_id := Message.threadId message;
     EmailData.labels := default [] (Message.labelIds message);
     EmailData.snippet := default "" (Message.snippet message);
     EmailData.received_at := received_at;
     EmailData.sender_email := sender_email;
     EmailData.sender_name := sender_name;
     EmailData.subject := default "" (header_dict !! "Subject");
     EmailData.content_text := text_content;
     EmailData.content_html := html_content;
     EmailData.content_length :=
       (if truthy text_content
        then Z.of_nat (String.length (or_empty text_content)) else 0);
     EmailData.message_id_header := default "" (header_dict !! "Message-ID");
     EmailData.size_estimate := default 0 (Message.sizeEstimate message);
     EmailData.is_newsletter :=
       is_likely_newsletter header_dict text_content html_content |}.
End Parse.

(** ** [categorize_newsletter] *)

(** [a + b] where [a] is a [str] and [b] may be [None]: concatenating
    [None] raises [TypeError]. *)
Definition str_add (a : string) (b : option string) : result string :=
  match b with
  | Some s => ret (a +:+ s)
  | None => raise TypeError
  end.

(** [x or ''] for a [str]. *)
Definition str_or_empty (x : string) : string :=
  if str_truthy x then x else "".

Definition categories : list (string * list string) :=
  [ ("Technology", ["tech"; "software"; "ai"; "machine learning";
                    "programming"; "coding"; "developer"]);
    ("Business", ["business"; "startup"; "entrepreneur"; "marketing";
                  "sales"; "strategy"]);
    ("Finance", ["finance"; "investment"; "crypto"; "stock"; "trading";
                 "money"; "economy"]);
    ("News", ["news"; "politics"; "world"; "breaking"; "update";
              "current events"]);
    ("Health", ["health"; "wellness"; "fitness"; "medical"; "nutrition";
                "exercise"]);
    ("Science", ["science"; "research"; "study"; "discovery"; "experiment";
                 "academic"]);
    ("Education", ["education"; "learning"; "course"; "training"; "skill";
                   "knowledge"]);
    ("Lifestyle", ["lifestyle"; "travel"; "food"; "culture";
                   "entertainment"; "fashion"]) ].

(** [sum(1 for keyword in keywords if keyword in content)] *)
Definition keyword_score (content : string) (keywords : list string) : Z :=
  foldl (fun total keyword =>
           if contains keyword content then total + 1 else total) 0 keywords.

(** An insertion-ordered [dict]: [d[k] = v] and [d.get(k)]. *)
Fixpoint dict_set (k : string) (v : Z) (d : list (string * Z))
    : list (string * Z) :=
  match d with
  | [] => [(k, v)]
  | (k', v') :: d' =>
      if String.eqb k' k then (k, v) :: d' else (k', v') :: dict_set k v d'
  end.

Fixpoint dict_get (k : string) (d : list (string * Z)) : option Z :=
  match d with
  | [] => None
  | (k', v') :: d' => if String.eqb k' k then Some v' else dict_get k d'
  end.

(** One round of the loop filling [scores]. *)
Definition score_step (content : string) (scores : list (string * Z))
    (entry : string * list string) : list (string * Z) :=
  let '(category, keywords) := entry in
  let score := keyword_score content keywords in
  if 0 <? score then dict_set category score scores else scores.

(** The loop filling [scores]. *)
Definition score_categories (content : string)
    (categories : list (string * list string)) : list (string * Z) :=
  foldl (score_step content) [] categories.

(** [max(items, key=key)] on a non-empty iterable: the running maximum is
    replaced only by a strictly greater key, so the first maximal item is
    returned. *)
Fixpoint max_loop (key : string -> Z) (best : string) (best_key : Z)
    (items : list string) : string :=
  match items with
  | [] => best
  | item :: rest =>
      if best_key <? key item then max_loop key item (key item) rest
      else max_loop key best best_key rest
  end.

Definition py_max (items : list string) (key : string -> Z) : option string :=
  match items with
  | [] => None
  | item :: rest => Some (max_loop key item (key item) rest)
  end.

Definition categorize_newsletter (email_data : EmailData.t) : result string :=
  do joined <- str_add (EmailData.subject email_data +:+ " ")
                       (EmailData.content_text email_data);
  let content := lower (str_or_empty joined) in
  let scores := score_categories content categories in
  match py_max (map fst scores) (fun c => default 0 (dict_get c scores)) with
  | Some category => ret category            (* [if scores:] *)
  | None => ret "General"
  end.

(** ** [estimate_publication_frequency] and [extract_newsletter_metadata] *)

Definition any_in (words : list string) (subject : string) : bool :=
  existsb (fun word => contains word subject) words.

Definition estimate_publication_frequency (email_data : EmailData.t)
    : string :=
  let subject := lower (EmailData.subject email_data) in
  if any_in ["daily"; "today"] subject then "daily"
  else if any_in ["weekly"; "week"] subject then "weekly"
  else if any_in ["monthly"; "month"] subject then "monthly"
  else if any_in ["quarterly"; "quarter"] subject then "quarterly"
  else "unknown".

(** [s.split('@')[-1]]: what follows the last ['@'], or all of [s]. *)
Fixpoint after_last_at (s : string) : string :=
  match s with
  | EmptyString => EmptyString
  | String a s' =>
      if contains "@" s' then after_last_at s'
      else if Ascii.eqb a "@" then s' else s
  end.

Section Metadata.
(** [guess_newsletter_title], a function of the subject and the sender
    fields that raises nothing. *)
Variable guess_newsletter_title : EmailData.t -> option string.
(** [urlparse(url).netloc]: the network location of the URL, or, when
    [urlparse] raises [ValueError] (as it does for an unmatched bracket
    in the host), the message of the exception. *)
Variable netloc : string -> string + string.

(** [urlparse(f"http://{sender_email.split('@')[-1]}").netloc
    if '@' in sender_email else ''] *)
Definition sender_domain (sender_email : string) : result string :=
  if contains "@" sender_email
  then match netloc ("http://" +:+ after_last_at sender_email) with
       | inl message => raise (ValueError message)
       | inr domain => ret domain
       end
  else ret "".

Definition extract_newsletter_metadata (email_data : EmailData.t)
    : result Metadata.t :=
  let sender_email := EmailData.sender_email email_data in
  do domain <- sender_domain sender_email;
  let title := guess_newsletter_title email_data in
  let frequency := estimate_publication_frequency email_data in
  do category <- categorize_newsletter email_data;
  ret {| Metadata.sender_email := sender_email;
         Metadata.sender_name := EmailData.sender_name email_data;
         Metadata.newsletter_title := title;
         Metadata.domain := domain;
         Metadata.category := Some category;
         Metadata.publication_frequency := frequency;
         Metadata.average_length := EmailData.content_length email_data |}.
End Metadata.

(** ** [get_message_details] and [sync_emails] *)

(** The double quotation mark. *)
Definition quote : string := String "034"%char "".

(** [str(e)] for the exceptions that leave the loop of [sync_emails]: the
    [TypeError] of a concatenation with [None], whose message names the
    type between quotation marks, and the [ValueError] of [urlparse].  The
    two other exceptions are raised and caught elsewhere. *)
Definition str_of_exn (e : exn) : string :=
  match e with
  | TypeError =>
      "can only concatenate str (not " +:+ quote +:+ "NoneType" +:+ quote
      +:+ ") to str"
  | ValueError message => message
  | HttpError => "HttpError"
  | OperationalError => "OperationalError"
  end.

(** The dictionary returned by [sync_emails]: [{'error': 'Not
    authenticated'}], a ['status': 'error'] answer, or a ['status':
    'success'] answer with the processed messages and the detected
    newsletters. *)
Inductive SyncResult :=
| NotAuthenticated
| SyncError (error : string)
| SyncSuccess (processed_emails : list EmailData.t)
              (newsletters : list (EmailData.t * Metadata.t)).

Section SyncEmails.
Variable decode : string -> string.
Variable get_text : string -> option string.
Variable parsedate_to_datetime : string -> option Z.
Variable parseaddr : string -> string * string.
Variable now : Z.
Variable guess_newsletter_title : EmailData.t -> option string.
Variable netloc : string -> string + string.
(** [messages().get(userId='me', id=..., format='full').execute()];
    [None] when it raises [HttpError]. *)
Variable fetch : string -> option Message.t.

Definition get_message_details (message_id : string)
    : option EmailData.t :=
  parse_message decode get_text parsedate_to_datetime parseaddr now
    <$> fetch message_id.

(** The [for message in messages] loop. *)
Fixpoint sync_loop (messages : list MessageRef)
    (processed_emails : list EmailData.t)
    (newsletters_detected : list (EmailData.t * Metadata.t))
    : result (list EmailData.t * list (EmailData.t * Metadata.t)) :=
  match messages with
  | [] => ret (processed_emails, newsletters_detected)
  | message :: rest =>
      match get_message_details (ref_id message) with
      | Some email_data =>
          let processed_emails := processed_emails ++ [email_data] in
          if EmailData.is_newsletter email_data then
            do newsletter_metadata <-
              extract_newsletter_metadata guess_newsletter_title netloc
                email_data;
            sync_loop rest processed_emails
              (newsletters_detected ++ [(email_data, newsletter_metadata)])
          else sync_loop rest processed_emails newsletters_detected
      | None => sync_loop rest processed_emails newsletters_detected
      end
  end.

Definition sync_emails (service : bool) (srv : Pages) (max_emails : nat)
    : SyncResult :=
  if negb service then NotAuthenticated
  else
    let messages := (list_messages service srv max_emails).1 in
    match sync_loop messages [] [] with
    | inr (processed_emails, newsletters_detected) =>
        SyncSuccess processed_emails newsletters_detected
    | inl e => SyncError (str_of_exn e)    (* [except Exception] *)
    end.
End SyncEmails.

End Gmail.

(* ================================================================== *)
(** * [app/models/newsletter.py]: the persisted rows *)
(* ================================================================== *)

(** The records hold the columns that the modelled code reads or writes.
    The bookkeeping columns [created_at] and [updated_at], which the
    database fills by itself on every insert and update, and the analysis
    columns that no modelled function touches are left out. *)

Module Newsletter.
Record t := mk {
  id : Z;
  sender_email : string;
  sender_name : option string;
  newsletter_title : option string;
  domain : option string;
  category : option string;
  publication_frequency : option string;
  average_length : option Z;
  first_detected_at : Z;
  last_received_at : option Z;
  total_emails_count : Z;
  is_active : bool
}.

Definition with_last_received_at (v : option Z) (n : t) : t :=
  mk (id n) (sender_email n) (sender_name n) (newsletter_title n) (domain n)
     (category n) (publication_frequency n) (average_length n)
     (first_detected_at n) v (total_emails_count n) (is_active n).
Definition with_total_emails_count (v : Z) (n : t) : t :=
  mk (id n) (sender_email n) (sender_name n) (newsletter_title n) (domain n)
     (category n) (publication_frequency n) (average_length n)
     (first_detected_at n) (last_received_at n) v (is_active n).
Definition with_newsletter_title (v : option string) (n : t) : t :=
  mk (id n) (sender_email n) (sender_name n) v (domain n)
     (category n) (publication_frequency n) (average_length n)
     (first_detected_at n) (last_received_at n) (total_emails_count n)
     (is_active n).
Definition with_category (v : option string) (n : t) : t :=
  mk (id n) (sender_email n) (sender_name n) (newsletter_title n) (domain n)
     v (publication_frequency n) (average_length n)
     (first_detected_at n) (last_received_at n) (total_emails_count n)
     (is_active n).
End Newsletter.

Module UserNewsletter.
Record t := mk {
  id : Z;
  user_id : Z;
  newsletter_id : Z;
  subscribed_at : Z;
  last_received_at : option Z;
  total_received_count : Z;
  base_relevance_score : Q;
  current_relevance_score : Q;
  is_active : bool;
  is_subscribed : bool
}.

Definition with_is_active (v : bool) (s : t) : t :=
  mk (id s) (user_id s) (newsletter_id s) (subscribed_at s)
     (last_received_at s) (total_received_count s) (base_relevance_score s)
     (current_relevance_score s) v (is_subscribed s).
Definition with_is_subscribed (v : bool) (s : t) : t :=
  mk (id s) (user_id s) (newsletter_id s) (subscribed_at s)
     (last_received_at s) (total_received_count s) (base_relevance_score s)
     (current_relevance_score s) (is_active s) v.

Definition with_current_relevance_score (v : Q) (s : t) : t :=
  mk (id s) (user_id s) (newsletter_id s) (subscribed_at s)
     (last_received_at s) (total_received_count s) (base_relevance_score s)
     v (is_active s) (is_subscribed s).
End UserNewsletter.

Module NewsletterEmail.
Record t := mk {
  id : Z;
  user_id : Z;
  newsletter_id : Z;
  email_id : string;
  message_id_header : option string;
  thread_id : option string;
  subject : string;
  sender : string;
  received_at : Z;
  content_text : option string;
  content_html : option string;
  content_length : option Z;
  labels : string;
  snippet : option string;
  has_been_opened : bool;
  has_been_clicked : bool;
  reading_time_seconds : option Z;
  engagement_score : Q;
  relevance_score : Q
}.

Definition with_has_been_opened (v : bool) (e : t) : t :=
  mk (id e) (user_id e) (newsletter_id e) (email_id e) (message_id_header e)
     (thread_id e) (subject e) (sender e) (received_at e) (content_text e)
     (content_html e) (content_length e) (labels e) (snippet e)
     v (has_been_clicked e) (reading_time_seconds e) (engagement_score e)
     (relevance_score e).
Definition with_has_been_clicked (v : bool) (e : t) : t :=
  mk (id e) (user_id e) (newsletter_id e) (email_id e) (message_id_header e)
     (thread_id e) (subject e) (sender e) (received_at e) (content_text e)
     (content_html e) (content_length e) (labels e) (snippet e)
     (has_been_opened e) v (reading_time_seconds e) (engagement_score e)
     (relevance_score e).
Definition with_reading_time_seconds (v : option Z) (e : t) : t :=
  mk (id e) (user_id e) (newsletter_id e) (email_id e) (message_id_header e)
     (thread_id e) (subject e) (sender e) (received_at e) (content_text e)
     (content_html e) (content_length e) (labels e) (snippet e)
     (has_been_opened e) (has_been_clicked e) v (engagement_score e)
     (relevance_score e).
Definition with_engagement_score (v : Q) (e : t) : t :=
  mk (id e) (user_id e) (newsletter_id e) (email_id e) (message_id_header e)
     (thread_id e) (subject e) (sender e) (received_at e) (content_text e)
     (content_html e) (content_length e) (labels e) (snippet e)
     (has_been_opened e) (has_been_clicked e) (reading_time_seconds e) v
     (relevance_score e).
End NewsletterEmail.

Module EmailConnection.
Record t := mk {
  id : Z;
  user_id : Z;
  email_address : string;
  access_token : option string;
  refresh_token : option string;
  token_expires_at : option Z;
  is_connected : bool;
  connection_status : string;
  last_sync_at : option Z;
  last_error : option string;
  connected_at : option Z
}.

Definition with_connection_status (v : string) (c : t) : t :=
  mk (id c) (user_id c) (email_address c) (access_token c) (refresh_token c)
     (token_expires_at c) (is_connected c) v (last_sync_at c) (last_error c)
     (connected_at c).
Definition with_is_connected (v : bool) (c : t) : t :=
  mk (id c) (user_id c) (email_address c) (access_token c) (refresh_token c)
     (token_expires_at c) v (connection_status c) (last_sync_at c)
     (last_error c) (connected_at c).
Definition with_last_error (v : option string) (c : t) : t :=
  mk (id c) (user_id c) (email_address c) (access_token c) (refresh_token c)
     (token_expires_at c) (is_connected c) (connection_status c)
     (last_sync_at c) v (connected_at c).
Definition with_last_sync_at (v : option Z) (c : t) : t :=
  mk (id c) (user_id c) (email_address c) (access_token c) (refresh_token c)
     (token_expires_at c) (is_connected c) (connection_status c) v
     (last_error c) (connected_at c).

Definition with_email_address (v : string) (c : t) : t :=
  mk (id c) (user_id c) v (access_token c) (refresh_token c)
     (token_expires_at c) (is_connected c) (connection_status c)
     (last_sync_at c) (last_error c) (connected_at c).
Definition with_access_token (v : option string) (c : t) : t :=
  mk (id c) (user_id c) (email_address c) v (refresh_token c)
     (token_expires_at c) (is_connected c) (connection_status c)
     (last_sync_at c) (last_error c) (connected_at c).
Definition with_refresh_token (v : option string) (c : t) : t :=
  mk (id c) (user_id c) (email_address c) (access_token c) v
     (token_expires_at c) (is_connected c) (connection_status c)
     (last_sync_at c) (last_error c) (connected_at c).
Definition with_token_expires_at (v : option Z) (c : t) : t :=
  mk (id c) (user_id c) (email_address c) (access_token c) (refresh_token c)
     v (is_connected c) (connection_status c)
     (last_sync_at c) (last_error c) (connected_at c).
Definition with_connected_at (v : option Z) (c : t) : t :=
  mk (id c) (user_id c) (email_address c) (access_token c) (refresh_token c)
     (token_expires_at c) (is_connected c) (connection_status c)
     (last_sync_at c) (last_error c) v.
End EmailConnection.

(** The four tables, each in storage order. *)
Record DB := mkDB {
  newsletters : list Newsletter.t;
  user_newsletters : list UserNewsletter.t;
  newsletter_emails : list NewsletterEmail.t;
  email_connections : list EmailConnection.t
}.

Definition with_newsletters (v : list Newsletter.t) (db : DB) : DB :=
  mkDB v (user_newsletters db) (newsletter_emails db) (email_connections db).
Definition with_user_newsletters (v : list UserNewsletter.t) (db : DB) : DB :=
  mkDB (newsletters db) v (newsletter_emails db) (email_connections db).
Definition with_newsletter_emails (v : list NewsletterEmail.t) (db : DB) : DB :=
  mkDB (newsletters db) (user_newsletters db) v (email_connections db).
Definition with_email_connections (v : list EmailConnection.t) (db : DB) : DB :=
  mkDB (newsletters db) (user_newsletters db) (newsletter_emails db) v.

(* ================================================================== *)
(** * [app/crud/newsletter.py] *)
(* ================================================================== *)

Module Crud.
Import Py.

(** The primary key given to a row added to a table whose keys are
    [ids]. *)
Definition next_id (ids : list Z) : Z := 1 + foldr Z.max 0 ids.

(** [', '.join]-style joining with a separator. *)
Fixpoint join (sep : string) (items : list string) : string :=
  match items with
  | [] => ""
  | [x] => x
  | x :: rest => x +:+ sep +:+ join sep rest
  end.

(** ** [get_or_create_newsletter]

    [query(...).filter(...).first()] is the first matching row in storage
    order; attribute assignments followed by [commit] write the row back
    in place; [add] followed by [commit] appends a row. *)
Definition get_or_create_newsletter (db : DB) (now : Z)
    (newsletter_data : Metadata.t) : DB * Newsletter.t :=
  match list_find
          (λ n, Newsletter.sender_email n
                = Metadata.sender_email newsletter_data)
          (newsletters db) with
  | Some (i, newsletter) =>
      let newsletter := Newsletter.with_last_received_at (Some now) newsletter in
      let newsletter :=
        Newsletter.with_total_emails_count
          (Newsletter.total_emails_count newsletter + 1) newsletter in
      let newsletter :=
        if truthy (Metadata.newsletter_title newsletter_data)
           && negb (truthy (Newsletter.newsletter_title newsletter))
        then Newsletter.with_newsletter_title
               (Metadata.newsletter_title newsletter_data) newsletter
        else newsletter in
      let newsletter :=
        if truthy (Metadata.category newsletter_data)
           && negb (truthy (Newsletter.category newsletter))
        then Newsletter.with_category
               (Metadata.category newsletter_data) newsletter
        else newsletter in
      (with_newsletters (<[i := newsletter]> (newsletters db)) db, newsletter)
  | None =>
      let newsletter :=
        {| Newsletter.id := next_id (Newsletter.id <$> newsletters db);
           Newsletter.sender_email := Metadata.sender_email newsletter_data;
           Newsletter.sender_name := Metadata.sender_name newsletter_data;
           Newsletter.newsletter_title :=
             Metadata.newsletter_title newsletter_data;
           Newsletter.domain := Some (Metadata.domain newsletter_data);
           Newsletter.category := Metadata.category newsletter_data;
           Newsletter.publication_frequency :=
             Some (Metadata.publication_frequency newsletter_data);
           Newsletter.average_length :=
             Some (Metadata.average_length newsletter_data);
           Newsletter.first_detected_at := now;
           Newsletter.last_received_at := Some now;
           Newsletter.total_emails_count := 1;
           Newsletter.is_active := true |} in
      (with_newsletters (newsletters db ++ [newsletter]) db, newsletter)
  end.

(** ** [create_user_newsletter_subscription] *)
Definition create_user_newsletter_subscription (db : DB) (now : Z)
    (user_id newsletter_id : Z) (base_relevance_score : Q)
    : DB * UserNewsletter.t :=
  match list_find
          (λ s, UserNewsletter.user_id s = user_id
                ∧ UserNewsletter.newsletter_id s = newsletter_id)
          (user_newsletters db) with
  | Some (i, existing) =>
      (* reactivate if it was deactivated *)
      let existing := UserNewsletter.with_is_active true existing in
      let existing := UserNewsletter.with_is_subscribed true existing in
      (with_user_newsletters (<[i := existing]> (user_newsletters db)) db,
       existing)
  | None =>
      let subscription :=
        {| UserNewsletter.id :=
             next_id (UserNewsletter.id <$> user_newsletters db);
           UserNewsletter.user_id := user_id;
           UserNewsletter.newsletter_id := newsletter_id;
           UserNewsletter.subscribed_at := now;
           UserNewsletter.last_received_at := None;
           UserNewsletter.total_received_count := 0;
           UserNewsletter.base_relevance_score := base_relevance_score;
           UserNewsletter.current_relevance_score := base_relevance_score;
           UserNewsletter.is_active := true;
           UserNewsletter.is_subscribed := true |} in
      (with_user_newsletters (user_newsletters db ++ [subscription]) db,
       subscription)
  end.

(** The default of the [base_relevance_score] parameter, [50.0]. *)
Definition default_base_relevance_score : Q := (50 # 1)%Q.

(** ** [create_newsletter_email] *)
Definition create_newsletter_email (db : DB) (user_id newsletter_id : Z)
    (email_data : EmailData.t) : DB * NewsletterEmail.t :=
  match list_find
          (λ e, NewsletterEmail.user_id e = user_id
                ∧ NewsletterEmail.email_id e = EmailData.id email_data)
          (newsletter_emails db) with
  | Some (_, existing) => (db, existing)
  | None =>
      let newsletter_email :=
        {| NewsletterEmail.id :=
             next_id (NewsletterEmail.id <$> newsletter_emails db);
           NewsletterEmail.user_id := user_id;
           NewsletterEmail.newsletter_id := newsletter_id;
           NewsletterEmail.email_id := EmailData.id email_data;
           NewsletterEmail.message_id_header :=
             Some (EmailData.message_id_header email_data);
           NewsletterEmail.thread_id := Some (EmailData.thread_id email_data);
           NewsletterEmail.subject := EmailData.subject email_data;
           NewsletterEmail.sender := EmailData.sender_email email_data;
           NewsletterEmail.received_at := EmailData.received_at email_data;
           NewsletterEmail.content_text := EmailData.content_text email_data;
           NewsletterEmail.content_html := EmailData.content_html email_data;
           NewsletterEmail.content_length :=
             Some (EmailData.content_length email_data);
           NewsletterEmail.labels := join "," (EmailData.labels email_data);
           NewsletterEmail.snippet := Some (EmailData.snippet email_data);
           NewsletterEmail.has_been_opened := false;
           NewsletterEmail.has_been_clicked := false;
           NewsletterEmail.reading_time_seconds := None;
           NewsletterEmail.engagement_score := (0 # 1)%Q;
           NewsletterEmail.relevance_score := (50 # 1)%Q |} in
      (with_newsletter_emails (newsletter_emails db ++ [newsletter_email]) db,
       newsletter_email)
  end.

(** ** [get_email_connection] and [update_email_connection_status] *)
Definition get_email_connection (db : DB) (user_id : Z)
    : option (nat * EmailConnection.t) :=
  list_find (λ c, EmailConnection.user_id c = user_id) (email_connections db).

Definition update_email_connection_status (db : DB) (now : Z) (user_id : Z)
    (status : string) (error_message : option string)
    : DB * option EmailConnection.t :=
  match get_email_connection db user_id with
  | Some (i, connection) =>
      let connection :=
        EmailConnection.with_connection_status status connection in
      let connection :=
        EmailConnection.with_is_connected
          (String.eqb status "connected") connection in
      let connection :=
        EmailConnection.with_last_error error_message connection in
      let connection :=
        if String.eqb status "connected"
        then EmailConnection.with_last_sync_at (Some now) connection
        else connection in
      (with_email_connections (<[i := connection]> (email_connections db)) db,
       Some connection)
  | None => (db, None)
  end.

(** ** [get_newsletter_stats] *)

Record EngagementStats := {
  average_relevance_score : Q;
  open_rate : Q;
  click_rate : Q
}.

Record Stats := {
  total_newsletters : nat;
  active_subscriptions : nat;
  total_emails : nat;
  emails_this_week : nat;
  emails_this_month : nat;
  top_categories : list (string * nat);
  engagement_stats : EngagementStats
}.

(** A database session whose statements may raise: [fails_at = Some k]
    makes the [k]-th statement issued through the session raise. *)
Record Session := { store : DB; fails_at : option nat }.

Definition execute {A} (db : Session) (k : nat) (query : DB -> A)
    : result A :=
  if bool_decide (fails_at db = Some k) then raise OperationalError
  else ret (query (store db)).

(** [query(Newsletter).join(UserNewsletter).filter(user_id == ...)
    .count()]: the rows of the join. *)
Definition count_user_newsletters (user_id : Z) (db : DB) : nat :=
  length (filter (λ p : Newsletter.t * UserNewsletter.t,
                    UserNewsletter.newsletter_id p.2 = Newsletter.id p.1
                    ∧ UserNewsletter.user_id p.2 = user_id)
                 (list_prod (newsletters db) (user_newsletters db))).

Definition count_active_subscriptions (user_id : Z) (db : DB) : nat :=
  length (filter (λ s, UserNewsletter.user_id s = user_id
                       ∧ UserNewsletter.is_active s = true)
                 (user_newsletters db)).

Definition count_emails (user_id : Z) (db : DB) : nat :=
  length (filter (λ e, NewsletterEmail.user_id e = user_id)
                 (newsletter_emails db)).

Definition count_emails_since (user_id : Z) (since : Z) (db : DB) : nat :=
  length (filter (λ e, NewsletterEmail.user_id e = user_id
                       ∧ since ≤ NewsletterEmail.received_at e)
                 (newsletter_emails db)).

(** [GROUP BY]: one counter per key, in order of first appearance. *)
Fixpoint bump (key : option string) (groups : list (option string * nat))
    : list (option string * nat) :=
  match groups with
  | [] => [(key, 1%nat)]
  | (key', count) :: groups' =>
      if decide (key' = key) then (key', S count) :: groups'
      else (key', count) :: bump key groups'
  end.

(** [ORDER BY count DESC] *)
Definition count_desc (a b : option string * nat) : Prop := (b.2 ≤ a.2)%nat.

#[global] Instance count_desc_dec : RelDecision count_desc.
Proof. intros a b. unfold count_desc. apply _. Defined.

(** [query(Newsletter.category, count(NewsletterEmail.id))
    .join(NewsletterEmail).filter(user_id == ...)
    .group_by(Newsletter.category).order_by(desc('count')).limit(5)] *)
Definition top_categories_query (user_id : Z) (db : DB)
    : list (option string * nat) :=
  let joined :=
    filter (λ p : Newsletter.t * NewsletterEmail.t,
              NewsletterEmail.newsletter_id p.2 = Newsletter.id p.1
              ∧ NewsletterEmail.user_id p.2 = user_id)
           (list_prod (newsletters db) (newsletter_emails db)) in
  let groups :=
    foldl (λ groups p, bump (Newsletter.category p.1) groups) [] joined in
  take 5 (merge_sort count_desc groups).

Definition seconds_per_day : Z := 86400.

Definition empty_stats : Stats :=
  {| total_newsletters := 0;
     active_subscriptions := 0;
     total_emails := 0;
     emails_this_week := 0;
     emails_this_month := 0;
     top_categories := [];
     engagement_stats :=
       {| average_relevance_score := (0 # 1)%Q;
          open_rate := (0 # 1)%Q;
          click_rate := (0 # 1)%Q |} |}.

(** The body of the [try] block. *)
Definition compute_stats (db : Session) (now : Z) (user_id : Z)
    : result Stats :=
  do total_newsletters <- execute db 0 (count_user_newsletters user_id);
  do active_subscriptions <-
    execute db 1 (count_active_subscriptions user_id);
  do total_emails <- execute db 2 (count_emails user_id);
  let week_ago := now - 7 * seconds_per_day in
  do emails_this_week <- execute db 3 (count_emails_since user_id week_ago);
  let month_ago := now - 30 * seconds_per_day in
  do emails_this_month <-
    execute db 4 (count_emails_since user_id month_ago);
  do top_categories_query <- execute db 5 (top_categories_query user_id);
  let top_categories :=
    map (λ row : option string * nat,
           (if truthy row.1 then or_empty row.1 else "Unknown", row.2))
        top_categories_query in
  ret {| total_newsletters := total_newsletters;
         active_subscriptions := active_subscriptions;
         total_emails := total_emails;
         emails_this_week := emails_this_week;
         emails_this_month := emails_this_month;
         top_categories := top_categories;
         engagement_stats :=
           {| average_relevance_score := (0 # 1)%Q;
              open_rate := (0 # 1)%Q;
              click_rate := (0 # 1)%Q |} |}.

Definition get_newsletter_stats (db : Session) (now : Z) (user_id : Z)
    : Stats :=
  match compute_stats db now user_id with
  | inr stats => stats
  | inl _ => empty_stats                     (* [except Exception] *)
  end.


(** ** [get_newsletter_by_id] *)
Definition get_newsletter_by_id (db : DB) (newsletter_id : Z)
    : option Newsletter.t :=
  snd <$> list_find (λ n, Newsletter.id n = newsletter_id) (newsletters db).

(** ** [get_user_newsletters] *)

(** [ORDER BY current_relevance_score DESC] *)
Definition score_desc (a b : UserNewsletter.t) : Prop :=
  (UserNewsletter.current_relevance_score b
   <= UserNewsletter.current_relevance_score a)%Q.

#[global] Instance score_desc_dec : RelDecision score_desc.
Proof. intros a b. unfold score_desc, Qle. apply _. Defined.

(** The rows come in descending order of the score; the order among rows
    of equal score is the one the sort leaves.  [skip] and [limit] are
    the [OFFSET] and the [LIMIT], both counts. *)
Definition get_user_newsletters (db : DB) (user_id : Z) (active_only : bool)
    (skip limit : nat) : list UserNewsletter.t :=
  let query :=
    filter (λ s, UserNewsletter.user_id s = user_id) (user_newsletters db) in
  let query :=
    if active_only
    then filter (λ s, UserNewsletter.is_active s = true) query
    else query in
  take limit (drop skip (merge_sort score_desc query)).

(** ** [update_user_newsletter_subscription] *)
Definition update_user_newsletter_subscription (db : DB)
    (user_id newsletter_id : Z) (is_subscribed : option bool)
    (relevance_score : option Q) : DB * option UserNewsletter.t :=
  match list_find
          (λ s, UserNewsletter.user_id s = user_id
                ∧ UserNewsletter.newsletter_id s = newsletter_id)
          (user_newsletters db) with
  | None => (db, None)
  | Some (i, subscription) =>
      let subscription :=
        match is_subscribed with
        | Some v => UserNewsletter.with_is_subscribed v subscription
        | None => subscription
        end in
      let subscription :=
        match relevance_score with
        | Some v => UserNewsletter.with_current_relevance_score v subscription
        | None => subscription
        end in
      (with_user_newsletters (<[i := subscription]> (user_newsletters db)) db,
       Some subscription)
  end.

(** ** [unsubscribe_from_newsletter] *)
Definition unsubscribe_from_newsletter (db : DB) (user_id newsletter_id : Z)
    : DB * bool :=
  match list_find
          (λ s, UserNewsletter.user_id s = user_id
                ∧ UserNewsletter.newsletter_id s = newsletter_id)
          (user_newsletters db) with
  | Some (i, subscription) =>
      let subscription := UserNewsletter.with_is_subscribed false subscription in
      let subscription := UserNewsletter.with_is_active false subscription in
      (with_user_newsletters (<[i := subscription]> (user_newsletters db)) db,
       true)
  | None => (db, false)
  end.

(** ** [get_newsletter_emails] *)

(** [ORDER BY received_at DESC] *)
Definition received_desc (a b : NewsletterEmail.t) : Prop :=
  NewsletterEmail.received_at b ≤ NewsletterEmail.received_at a.

#[global] Instance received_desc_dec : RelDecision received_desc.
Proof. intros a b. unfold received_desc. apply _. Defined.

(** [bool(newsletter_id)] for an [Optional[int]]: [None] and [0] are
    falsy. *)
Definition int_truthy (o : option Z) : bool :=
  match o with Some z => negb (z =? 0) | None => false end.

Definition get_newsletter_emails (db : DB) (user_id : Z)
    (newsletter_id : option Z) (limit skip : nat) : list NewsletterEmail.t :=
  let query :=
    filter (λ e, NewsletterEmail.user_id e = user_id) (newsletter_emails db) in
  let query :=
    if int_truthy newsletter_id
    then filter (λ e, Some (NewsletterEmail.newsletter_id e) = newsletter_id)
                query
    else query in
  take limit (drop skip (merge_sort received_desc query)).

(** ** [get_newsletter_email_by_id] *)
Definition get_newsletter_email_by_id (db : DB) (email_id : Z) (user_id : Z)
    : option (nat * NewsletterEmail.t) :=
  list_find (λ e, NewsletterEmail.id e = email_id
                  ∧ NewsletterEmail.user_id e = user_id)
            (newsletter_emails db).

(** ** [update_newsletter_email_interaction] *)

(** The dictionary [interaction_data]: each of the four keys is present
    with a value, or absent. *)
Record InteractionData := {
  has_been_opened : option bool;
  has_been_clicked : option bool;
  reading_time_seconds : option Z;
  engagement_score : option Q
}.

Definition update_newsletter_email_interaction (db : DB) (email_id : Z)
    (user_id : Z) (interaction_data : InteractionData)
    : DB * option NewsletterEmail.t :=
  match get_newsletter_email_by_id db email_id user_id with
  | None => (db, None)
  | Some (i, email_record) =>
      let email_record :=
        match has_been_opened interaction_data with
        | Some v => NewsletterEmail.with_has_been_opened v email_record
        | None => email_record
        end in
      let email_record :=
        match has_been_clicked interaction_data with
        | Some v => NewsletterEmail.with_has_been_clicked v email_record
        | None => email_record
        end in
      let email_record :=
        match reading_time_seconds interaction_data with
        | Some v => NewsletterEmail.with_reading_time_seconds (Some v) email_record
        | None => email_record
        end in
      let email_record :=
        match engagement_score interaction_data with
        | Some v => NewsletterEmail.with_engagement_score v email_record
        | None => email_record
        end in
      (with_newsletter_emails (<[i := email_record]> (newsletter_emails db)) db,
       Some email_record)
  end.

(** ** [create_email_connection] *)

(** The dictionary [connection_data]. *)
Record ConnectionData := {
  cd_email_address : string;
  cd_access_token : option string;
  cd_refresh_token : option string;
  cd_expires_at : option Z
}.

Definition create_email_connection (db : DB) (now : Z) (user_id : Z)
    (connection_data : ConnectionData) : DB * EmailConnection.t :=
  match list_find (λ c, EmailConnection.user_id c = user_id)
                  (email_connections db) with
  | Some (i, existing) =>
      let existing :=
        EmailConnection.with_email_address
          (cd_email_address connection_data) existing in
      let existing :=
        EmailConnection.with_access_token
          (cd_access_token connection_data) existing in
      let existing :=
        EmailConnection.with_refresh_token
          (cd_refresh_token connection_data) existing in
      let existing :=
        EmailConnection.with_token_expires_at
          (cd_expires_at connection_data) existing in
      let existing := EmailConnection.with_is_connected true existing in
      let existing :=
        EmailConnection.with_connection_status "connected" existing in
      let existing := EmailConnection.with_connected_at (Some now) existing in
      let existing := EmailConnection.with_last_error None existing in
      (with_email_connections (<[i := existing]> (email_connections db)) db,
       existing)
  | None =>
      let connection :=
        {| EmailConnection.id :=
             next_id (EmailConnection.id <$> email_connections db);
           EmailConnection.user_id := user_id;
           EmailConnection.email_address := cd_email_address connection_data;
           EmailConnection.access_token := cd_access_token connection_data;
           EmailConnection.refresh_token := cd_refresh_token connection_data;
           EmailConnection.token_expires_at := cd_expires_at connection_data;
           EmailConnection.is_connected := true;
           EmailConnection.connection_status := "connected";
           EmailConnection.last_sync_at := None;
           EmailConnection.last_error := None;
           EmailConnection.connected_at := Some now |} in
      (with_email_connections (email_connections db ++ [connection]) db,
       connection)
  end.

(** ** [disconnect_email] *)
Definition disconnect_email (db : DB) (user_id : Z) : DB * bool :=
  match get_email_connection db user_id with
  | Some (i, connection) =>
      let connection := EmailConnection.with_is_connected false connection in
      let connection :=
        EmailConnection.with_connection_status "disconnected" connection in
      let connection := EmailConnection.with_access_token None connection in
      let connection := EmailConnection.with_refresh_token None connection in
      let connection := EmailConnection.with_token_expires_at None connection in
      (with_email_connections (<[i := connection]> (email_connections db)) db,
       true)
  | None => (db, false)
  end.

End Crud.

(* ================================================================== *)
(** * [app/api/endpoints/email.py]: the background sync *)
(* ================================================================== *)

Module Sync.
Import Py.

(** One round of the [for newsletter_data in sync_result['newsletters']]
    loop; the second component is the counter [new_newsletters]. *)
Definition process_newsletter (user_id : Z) (now : Z)
    (st : DB * nat) (newsletter_data : EmailData.t * Metadata.t)
    : DB * nat :=
  let '(db, new_newsletters) := st in
  let '(email_data, metadata) := newsletter_data in
  (* create or get newsletter *)
  let '(db, newsletter) := Crud.get_or_create_newsletter db now metadata in
  (* create user subscription if it doesn't exist *)
  let existing_subscription :=
    list_find (λ s, UserNewsletter.user_id s = user_id
                    ∧ UserNewsletter.newsletter_id s = Newsletter.id newsletter)
              (user_newsletters db) in
  let '(db, new_newsletters) :=
    match existing_subscription with
    | Some _ => (db, new_newsletters)
    | None =>
        ((Crud.create_user_newsletter_subscription db now user_id
            (Newsletter.id newsletter) Crud.default_base_relevance_score).1,
         S new_newsletters)
    end in
  (* create email record *)
  let db :=
    (Crud.create_newsletter_email db user_id (Newsletter.id newsletter)
       email_data).1 in
  (db, new_newsletters).

Definition process_newsletters (user_id : Z) (now : Z) (db : DB)
    (newsletters : list (EmailData.t * Metadata.t)) : DB * nat :=
  foldl (process_newsletter user_id now) (db, 0%nat) newsletters.

(** [sync_user_emails]: [authenticated] is the outcome of
    [authenticate_with_tokens], [sync_result] that of [sync_emails].  The
    definition follows a run all of whose writes the database accepts; a
    run with a rejected write is not described by it. *)
Definition sync_user_emails (db : DB) (now : Z) (user_id : Z)
    (authenticated : bool) (sync_result : Gmail.SyncResult) : DB :=
  let db := (Crud.update_email_connection_status db now user_id
               "syncing" None).1 in
  if negb authenticated then
    (Crud.update_email_connection_status db now user_id
       "error" (Some "Authentication failed")).1
  else
    match sync_result with
    | Gmail.NotAuthenticated =>              (* [KeyError] on ['status'] *)
        (Crud.update_email_connection_status db now user_id
           "error" (Some "'status'")).1
    | Gmail.SyncError error =>
        (Crud.update_email_connection_status db now user_id
           "error" (Some error)).1
    | Gmail.SyncSuccess _ newsletters =>
        let '(db, _) := process_newsletters user_id now db newsletters in
        (Crud.update_email_connection_status db now user_id
           "connected" None).1
    end.

End Sync.

(* ================================================================== *)
(** * [app/api/endpoints/email.py]: the request handlers *)
(* ================================================================== *)

Module Api.
Import Py.

(** [HTTPException(status_code=..., detail=...)] *)
Record HTTPException := { status_code : nat; detail : string }.

(** What a handler answers: an exception or a value. *)
Definition response (A : Type) : Type := HTTPException + A.

(** [GET /connection] *)
Definition get_email_connection (db : DB) (current_user : Z)
    : response EmailConnection.t :=
  match Crud.get_email_connection db current_user with
  | None => inl {| status_code := 404; detail := "No email connection found" |}
  | Some (_, connection) => inr connection
  end.

(** [POST /sync], up to the scheduling of the background task: the
    connection handed to the task, or the refusal. *)
Definition sync_emails (db : DB) (current_user : Z)
    : response EmailConnection.t :=
  match Crud.get_email_connection db current_user with
  | None => inl {| status_code := 400; detail := "Gmail account not connected" |}
  | Some (_, connection) =>
      if negb (EmailConnection.is_connected connection)
      then inl {| status_code := 400; detail := "Gmail account not connected" |}
      else inr connection
  end.

(** A whole [POST /sync] request: the answer, and the database once the
    background task, if one was scheduled, has run.  [authenticated] and
    [sync_result] are what the mailbox gives to the task. *)
Definition sync_request (db : DB) (now : Z) (current_user : Z)
    (authenticated : bool) (sync_result : Gmail.SyncResult)
    : response EmailConnection.t * DB :=
  match sync_emails db current_user with
  | inl e => (inl e, db)
  | inr connection =>
      (inr connection,
       Sync.sync_user_emails db now current_user authenticated sync_result)
  end.

(** The tokens [exchange_code_for_tokens] returns. *)
Record TokenData := {
  email : string;
  access_token : string;
  refresh_token : option string;
  expires_at : option Z
}.

(** [GET /oauth/callback]: [exchange] is the outcome of
    [exchange_code_for_tokens], an error message when it raises. *)
Definition handle_oauth_callback (db : DB) (now : Z) (current_user : Z)
    (exchange : string + TokenData) : response EmailConnection.t * DB :=
  match exchange with
  | inr token_data =>
      let connection_data :=
        {| Crud.cd_email_address := email token_data;
           Crud.cd_access_token := Some (access_token token_data);
           Crud.cd_refresh_token := refresh_token token_data;
           Crud.cd_expires_at := expires_at token_data |} in
      let '(db, connection) :=
        Crud.create_email_connection db now current_user connection_data in
      (inr connection, db)
  | inl e =>
      let db := (Crud.update_email_connection_status db now current_user
                   "error" (Some e)).1 in
      (inl {| status_code := 400;
              detail := "Failed to connect Gmail account: " +:+ e |}, db)
  end.

(** [DELETE /disconnect] *)
Definition disconnect_email (db : DB) (current_user : Z)
    : response string * DB :=
  let '(db, success) := Crud.disconnect_email db current_user in
  if negb success
  then (inl {| status_code := 404; detail := "No email connection found" |}, db)
  else (inr "Email account disconnected successfully", db).

(** [GET /newsletters] *)
Definition get_my_newsletters (db : DB) (current_user : Z) (skip limit : nat)
    : list UserNewsletter.t :=
  Crud.get_user_newsletters db current_user true skip limit.

(** [POST /newsletters/{newsletter_id}/subscribe]: the id of the
    subscription, or the refusal. *)
Definition subscribe_to_newsletter (db : DB) (now : Z) (current_user : Z)
    (newsletter_id : Z) : response Z * DB :=
  match Crud.get_newsletter_by_id db newsletter_id with
  | None => (inl {| status_code := 404; detail := "Newsletter not found" |}, db)
  | Some _ =>
      let '(db, subscription) :=
        Crud.create_user_newsletter_subscription db now current_user
          newsletter_id Crud.default_base_relevance_score in
      (inr (UserNewsletter.id subscription), db)
  end.

(** [POST /newsletters/{newsletter_id}/unsubscribe] *)
Definition unsubscribe_from_newsletter (db : DB) (current_user : Z)
    (newsletter_id : Z) : response string * DB :=
  let '(db, success) :=
    Crud.unsubscribe_from_newsletter db current_user newsletter_id in
  if negb success
  then (inl {| status_code := 404;
               detail := "Newsletter subscription not found" |}, db)
  else (inr "Unsubscribed from newsletter successfully", db).

(** [GET /newsletters/{newsletter_id}/emails] *)
Definition get_newsletter_emails (db : DB) (current_user : Z)
    (newsletter_id : Z) (skip limit : nat) : list NewsletterEmail.t :=
  Crud.get_newsletter_emails db current_user (Some newsletter_id) limit skip.

(** [GET /emails] *)
Definition get_all_newsletter_emails (db : DB) (current_user : Z)
    (skip limit : nat) : list NewsletterEmail.t :=
  Crud.get_newsletter_emails db current_user None limit skip.

(** [POST /emails/{email_id}/interaction] *)
Definition track_email_interaction (db : DB) (current_user : Z) (email_id : Z)
    (interaction_data : Crud.InteractionData) : response string * DB :=
  let '(db, email_record) :=
    Crud.update_newsletter_email_interaction db email_id current_user
      interaction_data in
  match email_record with
  | None =>
      (inl {| status_code := 404; detail := "Newsletter email not found" |}, db)
  | Some _ => (inr "Interaction tracked successfully", db)
  end.

End Api.

(* ================================================================== *)
(** * Reference codecs, used to run the model on concrete messages *)
(* ================================================================== *)

Module Ref.

(** The value of a character of the URL-safe base64 alphabet. *)
Definition sextet (a : ascii) : option N :=
  let n := N_of_ascii a in
  if ((65 <=? n) && (n <=? 90))%N then Some (n - 65)%N
  else if ((97 <=? n) && (n <=? 122))%N then Some (n - 71)%N
  else if ((48 <=? n) && (n <=? 57))%N then Some (n + 4)%N
  else if ((n =? 45) || (n =? 43))%N then Some 62%N
  else if ((n =? 95) || (n =? 47))%N then Some 63%N
  else None.

Fixpoint sextets (s : string) : list N :=
  match s with
  | EmptyString => []
  | String a s' =>
      match sextet a with
      | Some v => v :: sextets s'
      | None => sextets s'
      end
  end.

Fixpoint bytes_of_sextets (l : list N) : string :=
  match l with
  | a :: b :: c :: d :: rest =>
      String (ascii_of_N (a * 4 + b / 16))
        (String (ascii_of_N ((b mod 16) * 16 + c / 4))
           (String (ascii_of_N ((c mod 4) * 64 + d))
              (bytes_of_sextets rest)))
  | [a; b; c] =>
      String (ascii_of_N (a * 4 + b / 16))
        (String (ascii_of_N ((b mod 16) * 16 + c / 4)) EmptyString)
  | [a; b] => String (ascii_of_N (a * 4 + b / 16)) EmptyString
  | _ => EmptyString
  end%N.

(** URL-safe base64 decoding of padded ASCII data. *)
Definition urlsafe_b64decode (data : string) : string :=
  bytes_of_sextets (sextets data).

Fixpoint lstrip (s : string) : string :=
  match s with
  | String a s' => if Re.is_space a then lstrip s' else s
  | EmptyString => EmptyString
  end.

Definition strip (s : string) : string :=
  String.rev (lstrip (String.rev (lstrip s))).

(** The text nodes of a markup string, tags removed: [cur] is the text
    node being read, reversed; [in_tag] tells whether a tag is open. *)
Fixpoint text_nodes (in_tag : bool) (cur : string) (s : string)
    : list string :=
  match s with
  | EmptyString => [String.rev cur]
  | String a s' =>
      if in_tag then
        if Ascii.eqb a ">" then text_nodes false EmptyString s'
        else text_nodes true cur s'
      else if Ascii.eqb a "<"
      then String.rev cur :: text_nodes true EmptyString s'
      else text_nodes false (String a cur) s'
  end.

(** Tag stripping in the manner of [get_text(separator=' ', strip=True)]:
    every text node is stripped, empty ones are dropped, the others are
    joined by one space. *)
Definition get_text (html : string) : option string :=
  Some (Crud.join " "
          (filter (λ t, t ≠ "") (strip <$> text_nodes false EmptyString html))).

(** The text before the first occurrence of the character [a], and the
    text after it, if it occurs. *)
Fixpoint split_at (a : ascii) (s : string) : option (string * string) :=
  match s with
  | EmptyString => None
  | String b s' =>
      if Ascii.eqb a b then Some (EmptyString, s')
      else match split_at a s' with
           | Some (before, after) => Some (String b before, after)
           | None => None
           end
  end.

(** Address parsing in the manner of [email.utils.parseaddr] for the two
    plain shapes [name <address>] and [address]. *)
Definition parseaddr (from_header : string) : string * string :=
  match split_at "<" from_header with
  | Some (name, rest) =>
      match split_at ">" rest with
      | Some (address, _) => (strip name, strip address)
      | None => ("", strip from_header)
      end
  | None => ("", strip from_header)
  end.

(** A date parser that accepts nothing, so that [parse_email_date] falls
    back on the current time. *)
Definition parsedate_to_datetime (date_str : string) : option Z := None.

End Ref.

(* ================================================================== *)
(** * Reference definitions the properties are stated with *)
(* ================================================================== *)

Module Spec.
Import Py.

(** The leaf parts of a body, depth first, to any depth: a part without a
    [parts] list is a leaf. *)
Fixpoint leaves (p : Part) : list Part :=
  match parts p with
  | None => [p]
  | Some ps =>
      (fix leaves_list (l : list Part) : list Part :=
         match l with
         | [] => []
         | q :: l' => leaves q ++ leaves_list l'
         end) ps
  end.


(** The parts the two loops of the code hand to [extract_from_part], in
    order: the payload itself when it has no [parts]; otherwise every
    top-level part without [parts] and every direct sub-part of a top-level
    part with [parts]. *)
Definition visited (payload : Part) : list Part :=
  match parts payload with
  | Some ps =>
      ps ≫= (λ part, match parts part with
                      | Some subparts => subparts
                      | None => [part]
                      end)
  | None => [payload]
  end.

(** The decoded contents that the parts [ps] offer for the MIME type
    [mime], in order. *)
Definition offered (decode : string -> string) (mime : string)
    (ps : list Part) : list string :=
  omap (λ p, if String.eqb (mimeType p) mime then decode <$> body_data p
             else None) ps.

(** The first non-empty content of a list. *)
Definition first_nonempty (contents : list string) : option string :=
  head (filter (λ c, c ≠ "") contents).

Section Extract.
Variable decode : string -> string.
Variable get_text : string -> option string.

(** First-wins selection over a list of parts, followed by the synthesis
    of the text from the HTML. *)
Definition extract_over (ps : list Part) : option string * option string :=
  let '(text_content, html_content) :=
    foldl (fun st part => Gmail.extract_from_part decode part st)
          (None, None) ps in
  let text_content :=
    match html_content with
    | Some html =>
        if negb (truthy text_content) && str_truthy html
        then Some (Gmail.html_to_text get_text html)
        else text_content
    | None => text_content
    end in
  (text_content, html_content).

(** Extraction as the specification words it: every leaf of the tree, at
    any depth, is visited depth first. *)
Definition extract_message_body (payload : Part)
    : option string * option string :=
  extract_over (leaves payload).
End Extract.

(** The ids the mailbox window offers: the batches of the pages, up to the
    first page that carries no token. *)
Fixpoint available (srv : Gmail.Pages) : list Gmail.MessageRef :=
  match srv with
  | Gmail.LastPage batch => default [] batch
  | Gmail.NextPage batch token rest =>
      default [] batch ++ (if str_truthy token then available rest else [])
  | Gmail.Fails => []
  end.

(** No call of the listing raises. *)
Fixpoint never_fails (srv : Gmail.Pages) : bool :=
  match srv with
  | Gmail.LastPage _ => true
  | Gmail.NextPage _ _ rest => never_fails rest
  | Gmail.Fails => false
  end.

(** The number of elements of [l] that satisfy [p]. *)
Definition count {A} (p : A -> bool) (l : list A) : Z :=
  Z.of_nat (length (List.filter p l)).

(** The indicator score as the specification words it: the four content
    patterns it names, and a point for every header that is present. *)
Definition stated_content_patterns : list Re.regex :=
  [ Re.Lit "unsubscribe";
    Gmail.seq [Re.Lit "opt"; Re.Opt Re.Dot; Re.Lit "out"];
    Gmail.seq [Re.Lit "remove"; Re.Opt Re.Dot; Re.Lit "me"];
    Gmail.seq [Re.Lit "manage"; Re.Opt Re.Dot; Re.Lit "preferences"] ].

Definition stated_indicator_score (headers : gmap string string)
    (text_content html_content : option string) : Z :=
  let content := or_empty text_content +:+ or_empty html_content in
  (if existsb (λ r, Re.search true r content) stated_content_patterns
   then 2 else 0)
  + (if bool_decide (is_Some (headers !! "List-Unsubscribe")) then 3 else 0)
  + count (λ h, bool_decide (is_Some (headers !! h))) Gmail.list_headers
  + count (λ r, Re.search false r (lower (default "" (headers !! "From"))))
          Gmail.newsletter_sender_patterns
  + count (λ r, Re.search false r (lower (default "" (headers !! "Subject"))))
          Gmail.newsletter_subject_patterns.

(** The indicator score with all five content patterns of the code and a
    point only for a header that carries a non-empty value. *)
Definition indicator_score (headers : gmap string string)
    (text_content html_content : option string) : Z :=
  let content := or_empty text_content +:+ or_empty html_content in
  (if existsb (λ r, Re.search true r content) Gmail.unsubscribe_patterns
   then 2 else 0)
  + (if truthy (headers !! "List-Unsubscribe") then 3 else 0)
  + count (λ h, truthy (headers !! h)) Gmail.list_headers
  + count (λ r, Re.search false r (lower (default "" (headers !! "From"))))
          Gmail.newsletter_sender_patterns
  + count (λ r, Re.search false r (lower (default "" (headers !! "Subject"))))
          Gmail.newsletter_subject_patterns.

(** ** The score of a category *)

(** The number of keywords of a list that occur in the content, each
    keyword counted once however often it occurs. *)
Definition keywords_present (content : string) (keywords : list string) : Z :=
  count (λ keyword, contains keyword content) keywords.

(** The number of places of the content at which a keyword occurs. *)
Fixpoint occurrences (keyword content : string) : Z :=
  (if String.prefix keyword content then 1 else 0)
  + match content with
    | EmptyString => 0
    | String _ rest => occurrences keyword rest
    end.

(** The score as the specification words it, a count of keyword
    occurrences: every occurrence of every keyword of the list. *)
Definition stated_keyword_score (content : string) (keywords : list string)
    : Z :=
  foldr (λ keyword total, occurrences keyword content + total) 0 keywords.

(** The first category, in the order of the list, among those of the
    highest score; [best] when no score exceeds [best_score]. *)
Fixpoint first_highest (score : list string -> Z)
    (cats : list (string * list string)) (best : string) (best_score : Z)
    : string :=
  match cats with
  | [] => best
  | (category, keywords) :: rest =>
      if best_score <? score keywords
      then first_highest score rest category (score keywords)
      else first_highest score rest best best_score
  end.

(** The category of the highest positive score, "General" without one. *)
Definition highest_category (score : list string -> Z) : string :=
  first_highest score Gmail.categories "General" 0.

(** The category as the specification words it. *)
Definition stated_category (subject text : string) : string :=
  highest_category
    (stated_keyword_score (lower ((subject +:+ " ") +:+ text))).

End Spec.

(* ================================================================== *)
(** * Notions the properties are stated and proved with *)
(* ================================================================== *)

Module Inv.

(** The positive scores, in the order of the category list. *)
Definition scored (content : string) (cats : list (string * list string))
    : list (string * Z) :=
  omap (λ p : string * list string,
          if 0 <? Gmail.keyword_score content p.2
          then Some (p.1, Gmail.keyword_score content p.2) else None) cats.

(** What every request of a listing with budget [max_results] satisfies. *)
Definition request_ok (max_results : nat) (rq : Gmail.ListRequest) : Prop :=
  (1 ≤ Gmail.maxResults rq
   ∧ Gmail.maxResults rq ≤ 500
   ∧ Gmail.maxResults rq ≤ max_results)%nat.

(** The requests of one listing: the first carries the token the loop was
    entered with, every later one a non-empty token. *)
Definition tokens_ok (page_token : option string)
    (new : list Gmail.ListRequest) : Prop :=
  match new with
  | [] => True
  | rq :: rest =>
      Gmail.pageToken rq = page_token
      ∧ Forall (λ rq, Py.truthy (Gmail.pageToken rq) = true) rest
  end.

(** What one slot holds after being offered [contents]: an earlier
    non-empty content stays, an empty or absent one is replaced. *)
Definition fill (slot : option string) (contents : list string)
    : option string :=
  foldl (λ slot c, if Py.truthy slot then slot else Some c) slot contents.

(** The user has no subscription and no email on record. *)
Definition no_data (user_id : Z) (db : DB) : Prop :=
  Forall (λ s, UserNewsletter.user_id s ≠ user_id) (user_newsletters db)
  ∧ Forall (λ e, NewsletterEmail.user_id e ≠ user_id) (newsletter_emails db).

(** The key of the newsletter on record for a sender address. *)
Definition newsletter_id_of (db : DB) (sender : string) : option Z :=
  (λ p : nat * Newsletter.t, Newsletter.id p.2)
    <$> list_find (λ n, Newsletter.sender_email n = sender) (newsletters db).

Definition has_subscription (db : DB) (user_id newsletter_id : Z) : Prop :=
  is_Some (list_find (λ s, UserNewsletter.user_id s = user_id
                           ∧ UserNewsletter.newsletter_id s = newsletter_id)
                     (user_newsletters db)).

Definition has_email (db : DB) (user_id : Z) (email_id : string) : Prop :=
  is_Some (list_find (λ e, NewsletterEmail.user_id e = user_id
                           ∧ NewsletterEmail.email_id e = email_id)
                     (newsletter_emails db)).

(** A detected newsletter is settled for a user when its sender has a
    newsletter on record, the user is subscribed to it, and the message has
    its email row. *)
Definition settled (user_id : Z) (db : DB)
    (item : EmailData.t * Metadata.t) : Prop :=
  ∃ newsletter_id,
    newsletter_id_of db (Metadata.sender_email item.2) = Some newsletter_id
    ∧ has_subscription db user_id newsletter_id
    ∧ has_email db user_id (EmailData.id item.1).

(** A part that can contribute to the extraction: it carries body data
    and its MIME type is text/plain or text/html. *)
Definition carries_text (p : Part) : bool :=
  match body_data p with
  | Some _ =>
      String.eqb (mimeType p) "text/plain" || String.eqb (mimeType p) "text/html"
  | None => false
  end.

(** The provider's answers [pages], each with a token, followed by the
    answers [rest]. *)
Definition chain (pages : list (option (list Gmail.MessageRef) * string))
    (rest : Gmail.Pages) : Gmail.Pages :=
  foldr (λ page rest, Gmail.NextPage page.1 page.2 rest) rest pages.

(** A background run gets as far as the loop over the detected
    newsletters: the mailbox accepted the tokens and [sync_emails] answered
    with the success status. *)
Definition enters_loop (authenticated : bool)
    (sync_result : Gmail.SyncResult) : bool :=
  authenticated
  && match sync_result with Gmail.SyncSuccess _ _ => true | _ => false end.

(** The columns by which the code looks a row up before it writes. *)
Definition subscription_key (s : UserNewsletter.t) : Z * Z :=
  (UserNewsletter.user_id s, UserNewsletter.newsletter_id s).

Definition email_key (e : NewsletterEmail.t) : Z * string :=
  (NewsletterEmail.user_id e, NewsletterEmail.email_id e).

(** No two newsletters of one sender address, no two subscriptions of one
    user to one newsletter, no two rows for one message of one user, no
    two connections of one user. *)
Definition keys_unique (db : DB) : Prop :=
  NoDup (Newsletter.sender_email <$> newsletters db)
  ∧ NoDup (subscription_key <$> user_newsletters db)
  ∧ NoDup (email_key <$> newsletter_emails db)
  ∧ NoDup (EmailConnection.user_id <$> email_connections db).

End Inv.

(* ================================================================== *)
(** * Sample messages *)
(* ================================================================== *)

Module Examples.

Definition leaf (mime_type data : string) : Part :=
  mkPart mime_type (Some data) None.

Definition multipart (mime_type : string) (ps : list Part) : Part :=
  mkPart mime_type None (Some ps).


(** multipart/mixed > multipart/alternative > (text/plain "hello",
    text/html "<p>Hi</p>"), followed by text/plain "Hello world!". *)
Definition alternative_payload : Part :=
  multipart "multipart/mixed"
    [ multipart "multipart/alternative"
        [ leaf "text/plain" "aGVsbG8="; leaf "text/html" "PHA-SGk8L3A-" ];
      leaf "text/plain" "SGVsbG8gd29ybGQh" ].

(** Two text/plain parts, the first of them empty. *)
Definition empty_first_payload : Part :=
  multipart "multipart/mixed"
    [ leaf "text/plain" ""; leaf "text/plain" "aGVsbG8=" ].

(** A single text/html part holding the markup of an image, no text. *)
Definition image_only_payload : Part := leaf "text/html" "PGltZyBzcmM9eD4=".

(** A single text/html part "<p>Hi</p>". *)
Definition html_only_payload : Part := leaf "text/html" "PHA-SGk8L3A-".

(** A body with an attachment only. *)
Definition attachment_payload : Part :=
  multipart "multipart/mixed" [ mkPart "application/pdf" None None ].

Definition ref (n : nat) : Gmail.MessageRef :=
  {| Gmail.ref_id := pretty n; Gmail.ref_threadId := pretty n |}.

(** A window of 60 messages served in pages of 25, 25 and 10. *)
Definition sixty_messages : Gmail.Pages :=
  Gmail.NextPage (Some (ref <$> seq 0 25)) "p2"
    (Gmail.NextPage (Some (ref <$> seq 25 25)) "p3"
       (Gmail.LastPage (Some (ref <$> seq 50 10)))).

(** A parsed message: three categories tie with one keyword each. *)
Definition tie_email : EmailData.t :=
  EmailData.mk "18c2f" "18c2f" ["INBOX"] "" 0 "news@example.com" None
    "Money and startup" (Some "software") None 8 "" 0 true.

(** A raw message with a [List-Unsubscribe] header and an attachment as
    its only body part. *)
Definition attachment_message : Message.t :=
  Message.mk "18c30" "18c30" (Some ["INBOX"]) (Some "") (Some 2048)
    [ ("From", "Weekly Digest <digest@example.com>");
      ("Subject", "Your weekly digest");
      ("List-Unsubscribe", "<mailto:leave@example.com>") ]
    attachment_payload.

(** A newsletter already on record, with title and category set. *)
Definition tech_weekly : Newsletter.t :=
  Newsletter.mk 1 "digest@example.com" (Some "Tech Weekly") (Some "Tech Weekly")
    (Some "example.com") (Some "Technology") (Some "weekly") (Some 1200)
    1700000000 (Some 1700000000) 4 true.

(** A connection of user 7, in state [connected]. *)
Definition connection_of_7 : EmailConnection.t :=
  EmailConnection.mk 1 7 "reader@example.com" (Some "token") (Some "refresh")
    None true "connected" (Some 1700000000) None (Some 1690000000).

Definition stored : DB :=
  {| newsletters := [tech_weekly];
     user_newsletters := [];
     newsletter_emails := [];
     email_connections := [connection_of_7] |}.

(** The metadata of a new message of the same sender, with another title
    and another category. *)
Definition other_metadata : Metadata.t :=
  Metadata.mk "digest@example.com" (Some "Digest Team") (Some "Your")
    "example.com" (Some "News") "weekly" 900.

(** Two detected newsletters, as [sync_emails] reports them. *)
Definition detected : list (EmailData.t * Metadata.t) :=
  [ (EmailData.mk "18c31" "18c31" ["INBOX"] "" 1700000500 "digest@example.com"
       (Some "Digest Team") "Your weekly update" (Some "tech news") None 9
       "<1@example.com>" 2048 true,
     other_metadata);
    (EmailData.mk "18c32" "18c32" ["INBOX"] "" 1700000600 "deals@shop.example"
       None "Daily deals newsletter" (Some "sales") None 5
       "<2@shop.example>" 1024 true,
     Metadata.mk "deals@shop.example" None (Some "Daily deals")
       "shop.example" (Some "Business") "daily" 5) ].

(** User 7 subscribed to the newsletter on record, with two of its
    messages stored; user 8 has one message of the same newsletter. *)
Definition subscription_of_7 : UserNewsletter.t :=
  UserNewsletter.mk 1 7 1 1700000000 None 0 (50 # 1)%Q (50 # 1)%Q true true.

Definition stored_email (id user_id : Z) (email_id : string) (received_at : Z)
    : NewsletterEmail.t :=
  NewsletterEmail.mk id user_id 1 email_id None None "Your weekly update"
    "digest@example.com" received_at (Some "tech news") None (Some 9) "INBOX"
    None false false None (0 # 1)%Q (50 # 1)%Q.

Definition subscribed : DB :=
  {| newsletters := [tech_weekly];
     user_newsletters := [subscription_of_7];
     newsletter_emails :=
       [ stored_email 1 7 "18c31" 1700000500;
         stored_email 2 8 "18c31" 1700000500;
         stored_email 3 7 "18c33" 1700600000 ];
     email_connections := [connection_of_7] |}.

(** A parsed message that repeats one keyword of Technology and names
    two keywords of Business once each. *)
Definition repeated_email : EmailData.t :=
  EmailData.mk "18c34" "18c34" ["INBOX"] "" 0 "news@example.com" None
    "Tech tech tech" (Some "business startup") None 16 "" 0 true.

End Examples.

(* ================================================================== *)
(** * The matcher decides the semantics of patterns *)
(* ================================================================== *)

Module ReFacts.
Import Re.

Lemma append_cons (a : ascii) (s t : string) :
  String a s +:+ t = String a (s +:+ t).
Proof. reflexivity. Qed.

Lemma append_nil_l (t : string) : "" +:+ t = t.
Proof. reflexivity. Qed.

Lemma append_nil_r (s : string) : s +:+ "" = s.
Proof.
  induction s as [|a s IH]; [reflexivity|]. rewrite append_cons, IH. reflexivity.
Qed.

Lemma append_assoc (s t u : string) : (s +:+ t) +:+ u = s +:+ (t +:+ u).
Proof.
  induction s as [|a s IH]; [reflexivity|]. rewrite !append_cons, IH. reflexivity.
Qed.

Lemma append_eq_nil (s t : string) : s +:+ t = "" → s = "" ∧ t = "".
Proof. destruct s; [auto|discriminate]. Qed.

Lemma append_eq_cons (s t : string) (a : ascii) (w : string) :
  s +:+ t = String a w →
  (s = "" ∧ t = String a w) ∨ (∃ s', s = String a s' ∧ w = s' +:+ t).
Proof.
  destruct s as [|b s]; intros H; [left; auto|].
  rewrite append_cons in H. injection H as -> <-. right. eauto.
Qed.

Section Semantics.
Variable ic : bool.

Lemma nullable_matches (r : regex) : nullable r = true ↔ Matches ic r "".
Proof.
  split.
  - induction r as [| | | | | |r IHr s IHs|r IHr s IHs|r IHr]; simpl; intros H;
      try discriminate.
    + apply MEps.
    + apply andb_true_iff in H as [H1 H2].
      change "" with ("" +:+ ""). apply MCat; auto.
    + apply orb_true_iff in H as [H|H]; [apply MAltL|apply MAltR]; auto.
    + apply MStarNil.
  - intros H. remember "" as w eqn:Hw.
    induction H; simpl; try discriminate; try reflexivity.
    + apply append_eq_nil in Hw as [-> ->]. rewrite IHMatches1, IHMatches2; auto.
    + rewrite IHMatches; auto.
    + rewrite IHMatches; auto. apply orb_true_r.
Qed.

Lemma cat_matches (r s : regex) (w : string) :
  Matches ic (cat r s) w ↔ Matches ic (Cat r s) w.
Proof.
  split.
  - intros H. destruct r; simpl in H;
      try (destruct s; first [exact H | inversion H]; fail);
      try (inversion H; fail).
    change w with ("" +:+ w). constructor; [constructor|].
    destruct s; first [exact H | inversion H].
  - intros H. inversion H as [| | | | |r' s' u v Hr Hs| | | |]; subst.
    destruct r; try (inversion Hr; fail);
      try (destruct s; first [constructor; assumption | inversion Hs]; fail).
    inversion Hr; subst. simpl.
    destruct s; first [exact Hs | inversion Hs].
Qed.

Lemma alt_matches (r s : regex) (w : string) :
  Matches ic (alt r s) w ↔ Matches ic (Alt r s) w.
Proof.
  split.
  - intros H. destruct r; simpl in H;
      try (destruct s; first [exact H | apply MAltL; exact H]; fail).
    apply MAltR. exact H.
  - intros H. inversion H; subst.
    + destruct r; try (inversion H3; fail);
        destruct s; simpl; first [assumption | apply MAltL; assumption].
    + destruct s; try (inversion H3; fail);
        destruct r; simpl; first [assumption | apply MAltR; assumption].
Qed.

Lemma of_bool_matches (b : bool) (w : string) :
  Matches ic (of_bool b) w ↔ b = true ∧ w = "".
Proof.
  destruct b; simpl; split.
  - intros H. inversion H. auto.
  - intros [_ ->]. apply MEps.
  - intros H. inversion H.
  - intros [H _]. discriminate.
Qed.

(** The derivative by [a] denotes the words [w] with [a w] in the
    pattern. *)
Lemma deriv_matches (r : regex) (a : ascii) (w : string) :
  Matches ic (deriv ic a r) w ↔ Matches ic r (String a w).
Proof.
  split.
  - revert w.
    induction r as [| | | | | |r IHr s IHs|r IHr s IHs|r IHr]; simpl; intros w H;
      try (inversion H; fail);
      try (apply of_bool_matches in H as [H ->]).
    + apply MChr, H.
    + apply MDot. apply negb_true_iff, H.
    + apply MDigit, H.
    + apply MSpace, H.
    + assert (Hcat : ∀ w, Matches ic (cat (deriv ic a r) s) w →
                          Matches ic (Cat r s) (String a w)).
      { intros w' H'. apply cat_matches in H'.
        inversion H' as [| | | | |r' s' u v Hu Hv| | | |]; subst.
        rewrite <- append_cons. apply MCat; auto. }
      destruct (nullable r) eqn:Hn; [|apply Hcat, H].
      apply alt_matches in H. inversion H; subst; [apply Hcat; assumption|].
      rewrite <- (append_nil_l (String a w)).
      apply MCat; [apply nullable_matches, Hn|auto].
    + apply alt_matches in H. inversion H; subst;
        [apply MAltL|apply MAltR]; auto.
    + apply cat_matches in H.
      inversion H as [| | | | |r' s' u v Hu Hv| | | |]; subst.
      rewrite <- append_cons. apply MStarApp; auto.
  - intros H. remember (String a w) as x eqn:Hx. revert a w Hx.
    induction H as [|c b Hc|b Hb|b Hb|b Hb|r s u v Hu IHu Hv IHv
                    |r s u Hu IHu|r s u Hu IHu| |r u v Hu IHu Hv IHv];
      intros a w Hx; simpl; try discriminate;
      try (injection Hx as -> <-; apply of_bool_matches; split;
           [first [assumption | apply negb_true_iff; assumption]|reflexivity]).
    + apply append_eq_cons in Hx as [[-> ->]|(u' & -> & ->)].
      * assert (Hn : nullable r = true) by (apply nullable_matches, Hu).
        rewrite Hn. apply alt_matches, MAltR. apply IHv. reflexivity.
      * assert (Hcat : Matches ic (cat (deriv ic a r) s) (u' +:+ v)).
        { apply cat_matches, MCat; [apply IHu; reflexivity|exact Hv]. }
        destruct (nullable r); [apply alt_matches, MAltL|]; exact Hcat.
    + apply alt_matches, MAltL. apply IHu, Hx.
    + apply alt_matches, MAltR. apply IHu, Hx.
    + apply append_eq_cons in Hx as [[-> ->]|(u' & -> & ->)].
      * apply (IHv a w eq_refl).
      * apply cat_matches, MCat; [apply IHu; reflexivity|exact Hv].
Qed.

(** [match_prefix] decides whether a prefix of the text is in the
    pattern. *)
Lemma match_prefix_matches (r : regex) (s : string) :
  match_prefix ic r s = true ↔ ∃ u v, s = u +:+ v ∧ Matches ic r u.
Proof.
  revert r. induction s as [|a s IH]; intros r; simpl.
  - rewrite orb_false_r, nullable_matches. split.
    + intros H. exists "", "". auto.
    + intros (u & v & Huv & H). symmetry in Huv.
      apply append_eq_nil in Huv as [-> _]. exact H.
  - rewrite orb_true_iff, nullable_matches, IH. split.
    + intros [H|(u & v & -> & H)].
      * exists "", (String a s). auto.
      * exists (String a u), v. split; [reflexivity|]. apply deriv_matches, H.
    + intros (u & v & Huv & H). symmetry in Huv.
      apply append_eq_cons in Huv as [[-> _]|(u' & -> & ->)]; [left; exact H|].
      right. exists u', v. split; [reflexivity|]. apply deriv_matches, H.
Qed.

(** [search] decides whether some stretch of the text is in the pattern:
    the truth value of [re.search]. *)
Theorem search_matches (r : regex) (s : string) :
  search ic r s = true ↔ ∃ p u v, s = p +:+ u +:+ v ∧ Matches ic r u.
Proof.
  induction s as [|a s IH].
  - change (search ic r "") with (match_prefix ic r "" || false).
    rewrite orb_false_r, match_prefix_matches. split.
    + intros (u & v & -> & H). exists "", u, v. auto.
    + intros (p & u & v & Hs & H). symmetry in Hs.
      apply append_eq_nil in Hs as [-> Hs].
      apply append_eq_nil in Hs as [-> _]. exists "", "". auto.
  - change (search ic r (String a s))
      with (match_prefix ic r (String a s) || search ic r s).
    rewrite orb_true_iff, match_prefix_matches, IH. split.
    + intros [(u & v & -> & H)|(p & u & v & -> & H)].
      * exists "", u, v. auto.
      * exists (String a p), u, v. auto.
    + intros (p & u & v & Hs & H). destruct p as [|b p].
      * left. exists u, v. auto.
      * right. rewrite append_cons in Hs. injection Hs as -> ->.
        exists p, u, v. auto.
Qed.

End Semantics.
End ReFacts.

(* ================================================================== *)
(** * Properties of the newsletter classifier *)
(* ================================================================== *)

Module ClassifierFacts.
Import Py Gmail.

Lemma count_cons {A} (p : A -> bool) (x : A) (l : list A) :
  Spec.count p (x :: l) = (if p x then 1 else 0) + Spec.count p l.
Proof.
  unfold Spec.count. simpl. destruct (p x); simpl length; lia.
Qed.

Lemma count_nonneg {A} (p : A -> bool) (l : list A) : 0 ≤ Spec.count p l.
Proof. unfold Spec.count. lia. Qed.

(** A counting loop adds the number of hits to its accumulator. *)
Lemma foldl_count {A} (p : A -> bool) (l : list A) (a : Z) :
  foldl (fun acc x => if p x then acc + 1 else acc) a l = a + Spec.count p l.
Proof.
  revert a. induction l as [|x l IH]; intros a.
  - unfold Spec.count. simpl. lia.
  - simpl foldl. rewrite IH, count_cons. destruct (p x); lia.
Qed.

(** The loop with [break] adds two points once, if any pattern hits. *)
Lemma unsubscribe_loop_existsb (ps : list Re.regex) (content : string) (a : Z) :
  unsubscribe_loop ps content a
  = a + (if existsb (λ r, Re.search true r content) ps then 2 else 0).
Proof.
  induction ps as [|r ps IH]; simpl.
  - lia.
  - destruct (Re.search true r content); simpl; [lia | exact IH].
Qed.

Lemma or_empty_falsy (o : option string) : truthy o = false → or_empty o = "".
Proof. destruct o as [[|a s]|]; simpl; congruence. Qed.

Lemma no_pattern_hits_empty :
  existsb (λ r, Re.search true r "") unsubscribe_patterns = false.
Proof. reflexivity. Qed.

(** The accumulated [indicators] of the code is the sum of the five
    contributions. *)
Lemma indicators_sum (headers : gmap string string)
    (text_content html_content : option string) :
  is_likely_newsletter headers text_content html_content
  = (3 <=? Spec.indicator_score headers text_content html_content).
Proof.
  unfold is_likely_newsletter, Spec.indicator_score.
  rewrite (foldl_count (λ h, truthy (headers !! h))).
  rewrite (foldl_count
             (λ r, Re.search false r (lower (default "" (headers !! "From"))))).
  rewrite (foldl_count
             (λ r, Re.search false r (lower (default "" (headers !! "Subject"))))).
  f_equal. f_equal. f_equal. f_equal.
  assert (Hhdr : str_truthy (default "" (headers !! "List-Unsubscribe"))
                 = truthy (headers !! "List-Unsubscribe")).
  { destruct (headers !! "List-Unsubscribe"); reflexivity. }
  rewrite Hhdr.
  destruct (truthy text_content || truthy html_content) eqn:Hguard.
  - rewrite unsubscribe_loop_existsb.
    destruct (truthy (headers !! "List-Unsubscribe")); lia.
  - apply orb_false_iff in Hguard as [Ht Hh].
    rewrite (or_empty_falsy _ Ht), (or_empty_falsy _ Hh).
    change ("" +:+ "") with "". rewrite no_pattern_hits_empty.
    destruct (truthy (headers !! "List-Unsubscribe")); lia.
Qed.

(** [C3], as amended.  The classifier answers [true] exactly when the
    indicator score is at least 3, where the score is: 2 points, once, if
    any of the five content patterns (unsubscribe, opt-out, remove-me,
    manage-preferences, email-preferences) occurs in the text followed by
    the HTML, case-insensitively; 3 points for a [List-Unsubscribe] header
    with a non-empty value; 1 point for each of [List-ID], [List-Post],
    [List-Help], [Mailing-List] with a non-empty value; 1 point per sender
    pattern found in the lower-cased [From] header; 1 point per subject
    pattern found in the lower-cased [Subject] header.  A score of exactly
    3 classifies as a newsletter, a score of exactly 2 does not. *)
Theorem is_likely_newsletter_threshold (headers : gmap string string)
    (text_content html_content : option string) :
  (is_likely_newsletter headers text_content html_content = true
   ↔ 3 ≤ Spec.indicator_score headers text_content html_content)
  ∧ (Spec.indicator_score headers text_content html_content = 3
     → is_likely_newsletter headers text_content html_content = true)
  ∧ (Spec.indicator_score headers text_content html_content = 2
     → is_likely_newsletter headers text_content html_content = false).
Proof.
  rewrite indicators_sum. repeat split.
  - apply Z.leb_le.
  - apply Z.leb_le.
  - intros ->. reflexivity.
  - intros ->. reflexivity.
Qed.

(** An unsubscribe link and a [List-ID] header make three points; the
    unsubscribe link alone makes two. *)
Lemma is_likely_newsletter_threshold_witness :
  is_likely_newsletter (header_dict [("List-ID", "<news.example.com>")])
    (Some "Click here to unsubscribe") None = true
  ∧ is_likely_newsletter (header_dict [("Date", "Mon, 1 Jan 2024")])
      (Some "Click here to unsubscribe") None = false.
Proof.
  split.
  - apply (is_likely_newsletter_threshold
             (header_dict [("List-ID", "<news.example.com>")])
             (Some "Click here to unsubscribe") None).
    vm_compute. reflexivity.
  - apply (is_likely_newsletter_threshold
             (header_dict [("Date", "Mon, 1 Jan 2024")])
             (Some "Click here to unsubscribe") None).
    vm_compute. reflexivity.
Defined.

(** [C3], as stated, fails on the code.  With the four content patterns
    the statement names, a message whose only signals are a [List-ID]
    header and the words "email preferences" has a stated score of 1, yet
    the code classifies it as a newsletter; and with a point for every
    header that is merely present, a message whose [List-Unsubscribe]
    header is empty has a stated score of 3, yet the code does not
    classify it as a newsletter. *)
Lemma stated_indicator_score_counterexample :
  (is_likely_newsletter (header_dict [("List-ID", "<news.example.com>")])
     (Some "Update your email preferences") None = true
   ∧ Spec.stated_indicator_score
       (header_dict [("List-ID", "<news.example.com>")])
       (Some "Update your email preferences") None = 1)
  ∧ (is_likely_newsletter (header_dict [("List-Unsubscribe", "")])
       None None = false
     ∧ Spec.stated_indicator_score (header_dict [("List-Unsubscribe", "")])
         None None = 3).
Proof. vm_compute. repeat split; reflexivity. Qed.

End ClassifierFacts.

(* ================================================================== *)
(** * Properties of the categorizer *)
(* ================================================================== *)

Module CategorizerFacts.
Import Py Gmail Inv.

Lemma keyword_score_nonneg (content : string) (keywords : list string) :
  0 ≤ keyword_score content keywords.
Proof.
  unfold keyword_score.
  rewrite (ClassifierFacts.foldl_count (λ k, contains k content)).
  pose proof (ClassifierFacts.count_nonneg (λ k, contains k content) keywords).
  lia.
Qed.

Lemma dict_set_fresh (k : string) (v : Z) (d : list (string * Z)) :
  k ∉ d.*1 → dict_set k v d = d ++ [(k, v)].
Proof.
  induction d as [|[k' v'] d IH]; intros Hk; simpl.
  - reflexivity.
  - apply not_elem_of_cons in Hk as [Hne Hk]. simpl in Hne.
    destruct (String.eqb k' k) eqn:E.
    + apply String.eqb_eq in E. congruence.
    + rewrite IH by exact Hk. reflexivity.
Qed.

Lemma scored_keys (content : string) (cats : list (string * list string))
    (c : string) :
  c ∈ (scored content cats).*1 → c ∈ cats.*1.
Proof.
  induction cats as [|[c' kws] cats IH]; simpl; intros H.
  - exact H.
  - unfold scored in H. simpl in H.
    destruct (0 <? keyword_score content kws); simpl in H.
    + apply elem_of_cons in H as [->|H]; [left | right; apply IH, H].
    + right. apply IH, H.
Qed.

(** The loop that fills [scores] leaves the positive scores in list
    order, when no category is declared twice. *)
Lemma score_loop_scored (content : string) (cats : list (string * list string)) :
  ∀ acc : list (string * Z),
    NoDup cats.*1 →
    (∀ c, c ∈ acc.*1 → c ∉ cats.*1) →
    foldl (score_step content) acc cats = acc ++ scored content cats.
Proof.
  induction cats as [|[c kws] cats IH]; intros acc Hnd Hdisj; simpl.
  - rewrite app_nil_r. reflexivity.
  - simpl in Hnd. apply NoDup_cons in Hnd as [Hc Hnd].
    unfold scored. simpl omap.
    destruct (0 <? keyword_score content kws) eqn:E; simpl.
    + rewrite dict_set_fresh.
      2:{ intros Hin. apply (Hdisj c Hin). left. }
      rewrite IH; [ rewrite <- app_assoc; reflexivity | exact Hnd | ].
      intros c' Hin Hin'. rewrite fmap_app in Hin.
      apply elem_of_app in Hin as [Hin|Hin].
      * apply (Hdisj c' Hin). right. exact Hin'.
      * simpl in Hin. apply list_elem_of_singleton in Hin. subst c'.
        exact (Hc Hin').
    + apply IH; [exact Hnd|].
      intros c' Hin Hin'. apply (Hdisj c' Hin). right. exact Hin'.
Qed.

Lemma score_categories_scored (content : string)
    (cats : list (string * list string)) :
  NoDup cats.*1 → score_categories content cats = scored content cats.
Proof.
  intros Hnd. unfold score_categories.
  rewrite (score_loop_scored content cats [] Hnd); [reflexivity|].
  intros c Hin. inversion Hin.
Qed.

(** [scores.get] gives a recorded category its score. *)
Lemma dict_get_scored (content : string) (cats : list (string * list string))
    (c : string) (kws : list string) :
  NoDup cats.*1 → (c, kws) ∈ cats → 0 < keyword_score content kws →
  dict_get c (scored content cats) = Some (keyword_score content kws).
Proof.
  induction cats as [|[c' kws'] cats IH]; intros Hnd Hin Hpos.
  - inversion Hin.
  - simpl in Hnd. apply NoDup_cons in Hnd as [Hc Hnd].
    unfold scored. simpl omap.
    apply elem_of_cons in Hin as [Heq|Hin].
    + inversion Heq; subst c' kws'.
      apply Z.ltb_lt in Hpos. rewrite Hpos. simpl.
      rewrite String.eqb_refl. reflexivity.
    + assert (Hne : c' ≠ c).
      { intros ->. apply Hc. apply list_elem_of_fmap. exists (c, kws). auto. }
      destruct (0 <? keyword_score content kws'); simpl.
      * apply String.eqb_neq in Hne. rewrite Hne. apply IH; assumption.
      * apply IH; assumption.
Qed.

(** [max] keeps the first of the maximal items. *)
Lemma max_loop_split (key : string → Z) (items : list string) :
  ∀ (best : string) (pre mid : list string),
    Forall (λ x, key x < key best) pre →
    Forall (λ x, key x ≤ key best) mid →
    ∃ before after,
      pre ++ best :: mid ++ items
      = before ++ max_loop key best (key best) items :: after
      ∧ Forall (λ x, key x < key (max_loop key best (key best) items)) before
      ∧ Forall (λ x, key x ≤ key (max_loop key best (key best) items)) after.
Proof.
  induction items as [|item rest IH]; intros best pre mid Hpre Hmid; simpl.
  - exists pre, mid. rewrite app_nil_r. auto.
  - destruct (key best <? key item) eqn:E.
    + apply Z.ltb_lt in E.
      destruct (IH item (pre ++ best :: mid) []) as (before & after & Heq & Hb & Ha).
      * apply Forall_app. split; [|apply Forall_cons; split].
        -- eapply Forall_impl; [exact Hpre|]. simpl. intros; lia.
        -- exact E.
        -- eapply Forall_impl; [exact Hmid|]. simpl. intros; lia.
      * constructor.
      * exists before, after. split; [|auto].
        rewrite <- Heq. rewrite <- !app_assoc. simpl. reflexivity.
    + apply Z.ltb_ge in E.
      destruct (IH best pre (mid ++ [item])) as (before & after & Heq & Hb & Ha).
      * exact Hpre.
      * apply Forall_app. split; [exact Hmid|]. constructor; [exact E|constructor].
      * exists before, after. split; [|auto].
        rewrite <- Heq. rewrite <- !app_assoc. simpl. reflexivity.
Qed.

Lemma py_max_split (key : string → Z) (items : list string) (r : string) :
  py_max items key = Some r →
  ∃ before after,
    items = before ++ r :: after
    ∧ Forall (λ x, key x < key r) before
    ∧ Forall (λ x, key x ≤ key r) after.
Proof.
  destruct items as [|item rest]; simpl; intros H; [discriminate|].
  injection H as <-.
  destruct (max_loop_split key rest item [] []) as (before & after & Heq & Hb & Ha);
    [constructor | constructor |].
  exists before, after. simpl in Heq. auto.
Qed.

(** A split of the filtered list comes from a split of the list. *)
Lemma omap_split {A B} (f : A → option B) (l : list A) :
  ∀ (b : list B) (y : B) (a : list B),
    omap f l = b ++ y :: a →
    ∃ l1 x l2, l = l1 ++ x :: l2 ∧ omap f l1 = b ∧ f x = Some y ∧ omap f l2 = a.
Proof.
  induction l as [|x l IH]; intros b y a H; simpl in H.
  - destruct b; discriminate.
  - destruct (f x) as [z|] eqn:E.
    + destruct b as [|z' b]; simpl in H.
      * injection H as -> <-. exists [], x, l. simpl. rewrite E. auto.
      * injection H as -> H. destruct (IH _ _ _ H) as (l1 & x' & l2 & -> & <- & Hx & <-).
        exists (x :: l1), x', l2. simpl. rewrite E. auto.
    + destruct (IH _ _ _ H) as (l1 & x' & l2 & -> & <- & Hx & <-).
      exists (x :: l1), x', l2. simpl. rewrite E. auto.
Qed.

Lemma scored_nil (content : string) (cats : list (string * list string)) :
  scored content cats = [] →
  Forall (λ p, keyword_score content p.2 = 0) cats.
Proof.
  induction cats as [|[c kws] cats IH]; intros H; [constructor|].
  unfold scored in H. simpl in H.
  destruct (0 <? keyword_score content kws) eqn:E; [discriminate|].
  constructor; [|apply IH, H]. simpl.
  apply Z.ltb_ge in E. pose proof (keyword_score_nonneg content kws). lia.
Qed.

(** The key that [max] compares, on a category of the list. *)
Lemma score_key (content : string) (cats : list (string * list string))
    (c : string) (kws : list string) :
  NoDup cats.*1 → (c, kws) ∈ cats →
  keyword_score content kws
  ≤ default 0 (dict_get c (scored content cats))
  ∧ (0 < keyword_score content kws →
     default 0 (dict_get c (scored content cats)) = keyword_score content kws).
Proof.
  intros Hnd Hin.
  destruct (Z.ltb_spec 0 (keyword_score content kws)) as [Hpos|Hle].
  - rewrite (dict_get_scored content cats c kws Hnd Hin Hpos). simpl. lia.
  - split; [|lia].
    assert (0 ≤ default 0 (dict_get c (scored content cats))).
    { destruct (dict_get c (scored content cats)) as [v|] eqn:E; simpl; [|lia].
      clear - E. induction cats as [|[c' kws'] cats IH]; [discriminate|].
      unfold scored in E. simpl in E.
      destruct (Z.ltb_spec 0 (keyword_score content kws')); simpl in E.
      - destruct (String.eqb c' c).
        + injection E as <-. lia.
        + apply IH, E.
      - apply IH, E. }
    lia.
Qed.

(** The choice made over any list of distinct categories: nothing scores,
    or the chosen category is the first of those with the highest score. *)
Lemma first_maximum (content : string) (cats : list (string * list string)) :
  NoDup cats.*1 →
  match py_max (score_categories content cats).*1
          (λ c, default 0 (dict_get c (score_categories content cats))) with
  | None => Forall (λ p, keyword_score content p.2 = 0) cats
  | Some category =>
      ∃ before keywords after,
        cats = before ++ (category, keywords) :: after
        ∧ 0 < keyword_score content keywords
        ∧ Forall (λ p, keyword_score content p.2
                       < keyword_score content keywords) before
        ∧ Forall (λ p, keyword_score content p.2
                       ≤ keyword_score content keywords) after
  end.
Proof.
  intros Hnd. rewrite (score_categories_scored content cats Hnd).
  set (key := λ c, default 0 (dict_get c (scored content cats))).
  destruct (py_max (scored content cats).*1 key) as [r|] eqn:Hmax.
  - apply py_max_split in Hmax as (before & after & Heq & Hb & Ha).
    apply fmap_app_inv in Heq as (sb & sa' & -> & Hsa & Hsc).
    symmetry in Hsa. apply fmap_cons_inv in Hsa as ([r' v] & sa & Hr & -> & ->).
    simpl in Hr. subst r'.
    apply omap_split in Hsc as (l1 & [c kws] & l2 & Hcats & Hl1 & Hx & Hl2).
    simpl in Hx.
    destruct (Z.ltb_spec 0 (keyword_score content kws)) as [Hpos|]; [|discriminate].
    injection Hx as Hc Hv. subst c v.
    assert (Hin : (r, kws) ∈ cats).
    { rewrite Hcats. apply elem_of_app. right. left. }
    assert (Hkey : key r = keyword_score content kws).
    { apply (score_key content cats r kws Hnd Hin). exact Hpos. }
    exists l1, kws, l2. split; [exact Hcats|]. split; [exact Hpos|].
    rewrite Hkey in Hb, Ha. split.
    + apply Forall_forall. intros [c' kws'] Hin'. simpl.
      destruct (Z.ltb_spec 0 (keyword_score content kws')) as [Hpos'|]; [|lia].
      assert (Hc' : c' ∈ sb.*1).
      { rewrite <- Hl1. apply list_elem_of_fmap.
        exists (c', keyword_score content kws'). split; [reflexivity|].
        apply list_elem_of_omap. exists (c', kws'). split; [exact Hin'|].
        simpl. apply Z.ltb_lt in Hpos'. rewrite Hpos'. reflexivity. }
      rewrite Forall_forall in Hb. specialize (Hb c' Hc').
      assert (Hin2 : (c', kws') ∈ cats).
      { rewrite Hcats. apply elem_of_app. left. exact Hin'. }
      destruct (score_key content cats c' kws' Hnd Hin2) as [_ Hk'].
      unfold key in Hb. rewrite (Hk' Hpos') in Hb. exact Hb.
    + apply Forall_forall. intros [c' kws'] Hin'. simpl.
      destruct (Z.ltb_spec 0 (keyword_score content kws')) as [Hpos'|]; [|lia].
      assert (Hc' : c' ∈ sa.*1).
      { rewrite <- Hl2. apply list_elem_of_fmap.
        exists (c', keyword_score content kws'). split; [reflexivity|].
        apply list_elem_of_omap. exists (c', kws'). split; [exact Hin'|].
        simpl. apply Z.ltb_lt in Hpos'. rewrite Hpos'. reflexivity. }
      rewrite Forall_forall in Ha. specialize (Ha c' Hc').
      assert (Hin2 : (c', kws') ∈ cats).
      { rewrite Hcats. apply elem_of_app. right. right. exact Hin'. }
      destruct (score_key content cats c' kws' Hnd Hin2) as [_ Hk'].
      unfold key in Ha. rewrite (Hk' Hpos') in Ha. exact Ha.
  - apply scored_nil.
    destruct (scored content cats) as [|[c v] l]; [reflexivity|discriminate].
Qed.

Lemma categories_distinct : NoDup categories.*1.
Proof. apply (bool_decide_unpack _). vm_compute. exact I. Qed.

(** The score the code computes for a category is the number of its
    keywords that occur in the content. *)
Lemma keyword_score_present (content : string) (keywords : list string) :
  keyword_score content keywords = Spec.keywords_present content keywords.
Proof.
  unfold keyword_score, Spec.keywords_present.
  rewrite (ClassifierFacts.foldl_count (λ k, contains k content)). lia.
Qed.

Lemma keywords_present_zero (content : string) (keywords : list string) :
  Spec.keywords_present content keywords = 0
  ↔ Forall (λ keyword, contains keyword content = false) keywords.
Proof.
  unfold Spec.keywords_present.
  induction keywords as [|k ks IH].
  - split; [constructor|reflexivity].
  - rewrite ClassifierFacts.count_cons.
    pose proof (ClassifierFacts.count_nonneg (λ k, contains k content) ks).
    destruct (contains k content) eqn:Hk.
    + split; [lia|]. intros H'. apply Forall_cons in H' as [H' _].
      cbv beta in H'. congruence.
    + rewrite Z.add_0_l, IH. split.
      * intros Hks. constructor; assumption.
      * intros H'. apply Forall_cons in H' as [_ H']. exact H'.
Qed.

Lemma first_highest_keeps (score : list string → Z)
    (cats : list (string * list string)) (best : string) (best_score : Z) :
  Forall (λ p, score p.2 ≤ best_score) cats →
  Spec.first_highest score cats best best_score = best.
Proof.
  induction 1 as [|[category keywords] cats Hle _ IH]; [reflexivity|].
  cbn [Spec.first_highest]. cbn [snd] in Hle.
  destruct (Z.ltb_spec best_score (score keywords)); [lia|exact IH].
Qed.

Lemma first_highest_split (score : list string → Z)
    (before after : list (string * list string)) (category : string)
    (keywords : list string) :
  Forall (λ p, score p.2 < score keywords) before →
  Forall (λ p, score p.2 ≤ score keywords) after →
  ∀ best best_score,
    best_score < score keywords →
    Spec.first_highest score (before ++ (category, keywords) :: after)
      best best_score = category.
Proof.
  intros Hbefore Hafter.
  induction Hbefore as [|[c ks] before Hlt _ IH]; intros best best_score Hbest.
  - cbn [app Spec.first_highest].
    destruct (Z.ltb_spec best_score (score keywords)); [|lia].
    apply first_highest_keeps, Hafter.
  - cbn [app Spec.first_highest]. cbn [snd] in Hlt.
    destruct (Z.ltb_spec best_score (score ks)); apply IH; assumption.
Qed.

(** [C4].  For a message whose text content is present, the score of a
    category is the number of its keywords that occur in the lower-cased
    subject, a space and the text, each keyword counted once however often
    it occurs.  The category returned is the first, in the order of the
    declared list (Technology, Business, Finance, News, Health, Science,
    Education, Lifestyle), among those of the highest score: every
    category before it scores strictly less and no category after it
    scores more.  When no keyword of any category occurs the result is
    "General". *)
Theorem categorize_newsletter_first_maximum (email_data : EmailData.t)
    (text : string) :
  EmailData.content_text email_data = Some text →
  ∃ category,
    categorize_newsletter email_data = inr category
    ∧ let content := lower ((EmailData.subject email_data +:+ " ") +:+ text) in
      category = Spec.highest_category (Spec.keywords_present content)
      ∧ ((Forall (λ p, Forall (λ keyword, contains keyword content = false)
                         p.2) categories
          ∧ category = "General")
         ∨ (∃ before keywords after,
              categories = before ++ (category, keywords) :: after
              ∧ 0 < Spec.keywords_present content keywords
              ∧ Forall (λ p, Spec.keywords_present content p.2
                             < Spec.keywords_present content keywords) before
              ∧ Forall (λ p, Spec.keywords_present content p.2
                             ≤ Spec.keywords_present content keywords) after)).
Proof.
  intros Htext. unfold categorize_newsletter. rewrite Htext. simpl str_add.
  unfold bind, ret.
  assert (Hor : ∀ x, str_or_empty x = x) by (intros [|a x]; reflexivity).
  rewrite Hor.
  set (content := lower ((EmailData.subject email_data +:+ " ") +:+ text)).
  pose proof (first_maximum content categories categories_distinct) as H.
  destruct (py_max _ _) as [category|].
  - exists category. split; [reflexivity|].
    destruct H as (before & keywords & after & Heq & Hpos & Hb & Ha).
    rewrite keyword_score_present in Hpos.
    assert (Hb' : Forall (λ p, Spec.keywords_present content p.2
                               < Spec.keywords_present content keywords)
                    before).
    { eapply Forall_impl; [exact Hb|]. intros p Hp. cbv beta in Hp.
      rewrite !keyword_score_present in Hp. exact Hp. }
    assert (Ha' : Forall (λ p, Spec.keywords_present content p.2
                               ≤ Spec.keywords_present content keywords)
                    after).
    { eapply Forall_impl; [exact Ha|]. intros p Hp. cbv beta in Hp.
      rewrite !keyword_score_present in Hp. exact Hp. }
    split.
    + unfold Spec.highest_category. rewrite Heq. symmetry.
      apply first_highest_split; assumption.
    + right. exists before, keywords, after. auto.
  - exists "General". split; [reflexivity|].
    assert (Hzero : Forall (λ p, Spec.keywords_present content p.2 = 0)
                      categories).
    { eapply Forall_impl; [exact H|]. intros p Hp. cbv beta in Hp.
      rewrite keyword_score_present in Hp. exact Hp. }
    split.
    + unfold Spec.highest_category. symmetry. apply first_highest_keeps.
      eapply Forall_impl; [exact Hzero|]. intros p Hp. cbv beta in Hp. lia.
    + left. split; [|reflexivity].
      eapply Forall_impl; [exact Hzero|]. intros p Hp.
      apply keywords_present_zero, Hp.
Qed.

(** Technology (software), Business (startup) and Finance (money) tie with
    one keyword each: the earliest, Technology, is returned. *)
Lemma categorize_newsletter_first_maximum_witness :
  EmailData.content_text Examples.tie_email = Some "software"
  ∧ categorize_newsletter Examples.tie_email = inr "Technology".
Proof.
  split; [reflexivity|].
  destruct (categorize_newsletter_first_maximum Examples.tie_email
              "software" eq_refl) as (category & Hcat & Hhigh & _).
  rewrite Hcat, Hhigh. vm_compute. reflexivity.
Defined.

(** A subject that says "tech" three times and a text that names
    "business" and "startup" once each: counted by occurrences Technology
    leads three to two, but the code counts each keyword once and returns
    Business, two keywords against one. *)
Lemma keyword_occurrences_counterexample :
  Spec.stated_category (EmailData.subject Examples.repeated_email)
    "business startup" = "Technology"
  ∧ EmailData.content_text Examples.repeated_email = Some "business startup"
  ∧ categorize_newsletter Examples.repeated_email = inr "Business".
Proof. vm_compute. repeat split. Qed.

End CategorizerFacts.

(* ================================================================== *)
(** * Properties of the message listing *)
(* ================================================================== *)

Module ListingFacts.
Import Py Gmail Inv.

#[local] Arguments Nat.min : simpl never.

Lemma list_loop_log (max_results : nat) (srv : Pages) :
  ∀ messages page_token log,
    ∃ new,
      (list_loop max_results srv messages page_token log).2 = log ++ new
      ∧ tokens_ok page_token new
      ∧ Forall (request_ok max_results) new.
Proof.
  induction srv as [batch|batch token rest IH|]; intros messages page_token log;
    simpl; destruct (Nat.ltb_spec (length messages) max_results) as [Hlt|Hge];
    try (exists []; rewrite app_nil_r; simpl; auto; fail).
  - eexists [_]. split; [reflexivity|]. split; [simpl; auto|].
    constructor; [|constructor]. unfold request_ok. simpl. lia.
  - destruct (str_truthy token) eqn:Htok.
    + destruct (IH (messages ++ default [] batch) (Some token)
                   (log ++ [{| pageToken := page_token;
                               maxResults := Nat.min 500 (max_results - length messages) |}]))
        as (new & Hlog & Htoks & Hreqs).
      eexists (_ :: new). rewrite Hlog, <- app_assoc. split; [reflexivity|].
      split.
      * simpl. split; [reflexivity|].
        destruct new as [|rq new']; [constructor|].
        destruct Htoks as [Hrq Hrest]. constructor; [|exact Hrest].
        rewrite Hrq. exact Htok.
      * constructor; [|exact Hreqs]. unfold request_ok. simpl. lia.
    + eexists [_]. split; [reflexivity|]. split; [simpl; auto|].
      constructor; [|constructor]. unfold request_ok. simpl. lia.
  - eexists [_]. split; [reflexivity|]. split; [simpl; auto|].
    constructor; [|constructor]. unfold request_ok. simpl. lia.
Qed.

Lemma list_loop_available (max_results : nat) (srv : Pages) :
  ∀ messages page_token log,
    Spec.never_fails srv = true →
    ∃ messages',
      (list_loop max_results srv messages page_token log).1 = inr messages'
      ∧ take max_results messages'
        = take max_results (messages ++ Spec.available srv).
Proof.
  induction srv as [batch|batch token rest IH|]; intros messages page_token log Hnf;
    simpl in *; try discriminate;
    destruct (Nat.ltb_spec (length messages) max_results) as [Hlt|Hge];
    try (exists messages; split; [reflexivity|];
         rewrite take_app_le by lia; reflexivity; fail).
  - eexists. split; reflexivity.
  - destruct (str_truthy token).
    + destruct (IH (messages ++ default [] batch) (Some token)
                   (log ++ [{| pageToken := page_token;
                               maxResults := Nat.min 500 (max_results - length messages) |}])
                   Hnf) as (messages' & Hres & Htake).
      exists messages'. split; [exact Hres|].
      rewrite Htake, <- app_assoc. reflexivity.
    + eexists. split; [reflexivity|]. rewrite app_nil_r. reflexivity.
Qed.

(** [C5].  Whatever the pages the provider answers with, the listing
    returns at most [max_results] ids; every request it sends asks for at
    least one and at most 500 ids, and for no more than the budget; the
    first request carries no page token and every later one a non-empty
    token; and when no call fails the result is exactly the first
    [max_results] ids the window offers, so paging goes on until the budget
    is met or a page comes without a token. *)
Theorem list_messages_capped (service : bool) (srv : Pages) (max_results : nat) :
  (length (list_messages service srv max_results).1 ≤ max_results)%nat
  ∧ Forall (request_ok max_results) (list_messages service srv max_results).2
  ∧ tokens_ok None (list_messages service srv max_results).2
  ∧ (service = true → Spec.never_fails srv = true →
     (list_messages service srv max_results).1
     = take max_results (Spec.available srv)).
Proof.
  unfold list_messages. destruct service; simpl.
  2:{ repeat split; try constructor; try lia; try discriminate. }
  destruct (list_loop_log max_results srv [] None []) as (new & Hlog & Htoks & Hreqs).
  simpl in Hlog.
  destruct (list_loop max_results srv [] None []) as [[e|messages] log] eqn:Hloop;
    simpl in Hlog; subst log; simpl.
  - repeat split; auto; try lia.
    intros _ Hnf.
    destruct (list_loop_available max_results srv [] None [] Hnf) as (m & Hm & _).
    rewrite Hloop in Hm. discriminate.
  - repeat split; auto.
    + rewrite length_take. lia.
    + intros _ Hnf.
      destruct (list_loop_available max_results srv [] None [] Hnf) as (m & Hm & Ht).
      rewrite Hloop in Hm. simpl in Hm. injection Hm as <-. exact Ht.
Qed.

(** A window of 60 messages in pages of 25 and a budget of 37: two
    requests, for 37 and for 12 ids, and the first 37 ids returned. *)
Lemma list_messages_capped_witness :
  Spec.never_fails Examples.sixty_messages = true
  ∧ length (list_messages true Examples.sixty_messages 37).1 = 37%nat
  ∧ (list_messages true Examples.sixty_messages 37).1
    = take 37 (Spec.available Examples.sixty_messages)
  ∧ (list_messages true Examples.sixty_messages 37).2
    = [ {| pageToken := None; maxResults := 37 |};
        {| pageToken := Some "p2"; maxResults := 12 |} ].
Proof.
  assert (H : Spec.never_fails Examples.sixty_messages = true) by reflexivity.
  destruct (list_messages_capped true Examples.sixty_messages 37)
    as (_ & _ & _ & Heq).
  split; [exact H|].
  split; [vm_compute; reflexivity|].
  split; [exact (Heq eq_refl H)|vm_compute; reflexivity].
Defined.

End ListingFacts.

(* ================================================================== *)
(** * Properties of the content extractor *)
(* ================================================================== *)

Module ExtractionFacts.
Import Py Gmail Inv.






Section Extract.
Variable decode : string -> string.
Variable get_text : string -> option string.

#[local] Abbreviation step := (fun st part => extract_from_part decode part st).

(** The two nested loops are one loop over the visited parts. *)
Lemma walk_parts_visited (payload : Part) (st : option string * option string) :
  walk_parts decode payload st = foldl step st (Spec.visited payload).
Proof.
  unfold walk_parts, Spec.visited.
  destruct (parts payload) as [ps|]; [|reflexivity].
  revert st. induction ps as [|q ps IH]; intros st; simpl; [reflexivity|].
  rewrite foldl_app, IH. f_equal.
  destruct (parts q); reflexivity.
Qed.

Lemma extract_message_body_visited (payload : Part) :
  extract_message_body decode get_text payload
  = Spec.extract_over decode get_text (Spec.visited payload).
Proof.
  unfold extract_message_body, Spec.extract_over.
  rewrite walk_parts_visited. reflexivity.
Qed.

Lemma plain_is_not_html (m : string) :
  String.eqb m "text/plain" = true → String.eqb m "text/html" = false.
Proof.
  intros H. apply String.eqb_eq in H. subst m. reflexivity.
Qed.

Lemma fill_app (slot : option string) (cs1 cs2 : list string) :
  fill slot (cs1 ++ cs2) = fill (fill slot cs1) cs2.
Proof. unfold fill. apply foldl_app. Qed.

Lemma offered_cons (mime : string) (p : Part) (ps : list Part) :
  Spec.offered decode mime (p :: ps)
  = Spec.offered decode mime [p] ++ Spec.offered decode mime ps.
Proof. unfold Spec.offered. rewrite <- omap_app. reflexivity. Qed.

(** One call of [extract_from_part] offers the part to both slots. *)
Lemma extract_from_part_fill (p : Part) (t h : option string) :
  extract_from_part decode p (t, h)
  = (fill t (Spec.offered decode "text/plain" [p]),
     fill h (Spec.offered decode "text/html" [p])).
Proof.
  unfold extract_from_part, Spec.offered, fill. simpl omap.
  destruct (body_data p); simpl;
    destruct (String.eqb (mimeType p) "text/plain") eqn:Ep;
    [rewrite (plain_is_not_html _ Ep)| |rewrite (plain_is_not_html _ Ep)|];
    destruct (String.eqb (mimeType p) "text/html");
    destruct t as [[|? ?]|], h as [[|? ?]|]; reflexivity.
Qed.

(** The loop fills the two slots independently. *)
Lemma foldl_step_fill (ps : list Part) :
  ∀ text_content html_content,
    foldl step (text_content, html_content) ps
    = (fill text_content (Spec.offered decode "text/plain" ps),
       fill html_content (Spec.offered decode "text/html" ps)).
Proof.
  induction ps as [|p ps IH]; intros t h; [reflexivity|].
  change (foldl step (t, h) (p :: ps))
    with (foldl step (extract_from_part decode p (t, h)) ps).
  rewrite extract_from_part_fill, IH.
  rewrite (offered_cons "text/plain" p ps), (offered_cons "text/html" p ps).
  rewrite !fill_app.
  reflexivity.
Qed.

Lemma fill_truthy (s : string) (contents : list string) :
  str_truthy s = true → fill (Some s) contents = Some s.
Proof.
  intros H. induction contents as [|c cs IH]; [reflexivity|].
  unfold fill. simpl. rewrite H. exact IH.
Qed.

Lemma str_truthy_nonempty (s : string) : str_truthy s = true ↔ s ≠ "".
Proof. destruct s; simpl; split; intros H; congruence. Qed.

(** A slot that holds nothing non-empty takes the first non-empty content
    offered; if none is offered it ends up empty or absent. *)
Lemma fill_first_nonempty (slot : option string) (contents : list string) :
  truthy slot = false →
  match Spec.first_nonempty contents with
  | Some c => fill slot contents = Some c ∧ c ≠ ""
  | None => truthy (fill slot contents) = false
  end.
Proof.
  revert slot. induction contents as [|c cs IH]; intros slot Hslot.
  - simpl. exact Hslot.
  - unfold Spec.first_nonempty, fill. simpl foldl. rewrite Hslot.
    rewrite filter_cons. destruct (decide (c ≠ "")) as [Hc|Hc]; simpl.
    + split; [|exact Hc]. apply fill_truthy. apply str_truthy_nonempty, Hc.
    + apply (IH (Some c)). simpl.
      destruct (str_truthy c) eqn:E; [|reflexivity].
      apply str_truthy_nonempty in E. contradiction.
Qed.


(** [C6], as amended.  Among the parts the extractor visits, the first
    text/plain part whose decoded content is non-empty supplies the text
    and the first text/html part whose decoded content is non-empty
    supplies the HTML; later parts of the same type are ignored, while an
    earlier part with empty content is passed over.  When no visited
    text/plain part has non-empty content but a text/html part has, the
    text is the HTML with its markup stripped ([html_to_text]), whatever
    is left of it.  When neither exists, both results are empty or
    absent. *)
Theorem extract_message_body_first_nonempty (payload : Part) :
  let texts := Spec.offered decode "text/plain" (Spec.visited payload) in
  let htmls := Spec.offered decode "text/html" (Spec.visited payload) in
  let result := extract_message_body decode get_text payload in
  (∀ c, Spec.first_nonempty texts = Some c → result.1 = Some c)
  ∧ (∀ h, Spec.first_nonempty htmls = Some h → result.2 = Some h)
  ∧ (∀ h, Spec.first_nonempty texts = None →
          Spec.first_nonempty htmls = Some h →
          result.1 = Some (html_to_text get_text h))
  ∧ (Spec.first_nonempty texts = None →
     Spec.first_nonempty htmls = None →
     truthy result.1 = false ∧ truthy result.2 = false).
Proof.
  intros texts htmls result. subst result.
  rewrite extract_message_body_visited. unfold Spec.extract_over.
  rewrite foldl_step_fill. fold texts. fold htmls.
  pose proof (fill_first_nonempty None texts eq_refl) as Ht.
  pose proof (fill_first_nonempty None htmls eq_refl) as Hh.
  destruct (Spec.first_nonempty texts) as [c|];
    destruct (Spec.first_nonempty htmls) as [h|].
  - destruct Ht as [-> Hc], Hh as [-> Hne].
    apply str_truthy_nonempty in Hc. simpl. rewrite Hc. simpl.
    repeat split; intros; congruence.
  - destruct Ht as [-> Hc]. apply str_truthy_nonempty in Hc.
    destruct (fill None htmls) as [html|]; simpl; [rewrite Hc; simpl|];
      repeat split; intros; congruence.
  - destruct Hh as [-> Hne]. apply str_truthy_nonempty in Hne.
    rewrite Ht, Hne. simpl.
    repeat split; intros; congruence.
  - destruct (fill None htmls) as [html|]; simpl in *.
    + rewrite Ht, Hh. simpl. repeat split; intros; congruence.
    + repeat split; intros; congruence.
Qed.

End Extract.



(** The first non-empty text/plain part supplies the text, a later one is
    ignored; the HTML of an HTML-only body is stripped to make the text. *)
Lemma extract_message_body_first_nonempty_witness :
  Spec.first_nonempty
    (Spec.offered Ref.urlsafe_b64decode "text/plain"
       (Spec.visited Examples.alternative_payload)) = Some "hello"
  ∧ (extract_message_body Ref.urlsafe_b64decode Ref.get_text
       Examples.alternative_payload).1 = Some "hello"
  ∧ (extract_message_body Ref.urlsafe_b64decode Ref.get_text
       Examples.html_only_payload).1 = Some "Hi".
Proof.
  assert (H : Spec.first_nonempty
                (Spec.offered Ref.urlsafe_b64decode "text/plain"
                   (Spec.visited Examples.alternative_payload)) = Some "hello")
    by (vm_compute; reflexivity).
  split; [exact H|]. split.
  - apply (extract_message_body_first_nonempty Ref.urlsafe_b64decode
             Ref.get_text Examples.alternative_payload).
    exact H.
  - change (Some "Hi")
      with (Some (html_to_text Ref.get_text "<p>Hi</p>")).
    apply (extract_message_body_first_nonempty Ref.urlsafe_b64decode
             Ref.get_text Examples.html_only_payload);
      vm_compute; reflexivity.
Defined.

(** [C6], as stated, fails on the code: of two text/plain parts the first,
    being empty, does not supply the text, the second does; and an
    HTML-only body whose markup holds no text yields an empty text. *)
Lemma first_part_counterexample :
  (Spec.offered Ref.urlsafe_b64decode "text/plain"
     (Spec.visited Examples.empty_first_payload) = [""; "hello"]
   ∧ extract_message_body Ref.urlsafe_b64decode Ref.get_text
       Examples.empty_first_payload = (Some "hello", None))
  ∧ extract_message_body Ref.urlsafe_b64decode Ref.get_text
      Examples.image_only_payload = (Some "", Some "<img src=x>").
Proof. vm_compute. repeat split; reflexivity. Qed.

End ExtractionFacts.

(* ================================================================== *)
(** * Properties of the persistence layer *)
(* ================================================================== *)

Module CrudFacts.
Import Py Crud Inv.

(** [C7].  Upserting a newsletter whose sender address is already on
    record rewrites that one row in place and adds none: the email count
    grows by one, the last-received time becomes the current time, a title
    (a category) that is set, that is neither absent nor empty, is kept
    whatever the metadata of the new message, one that is not set is filled
    in from the metadata when they carry one, and every other column and
    every other table is left as it was. *)
Theorem get_or_create_newsletter_existing (db : DB) (now : Z)
    (newsletter_data : Metadata.t) (i : nat) (n : Newsletter.t) :
  list_find (λ n, Newsletter.sender_email n
                  = Metadata.sender_email newsletter_data)
            (newsletters db) = Some (i, n) →
  let result := get_or_create_newsletter db now newsletter_data in
  let n' := result.2 in
  newsletters result.1 = <[i := n']> (newsletters db)
  ∧ length (newsletters result.1) = length (newsletters db)
  ∧ user_newsletters result.1 = user_newsletters db
  ∧ newsletter_emails result.1 = newsletter_emails db
  ∧ email_connections result.1 = email_connections db
  ∧ Newsletter.total_emails_count n' = Newsletter.total_emails_count n + 1
  ∧ Newsletter.last_received_at n' = Some now
  ∧ (truthy (Newsletter.newsletter_title n) = true →
     Newsletter.newsletter_title n' = Newsletter.newsletter_title n)
  ∧ (truthy (Newsletter.category n) = true →
     Newsletter.category n' = Newsletter.category n)
  ∧ (truthy (Newsletter.newsletter_title n) = false →
     Newsletter.newsletter_title n'
     = if truthy (Metadata.newsletter_title newsletter_data)
       then Metadata.newsletter_title newsletter_data
       else Newsletter.newsletter_title n)
  ∧ (truthy (Newsletter.category n) = false →
     Newsletter.category n'
     = if truthy (Metadata.category newsletter_data)
       then Metadata.category newsletter_data
       else Newsletter.category n)
  ∧ Newsletter.id n' = Newsletter.id n
  ∧ Newsletter.sender_email n' = Newsletter.sender_email n
  ∧ Newsletter.sender_name n' = Newsletter.sender_name n
  ∧ Newsletter.domain n' = Newsletter.domain n
  ∧ Newsletter.publication_frequency n' = Newsletter.publication_frequency n
  ∧ Newsletter.average_length n' = Newsletter.average_length n
  ∧ Newsletter.first_detected_at n' = Newsletter.first_detected_at n
  ∧ Newsletter.is_active n' = Newsletter.is_active n.
Proof.
  intros Hfind result n'. subst n' result.
  unfold get_or_create_newsletter. rewrite Hfind.
  destruct n as [id se sn title dom cat pf al fd lr cnt act].
  cbn [Newsletter.with_last_received_at Newsletter.with_total_emails_count
       Newsletter.id Newsletter.sender_email Newsletter.sender_name
       Newsletter.newsletter_title Newsletter.domain Newsletter.category
       Newsletter.publication_frequency Newsletter.average_length
       Newsletter.first_detected_at Newsletter.last_received_at
       Newsletter.total_emails_count Newsletter.is_active].
  destruct (truthy (Metadata.newsletter_title newsletter_data));
    destruct (truthy title) eqn:Et;
    destruct (truthy (Metadata.category newsletter_data));
    destruct (truthy cat) eqn:Ec;
    cbn -[Z.add]; rewrite ?Et, ?Ec; cbn -[Z.add];
    repeat split; try congruence; try apply length_insert.
Qed.

(** The title and the category of a newsletter on record survive a new
    message that suggests others. *)
Lemma get_or_create_newsletter_existing_witness :
  list_find (λ n, Newsletter.sender_email n
                  = Metadata.sender_email Examples.other_metadata)
            (newsletters Examples.stored) = Some (0%nat, Examples.tech_weekly)
  ∧ Newsletter.newsletter_title
      (get_or_create_newsletter Examples.stored 1700000900
         Examples.other_metadata).2 = Some "Tech Weekly"
  ∧ Newsletter.category
      (get_or_create_newsletter Examples.stored 1700000900
         Examples.other_metadata).2 = Some "Technology".
Proof.
  assert (H : list_find (λ n, Newsletter.sender_email n
                              = Metadata.sender_email Examples.other_metadata)
                        (newsletters Examples.stored)
              = Some (0%nat, Examples.tech_weekly)) by reflexivity.
  pose proof (get_or_create_newsletter_existing Examples.stored 1700000900
                Examples.other_metadata 0 Examples.tech_weekly H) as T.
  split; [exact H|]. split.
  - apply T; reflexivity.
  - apply T; reflexivity.
Defined.

(** [C10].  Updating the status of an existing connection stores the new
    status and the error message, sets [is_connected] to whether the new
    status is 'connected', and touches [last_sync_at] only in that case:
    for 'syncing', 'error' or any other status it is left as it was.
    Afterwards [is_connected] holds exactly when the status is
    'connected'.  Everything else is unchanged. *)
Theorem update_email_connection_status_frame (db : DB) (now : Z) (user_id : Z)
    (status : string) (error_message : option string)
    (i : nat) (c : EmailConnection.t) :
  get_email_connection db user_id = Some (i, c) →
  let result :=
    update_email_connection_status db now user_id status error_message in
  ∃ c',
    result.2 = Some c'
    ∧ email_connections result.1 = <[i := c']> (email_connections db)
    ∧ EmailConnection.connection_status c' = status
    ∧ (EmailConnection.is_connected c' = true
       ↔ EmailConnection.connection_status c' = "connected")
    ∧ (status ≠ "connected" →
       EmailConnection.last_sync_at c' = EmailConnection.last_sync_at c)
    ∧ (status = "connected" →
       EmailConnection.last_sync_at c' = Some now)
    ∧ EmailConnection.last_error c' = error_message
    ∧ EmailConnection.id c' = EmailConnection.id c
    ∧ EmailConnection.user_id c' = EmailConnection.user_id c
    ∧ EmailConnection.email_address c' = EmailConnection.email_address c
    ∧ EmailConnection.access_token c' = EmailConnection.access_token c
    ∧ EmailConnection.refresh_token c' = EmailConnection.refresh_token c
    ∧ EmailConnection.token_expires_at c' = EmailConnection.token_expires_at c
    ∧ EmailConnection.connected_at c' = EmailConnection.connected_at c
    ∧ newsletters result.1 = newsletters db
    ∧ user_newsletters result.1 = user_newsletters db
    ∧ newsletter_emails result.1 = newsletter_emails db.
Proof.
  intros Hget result. subst result.
  unfold update_email_connection_status. rewrite Hget.
  destruct c as [cid uid addr atok rtok exp conn st lsync lerr cat].
  destruct (String.eqb_spec status "connected") as [Heq|Hne].
  - eexists. split; [reflexivity|]. cbn.
    repeat split; try congruence; try reflexivity.
  - eexists. split; [reflexivity|]. cbn.
    repeat split; try congruence; try reflexivity.
Qed.

(** Marking the connection of user 7 as syncing leaves its last sync time
    alone. *)
Lemma update_email_connection_status_frame_witness :
  get_email_connection Examples.stored 7 = Some (0%nat, Examples.connection_of_7)
  ∧ ∃ c',
      (update_email_connection_status Examples.stored 1700000900 7
         "syncing" None).2 = Some c'
      ∧ EmailConnection.last_sync_at c' = Some 1700000000
      ∧ EmailConnection.is_connected c' = false.
Proof.
  assert (H : get_email_connection Examples.stored 7
              = Some (0%nat, Examples.connection_of_7)) by reflexivity.
  split; [exact H|].
  destruct (update_email_connection_status_frame Examples.stored 1700000900 7
              "syncing" None 0 Examples.connection_of_7 H)
    as (c' & Hc' & _ & _ & Hconn & Hsync & _).
  exists c'. split; [exact Hc'|]. split.
  - apply Hsync. discriminate.
  - vm_compute in Hc'. injection Hc' as <-. reflexivity.
Defined.

(** Without a connection for the user nothing is written. *)
Lemma update_email_connection_status_absent (db : DB) (now : Z) (user_id : Z)
    (status : string) (error_message : option string) :
  get_email_connection db user_id = None →
  update_email_connection_status db now user_id status error_message
  = (db, None).
Proof.
  intros H. unfold update_email_connection_status. rewrite H. reflexivity.
Qed.

Lemma filter_none {A} (P : A → Prop) `{∀ x, Decision (P x)} (l : list A) :
  Forall (λ x, ¬ P x) l → filter P l = [].
Proof.
  induction 1 as [|x l Hx Hl IH]; [reflexivity|].
  rewrite filter_cons. destruct (decide (P x)); [contradiction|exact IH].
Qed.

Lemma Forall_list_prod_r {A B} (Q : B → Prop) (l1 : list A) (l2 : list B) :
  Forall Q l2 → Forall (λ p, Q p.2) (list_prod l1 l2).
Proof.
  intros H. apply Forall_forall. intros [a b] Hin.
  apply list_elem_of_In, in_prod_iff in Hin as [_ Hb].
  apply list_elem_of_In in Hb. rewrite Forall_forall in H. exact (H b Hb).
Qed.

Lemma compute_stats_no_data (db : Session) (now : Z) (user_id : Z) :
  fails_at db = None → no_data user_id (store db) →
  compute_stats db now user_id = inr empty_stats.
Proof.
  intros Hok [Hsubs Hemails].
  unfold compute_stats, execute. rewrite Hok. simpl bool_decide. cbn iota.
  unfold bind, ret.
  assert (H1 : count_user_newsletters user_id (store db) = 0%nat).
  { unfold count_user_newsletters. rewrite filter_none; [reflexivity|].
    eapply Forall_impl.
    - apply (Forall_list_prod_r _ (newsletters (store db)) _ Hsubs).
    - simpl. intros p Hp [_ Hu]. exact (Hp Hu). }
  assert (H2 : count_active_subscriptions user_id (store db) = 0%nat).
  { unfold count_active_subscriptions. rewrite filter_none; [reflexivity|].
    eapply Forall_impl; [exact Hsubs|]. simpl. intros s Hs [Hu _]. exact (Hs Hu). }
  assert (H3 : count_emails user_id (store db) = 0%nat).
  { unfold count_emails. rewrite filter_none; [reflexivity|exact Hemails]. }
  assert (H4 : ∀ since, count_emails_since user_id since (store db) = 0%nat).
  { intros since. unfold count_emails_since. rewrite filter_none; [reflexivity|].
    eapply Forall_impl; [exact Hemails|]. simpl. intros e He [Hu _]. exact (He Hu). }
  assert (H5 : top_categories_query user_id (store db) = []).
  { unfold top_categories_query. rewrite filter_none; [reflexivity|].
    eapply Forall_impl.
    - apply (Forall_list_prod_r _ (newsletters (store db)) _ Hemails).
    - simpl. intros p Hp [_ Hu]. exact (Hp Hu). }
  rewrite H1, H2, H3, !H4, H5. reflexivity.
Qed.

(** [C8].  Whatever exception the computation of the summary ends in, and
    in particular whichever of its six statements raises, the answer is
    the all-zero summary: no newsletters, subscriptions or emails, an empty
    list of top categories and zero engagement rates.  It is the very
    answer computed, without any failure, for a user who has no
    subscription and no email on record. *)
Theorem get_newsletter_stats_failure (db : Session) (now : Z) (user_id : Z) :
  (∀ e, compute_stats db now user_id = inl e →
        get_newsletter_stats db now user_id = empty_stats)
  ∧ (∀ k, fails_at db = Some k → (k < 6)%nat →
          compute_stats db now user_id = inl OperationalError
          ∧ get_newsletter_stats db now user_id = empty_stats)
  ∧ (fails_at db = None → no_data user_id (store db) →
     compute_stats db now user_id = inr empty_stats
     ∧ get_newsletter_stats db now user_id = empty_stats).
Proof.
  split; [|split].
  - intros e He. unfold get_newsletter_stats. rewrite He. reflexivity.
  - intros k Hk Hlt. unfold get_newsletter_stats, compute_stats, execute.
    rewrite Hk.
    do 6 (destruct k as [|k]; [split; reflexivity|]). lia.
  - intros Hok Hnone. unfold get_newsletter_stats.
    rewrite (compute_stats_no_data db now user_id Hok Hnone).
    split; reflexivity.
Qed.

(** For user 7 of the sample database, a session that fails at its fourth
    statement and a sound session over a database without data of the user
    answer alike. *)
Lemma get_newsletter_stats_failure_witness :
  get_newsletter_stats {| store := Examples.stored; fails_at := Some 3%nat |}
    1700000900 7 = empty_stats
  ∧ get_newsletter_stats {| store := Examples.stored; fails_at := None |}
      1700000900 7 = empty_stats.
Proof.
  split.
  - destruct (get_newsletter_stats_failure
                {| store := Examples.stored; fails_at := Some 3%nat |}
                1700000900 7) as (_ & Hfail & _).
    apply (Hfail 3%nat); [reflexivity|lia].
  - destruct (get_newsletter_stats_failure
                {| store := Examples.stored; fails_at := None |}
                1700000900 7) as (_ & _ & Hnone).
    apply Hnone; [reflexivity|]. split; constructor.
Defined.

End CrudFacts.

(* ================================================================== *)
(** * Properties of the metadata extraction *)
(* ================================================================== *)

Module MetadataFacts.
Import Py Gmail.

Section Absent.
Variable guess_newsletter_title : EmailData.t -> option string.
Variable netloc : string -> string + string.

(** [C9].  For a message classified as a newsletter whose parsed form
    carries no text content ([content_text] is [None]), categorization
    raises [TypeError] instead of returning a category: the subject, a
    space and [None] are concatenated before the [or ''] fallback is
    reached.  [extract_newsletter_metadata], the interface through which
    the category is asked for, therefore never returns metadata for such a
    message: it raises this [TypeError] whenever the domain of the sender
    can be computed, and otherwise the [ValueError] of [urlparse], which
    comes first. *)
Theorem categorize_newsletter_absent_text (email_data : EmailData.t) :
  EmailData.is_newsletter email_data = true →
  EmailData.content_text email_data = None →
  categorize_newsletter email_data = inl TypeError
  ∧ (∃ e, extract_newsletter_metadata guess_newsletter_title netloc email_data
          = inl e)
  ∧ (∀ domain,
       sender_domain netloc (EmailData.sender_email email_data) = inr domain →
       extract_newsletter_metadata guess_newsletter_title netloc email_data
       = inl TypeError).
Proof.
  intros _ Hnone.
  assert (H : categorize_newsletter email_data = inl TypeError).
  { unfold categorize_newsletter. rewrite Hnone. reflexivity. }
  split; [exact H|]. unfold extract_newsletter_metadata.
  destruct (sender_domain netloc (EmailData.sender_email email_data))
    as [e|domain] eqn:Hdomain; cbn [bind].
  - split; [eauto|]. discriminate.
  - rewrite H. cbn [bind]. split; [eauto|]. reflexivity.
Qed.

End Absent.

(** A message with a [List-Unsubscribe] header whose only body part is an
    attachment is classified as a newsletter and has no text content:
    asking for its metadata raises. *)
Lemma categorize_newsletter_absent_text_witness :
  let email_data :=
    parse_message Ref.urlsafe_b64decode Ref.get_text Ref.parsedate_to_datetime
      Ref.parseaddr 1700000900 Examples.attachment_message in
  EmailData.is_newsletter email_data = true
  ∧ EmailData.content_text email_data = None
  ∧ categorize_newsletter email_data = inl TypeError
  ∧ extract_newsletter_metadata (λ _, None) (λ url, inr url) email_data
    = inl TypeError.
Proof.
  intros email_data.
  assert (Hn : EmailData.is_newsletter email_data = true)
    by (vm_compute; reflexivity).
  assert (Ht : EmailData.content_text email_data = None)
    by (vm_compute; reflexivity).
  split; [exact Hn|]. split; [exact Ht|].
  destruct (categorize_newsletter_absent_text (λ _, None) (λ url, inr url)
              email_data Hn Ht) as (Hcat & _ & Hmeta).
  split; [exact Hcat|].
  apply (Hmeta "http://example.com"). vm_compute. reflexivity.
Defined.

(** The same message makes a whole run of [sync_emails] end in the error
    status. *)
Example sync_emails_absent_text :
  sync_emails Ref.urlsafe_b64decode Ref.get_text Ref.parsedate_to_datetime
    Ref.parseaddr 1700000900 (λ _, None) (λ url, inr url)
    (λ _, Some Examples.attachment_message) true
    (LastPage (Some [Examples.ref 1])) 10
  = SyncError (str_of_exn TypeError).
Proof. vm_compute. reflexivity. Qed.

End MetadataFacts.

(* ================================================================== *)
(** * Properties of the sync run *)
(* ================================================================== *)

Module SyncFacts.
Import Py Crud Sync Inv.

(** Writing back a row that satisfies the search predicate exactly when the
    row it replaces does leaves the position of the first match alone. *)
Lemma list_find_insert_agree {A} (P : A → Prop) `{∀ x, Decision (P x)}
    (l : list A) (i : nat) (x x' : A) :
  l !! i = Some x → (P x ↔ P x') →
  ∀ j y, list_find P l = Some (j, y) →
    list_find P (<[i := x']> l) = Some (j, if decide (j = i) then x' else y).
Proof.
  intros Hi Hagree j y Hfind.
  apply list_find_Some in Hfind as (Hj & Hy & Hmin).
  assert (Hlen : (i < length l)%nat) by (eapply lookup_lt_Some; exact Hi).
  apply list_find_Some. split; [|split].
  - destruct (decide (j = i)) as [->|Hne].
    + apply list_lookup_insert_eq. exact Hlen.
    + rewrite list_lookup_insert_ne by congruence. exact Hj.
  - destruct (decide (j = i)) as [->|Hne]; [|exact Hy].
    apply Hagree. rewrite Hi in Hj. injection Hj as <-. exact Hy.
  - intros k z Hk Hlt.
    apply list_lookup_insert_Some in Hk as [(-> & -> & _)|[Hne Hk]].
    + intros Hx'. apply (Hmin k x Hi Hlt). apply Hagree, Hx'.
    + exact (Hmin k z Hk Hlt).
Qed.

Lemma list_find_snoc_new {A} (P : A → Prop) `{∀ x, Decision (P x)}
    (l : list A) (x : A) :
  list_find P l = None → P x → list_find P (l ++ [x]) = Some (length l, x).
Proof.
  intros Hnone Hx. rewrite list_find_app_r by exact Hnone.
  simpl. destruct (decide (P x)); [reflexivity|contradiction].
Qed.

Lemma is_Some_list_find_app {A} (P : A → Prop) `{∀ x, Decision (P x)}
    (l k : list A) :
  is_Some (list_find P l) → is_Some (list_find P (l ++ k)).
Proof.
  intros [[i x] Hfind]. exists (i, x). apply list_find_app_l. exact Hfind.
Qed.

(** An upsert that finds the sender rewrites the row found, keeping its
    key and its sender address. *)
Lemma upsert_found (db : DB) (now : Z) (md : Metadata.t) (i : nat)
    (n : Newsletter.t) :
  list_find (λ n, Newsletter.sender_email n = Metadata.sender_email md)
            (newsletters db) = Some (i, n) →
  let r := get_or_create_newsletter db now md in
  r.1 = with_newsletters (<[i := r.2]> (newsletters db)) db
  ∧ Newsletter.id r.2 = Newsletter.id n
  ∧ Newsletter.sender_email r.2 = Newsletter.sender_email n.
Proof.
  intros Hfind. unfold get_or_create_newsletter. rewrite Hfind.
  destruct (truthy (Metadata.newsletter_title md)
            && negb (truthy (Newsletter.newsletter_title _)));
    destruct (truthy (Metadata.category md)
              && negb (truthy (Newsletter.category _)));
    repeat split.
Qed.

(** What [get_or_create_newsletter] does to the tables. *)
Lemma get_or_create_newsletter_tables (db : DB) (now : Z) (md : Metadata.t) :
  let r := get_or_create_newsletter db now md in
  newsletter_id_of r.1 (Metadata.sender_email md) = Some (Newsletter.id r.2)
  ∧ (∀ sender nid, newsletter_id_of db sender = Some nid →
                   newsletter_id_of r.1 sender = Some nid)
  ∧ user_newsletters r.1 = user_newsletters db
  ∧ newsletter_emails r.1 = newsletter_emails db
  ∧ email_connections r.1 = email_connections db
  ∧ (is_Some (newsletter_id_of db (Metadata.sender_email md)) →
     length (newsletters r.1) = length (newsletters db)).
Proof.
  unfold newsletter_id_of.
  destruct (list_find (λ n, Newsletter.sender_email n = Metadata.sender_email md)
                      (newsletters db)) as [[i n]|] eqn:Hfind.
  - destruct (upsert_found db now md i n Hfind) as (Htab & Hid & Hsender).
    cbv zeta. rewrite Htab. cbn [newsletters user_newsletters newsletter_emails
                                 email_connections with_newsletters fst].
    pose proof Hfind as Hfind'.
    apply list_find_Some in Hfind' as (Hi & Hn & _).
    split; [|split; [|split; [|split; [|split]]]]; try reflexivity.
    + rewrite (list_find_insert_agree _ (newsletters db) i n _ Hi
                 (conj (λ _, eq_trans Hsender Hn) (λ _, Hn)) i n Hfind).
      simpl. destruct (decide (i = i)); [reflexivity|congruence].
    + intros sender nid Hs.
      destruct (list_find (λ n0, Newsletter.sender_email n0 = sender)
                          (newsletters db)) as [[j m]|] eqn:Hj; [|discriminate].
      simpl in Hs. injection Hs as <-.
      rewrite (list_find_insert_agree _ (newsletters db) i n _ Hi
                 (conj (λ H, eq_trans Hsender H)
                       (λ H, eq_trans (eq_sym Hsender) H)) j m Hj).
      simpl. destruct (decide (j = i)) as [->|]; [|reflexivity].
      rewrite Hid. apply list_find_Some in Hj as (Hj & _).
      rewrite Hi in Hj. injection Hj as <-. reflexivity.
    + intros _. apply length_insert.
  - unfold get_or_create_newsletter. rewrite Hfind. cbn.
    split; [|split; [|split; [|split; [|split]]]]; try reflexivity.
    + rewrite list_find_snoc_new; [reflexivity|exact Hfind|reflexivity].
    + intros sender nid Hs.
      destruct (list_find (λ n0, Newsletter.sender_email n0 = sender)
                          (newsletters db)) as [[j m]|] eqn:Hj; [|discriminate].
      rewrite (list_find_app_l _ _ _ _ _ Hj). exact Hs.
    + intros [? ?]. discriminate.
Qed.

(** What [create_newsletter_email] does to the tables. *)
Lemma create_newsletter_email_tables (db : DB) (user_id newsletter_id : Z)
    (email_data : EmailData.t) :
  let r := create_newsletter_email db user_id newsletter_id email_data in
  has_email r.1 user_id (EmailData.id email_data)
  ∧ (∀ email_id, has_email db user_id email_id → has_email r.1 user_id email_id)
  ∧ newsletters r.1 = newsletters db
  ∧ user_newsletters r.1 = user_newsletters db
  ∧ email_connections r.1 = email_connections db
  ∧ (has_email db user_id (EmailData.id email_data) → r.1 = db).
Proof.
  unfold create_newsletter_email, has_email.
  destruct (list_find (λ e, NewsletterEmail.user_id e = user_id
                            ∧ NewsletterEmail.email_id e = EmailData.id email_data)
                      (newsletter_emails db)) as [[i row]|] eqn:Hfind; cbn.
  - rewrite Hfind. repeat split; eauto.
  - split; [|split; [|split; [|split; [|split]]]]; try reflexivity.
    + eexists. apply list_find_snoc_new; [exact Hfind|]. split; reflexivity.
    + intros email_id. apply is_Some_list_find_app.
    + intros [? ?]. discriminate.
Qed.

(** The subscription step of the loop: subscribe unless subscribed. *)
Lemma subscribe_unless_subscribed (db : DB) (now : Z) (user_id newsletter_id : Z)
    (new_newsletters : nat) :
  let r :=
    match list_find (λ s, UserNewsletter.user_id s = user_id
                          ∧ UserNewsletter.newsletter_id s = newsletter_id)
                    (user_newsletters db) with
    | Some _ => (db, new_newsletters)
    | None =>
        ((create_user_newsletter_subscription db now user_id newsletter_id
            default_base_relevance_score).1,
         S new_newsletters)
    end in
  has_subscription r.1 user_id newsletter_id
  ∧ (∀ nid, has_subscription db user_id nid → has_subscription r.1 user_id nid)
  ∧ newsletters r.1 = newsletters db
  ∧ newsletter_emails r.1 = newsletter_emails db
  ∧ email_connections r.1 = email_connections db
  ∧ (has_subscription db user_id newsletter_id → r = (db, new_newsletters)).
Proof.
  unfold has_subscription, create_user_newsletter_subscription.
  destruct (list_find (λ s, UserNewsletter.user_id s = user_id
                            ∧ UserNewsletter.newsletter_id s = newsletter_id)
                      (user_newsletters db)) as [[i row]|] eqn:Hfind; cbn.
  - rewrite Hfind. repeat split; eauto.
  - split; [|split; [|split; [|split; [|split]]]]; try reflexivity.
    + eexists. apply list_find_snoc_new; [exact Hfind|]. split; reflexivity.
    + intros nid. apply is_Some_list_find_app.
    + intros [? ?]. discriminate.
Qed.

(** One round of the loop settles its message, keeps every settled message
    settled, and writes no subscription and no email for a message that is
    settled already. *)
Lemma process_newsletter_settles (user_id : Z) (now : Z) (db : DB) (k : nat)
    (item : EmailData.t * Metadata.t) :
  let r := process_newsletter user_id now (db, k) item in
  settled user_id r.1 item
  ∧ (∀ item0, settled user_id db item0 → settled user_id r.1 item0)
  ∧ (settled user_id db item →
     user_newsletters r.1 = user_newsletters db
     ∧ newsletter_emails r.1 = newsletter_emails db
     ∧ length (newsletters r.1) = length (newsletters db)
     ∧ r.2 = k)
  ∧ email_connections r.1 = email_connections db.
Proof.
  destruct item as [email_data metadata].
  unfold process_newsletter.
  pose proof (get_or_create_newsletter_tables db now metadata) as Hnl.
  destruct (get_or_create_newsletter db now metadata) as [db1 n].
  cbv zeta in Hnl. cbn [fst snd] in Hnl.
  destruct Hnl as (Hid & Hids & Hsubs1 & Hemails1 & Hconn1 & Hlen1).
  pose proof (subscribe_unless_subscribed db1 now user_id (Newsletter.id n) k)
    as Hsub.
  destruct (match list_find _ (user_newsletters db1) with
            | Some _ => (db1, k)
            | None => _
            end) as [db2 k2].
  cbv zeta in Hsub. cbn [fst snd] in Hsub.
  destruct Hsub as (Hhas & Hkeep & Hnl2 & Hemails2 & Hconn2 & Hsame2).
  pose proof (create_newsletter_email_tables db2 user_id (Newsletter.id n)
                email_data) as Hem.
  cbv zeta in Hem.
  destruct Hem as (Hmail & Hmails & Hnl3 & Hsubs3 & Hconn3 & Hsame3).
  set (db3 := (create_newsletter_email db2 user_id (Newsletter.id n)
                 email_data).1) in *.
  cbv zeta. cbn [fst snd].
  assert (Hid3 : ∀ sender nid, newsletter_id_of db1 sender = Some nid →
                               newsletter_id_of db3 sender = Some nid).
  { intros sender nid H. unfold newsletter_id_of in *.
    rewrite Hnl3, Hnl2. exact H. }
  assert (Hsub3 : ∀ nid, has_subscription db2 user_id nid →
                         has_subscription db3 user_id nid).
  { intros nid H. unfold has_subscription in *. rewrite Hsubs3. exact H. }
  assert (Hsub1 : ∀ nid, has_subscription db user_id nid →
                         has_subscription db1 user_id nid).
  { intros nid H. unfold has_subscription in *. rewrite Hsubs1. exact H. }
  assert (Hmail1 : ∀ eid, has_email db user_id eid → has_email db2 user_id eid).
  { intros eid H. unfold has_email in *. rewrite Hemails2, Hemails1. exact H. }
  split; [|split; [|split]].
  - exists (Newsletter.id n). simpl. split; [apply Hid3, Hid|].
    split; [apply Hsub3, Hhas|exact Hmail].
  - intros item0 (nid & Hn0 & Hs0 & He0). exists nid.
    split; [apply Hid3, Hids, Hn0|].
    split; [apply Hsub3, Hkeep, Hsub1, Hs0|apply Hmails, Hmail1, He0].
  - intros (nid & Hn0 & Hs0 & He0). simpl in Hn0, He0.
    assert (Hnid : nid = Newsletter.id n).
    { apply Hids in Hn0. rewrite Hid in Hn0. congruence. }
    subst nid.
    specialize (Hsame2 (Hsub1 _ Hs0)). injection Hsame2 as -> ->.
    specialize (Hsame3 (Hmail1 _ He0)). rewrite Hsame3.
    repeat split; auto.
  - rewrite Hconn3, Hconn2, Hconn1. reflexivity.
Qed.

Lemma fold_keeps_settled (user_id : Z) (now : Z)
    (items : list (EmailData.t * Metadata.t)) :
  ∀ (st : DB * nat) (item0 : EmailData.t * Metadata.t),
    settled user_id st.1 item0 →
    settled user_id (foldl (process_newsletter user_id now) st items).1 item0.
Proof.
  induction items as [|item items IH]; intros [db k] item0 H; [exact H|].
  cbn [foldl]. apply IH.
  pose proof (process_newsletter_settles user_id now db k item)
    as (_ & Hkeep & _).
  apply Hkeep. exact H.
Qed.

(** After a run every message of the run is settled. *)
Lemma fold_settles_all (user_id : Z) (now : Z)
    (items : list (EmailData.t * Metadata.t)) :
  ∀ st : DB * nat,
    Forall (settled user_id (foldl (process_newsletter user_id now) st items).1)
           items.
Proof.
  induction items as [|item items IH]; intros [db k]; [constructor|].
  cbn [foldl]. constructor; [|apply IH].
  apply fold_keeps_settled.
  pose proof (process_newsletter_settles user_id now db k item) as (H & _).
  exact H.
Qed.

(** A run over settled messages writes no subscription and no email. *)
Lemma fold_settled_unchanged (user_id : Z) (now : Z)
    (items : list (EmailData.t * Metadata.t)) :
  ∀ (db : DB) (k : nat),
    Forall (settled user_id db) items →
    let r := foldl (process_newsletter user_id now) (db, k) items in
    user_newsletters r.1 = user_newsletters db
    ∧ newsletter_emails r.1 = newsletter_emails db
    ∧ length (newsletters r.1) = length (newsletters db)
    ∧ r.2 = k.
Proof.
  induction items as [|item items IH]; intros db k Hall; [repeat split|].
  apply Forall_cons in Hall as [Hitem Hitems].
  cbn [foldl].
  pose proof (process_newsletter_settles user_id now db k item)
    as (_ & Hkeep & Hsame & _).
  destruct (process_newsletter user_id now (db, k) item) as [db' k'].
  cbn [fst snd] in Hkeep, Hsame.
  destruct (Hsame Hitem) as (Hs & He & Hl & ->).
  destruct (IH db' k) as (Hs' & He' & Hl' & Hk').
  { eapply Forall_impl; [exact Hitems|]. exact Hkeep. }
  cbv zeta. rewrite Hs', He', Hl', Hk'. auto.
Qed.

(** A status update writes to the connection table only. *)
Lemma update_email_connection_status_tables (db : DB) (now : Z) (user_id : Z)
    (status : string) (error_message : option string) :
  let db' := (update_email_connection_status db now user_id status
                error_message).1 in
  newsletters db' = newsletters db
  ∧ user_newsletters db' = user_newsletters db
  ∧ newsletter_emails db' = newsletter_emails db.
Proof.
  unfold update_email_connection_status.
  destruct (get_email_connection db user_id) as [[i c]|]; repeat split.
Qed.

Lemma settled_tables (user_id : Z) (db db' : DB)
    (item : EmailData.t * Metadata.t) :
  newsletters db' = newsletters db →
  user_newsletters db' = user_newsletters db →
  newsletter_emails db' = newsletter_emails db →
  settled user_id db item → settled user_id db' item.
Proof.
  intros Hn Hs He (nid & H1 & H2 & H3). exists nid.
  unfold newsletter_id_of, has_subscription, has_email in *.
  rewrite Hn, Hs, He. auto.
Qed.

(** [C2].  Creating an email whose (user, remote message id) key is on
    record returns the row on record and leaves the database as it is;
    creating a subscription for a (user, newsletter) pair on record
    rewrites that row in place, active and subscribed, and adds none; and
    a second successful sync run over the same detected newsletters leaves
    the email table and the subscription table exactly as the first run
    left them, adds no newsletter row and counts no new newsletter. *)
Theorem sync_twice_idempotent :
  (∀ db user_id newsletter_id email_data i row,
     list_find (λ e, NewsletterEmail.user_id e = user_id
                     ∧ NewsletterEmail.email_id e = EmailData.id email_data)
               (newsletter_emails db) = Some (i, row) →
     create_newsletter_email db user_id newsletter_id email_data = (db, row))
  ∧ (∀ db now user_id newsletter_id score i row,
       list_find (λ s, UserNewsletter.user_id s = user_id
                       ∧ UserNewsletter.newsletter_id s = newsletter_id)
                 (user_newsletters db) = Some (i, row) →
       let r := create_user_newsletter_subscription db now user_id
                  newsletter_id score in
       r.2 = UserNewsletter.with_is_subscribed true
               (UserNewsletter.with_is_active true row)
       ∧ UserNewsletter.is_active r.2 = true
       ∧ UserNewsletter.is_subscribed r.2 = true
       ∧ user_newsletters r.1 = <[i := r.2]> (user_newsletters db)
       ∧ length (user_newsletters r.1) = length (user_newsletters db))
  ∧ (∀ db user_id now1 now2 processed1 processed2 items,
       let db1 := sync_user_emails db now1 user_id true
                    (Gmail.SyncSuccess processed1 items) in
       let db2 := sync_user_emails db1 now2 user_id true
                    (Gmail.SyncSuccess processed2 items) in
       newsletter_emails db2 = newsletter_emails db1
       ∧ user_newsletters db2 = user_newsletters db1
       ∧ length (newsletters db2) = length (newsletters db1)
       ∧ (process_newsletters user_id now2
            (update_email_connection_status db1 now2 user_id "syncing" None).1
            items).2 = 0%nat).
Proof.
  split; [|split].
  - intros db user_id newsletter_id email_data i row Hfind.
    unfold create_newsletter_email. rewrite Hfind. reflexivity.
  - intros db now user_id newsletter_id score i row Hfind.
    unfold create_user_newsletter_subscription. rewrite Hfind. cbn.
    repeat split. apply length_insert.
  - intros db user_id now1 now2 processed1 processed2 items db1 db2.
    subst db2 db1. unfold sync_user_emails. cbn [negb].
    set (start1 := (update_email_connection_status db now1 user_id
                      "syncing" None).1).
    unfold process_newsletters.
    pose proof (fold_settles_all user_id now1 items (start1, 0%nat)) as Hall.
    destruct (foldl (process_newsletter user_id now1) (start1, 0%nat) items)
      as [done1 k1].
    cbn [fst] in Hall.
    set (db1 := (update_email_connection_status done1 now1 user_id
                   "connected" None).1).
    destruct (update_email_connection_status_tables done1 now1 user_id
                "connected" None) as (Hn1 & Hs1 & He1).
    fold db1 in Hn1, Hs1, He1.
    set (start2 := (update_email_connection_status db1 now2 user_id
                      "syncing" None).1).
    destruct (update_email_connection_status_tables db1 now2 user_id
                "syncing" None) as (Hn2 & Hs2 & He2).
    fold start2 in Hn2, Hs2, He2.
    assert (Hall2 : Forall (settled user_id start2) items).
    { eapply Forall_impl; [exact Hall|]. intros item Hitem.
      apply (settled_tables user_id done1); [congruence..|exact Hitem]. }
    pose proof (fold_settled_unchanged user_id now2 items start2 0%nat Hall2)
      as Hrun2.
    destruct (foldl (process_newsletter user_id now2) (start2, 0%nat) items)
      as [done2 k2].
    cbv zeta in Hrun2. cbn [fst snd] in Hrun2.
    destruct Hrun2 as (Hs3 & He3 & Hl3 & Hk3).
    destruct (update_email_connection_status_tables done2 now2 user_id
                "connected" None) as (Hn4 & Hs4 & He4).
    cbn [snd]. rewrite Hn4, Hs4, He4.
    repeat split; congruence.
Qed.

(** Two runs over the same two detected newsletters: the second run leaves
    the two emails and the two subscriptions of the first. *)
Lemma sync_twice_idempotent_witness :
  let db1 := sync_user_emails Examples.stored 1700000900 7 true
               (Gmail.SyncSuccess [] Examples.detected) in
  let db2 := sync_user_emails db1 1700090000 7 true
               (Gmail.SyncSuccess [] Examples.detected) in
  length (newsletter_emails db1) = 2%nat
  ∧ length (user_newsletters db1) = 2%nat
  ∧ newsletter_emails db2 = newsletter_emails db1
  ∧ user_newsletters db2 = user_newsletters db1.
Proof.
  intros db1 db2.
  destruct (proj2 (proj2 sync_twice_idempotent) Examples.stored 7
              1700000900 1700090000 [] [] Examples.detected)
    as (He & Hs & _).
  split; [vm_compute; reflexivity|]. split; [vm_compute; reflexivity|].
  split; [exact He|exact Hs].
Defined.

End SyncFacts.

(* ================================================================== *)
(** * Further properties of the classifier *)
(* ================================================================== *)

Module ClassifierBounds.
Import Py Gmail.

Lemma content_points_bounds (ps : list Re.regex) (content : string) :
  0 ≤ (if existsb (λ r, Re.search true r content) ps then 2 else 0) ≤ 2.
Proof. destruct (existsb _ ps); lia. Qed.

(** The points of the headers alone are those of the message without
    content. *)
Lemma indicator_score_headers (headers : gmap string string)
    (text_content html_content : option string) :
  Spec.indicator_score headers None None
  ≤ Spec.indicator_score headers text_content html_content
  ≤ Spec.indicator_score headers None None + 2.
Proof.
  unfold Spec.indicator_score.
  change (or_empty None +:+ or_empty None) with "".
  rewrite ClassifierFacts.no_pattern_hits_empty.
  pose proof (content_points_bounds unsubscribe_patterns
                (or_empty text_content +:+ or_empty html_content)).
  lia.
Qed.

Lemma list_unsubscribe_points (headers : gmap string string)
    (text_content html_content : option string) :
  truthy (headers !! "List-Unsubscribe") = true →
  3 ≤ Spec.indicator_score headers text_content html_content.
Proof.
  intros H. unfold Spec.indicator_score. rewrite H.
  pose proof (content_points_bounds unsubscribe_patterns
                (or_empty text_content +:+ or_empty html_content)).
  pose proof (ClassifierFacts.count_nonneg
                (λ h, truthy (headers !! h)) list_headers).
  pose proof (ClassifierFacts.count_nonneg
                (λ r, Re.search false r (lower (default "" (headers !! "From"))))
                newsletter_sender_patterns).
  pose proof (ClassifierFacts.count_nonneg
                (λ r, Re.search false r
                        (lower (default "" (headers !! "Subject"))))
                newsletter_subject_patterns).
  lia.
Qed.

(** A [List-Unsubscribe] header with a non-empty value is enough: the
    message is classified as a newsletter whatever its content and its
    other headers. *)
Theorem list_unsubscribe_suffices (headers : gmap string string)
    (text_content html_content : option string) :
  truthy (headers !! "List-Unsubscribe") = true →
  is_likely_newsletter headers text_content html_content = true.
Proof.
  intros H. rewrite ClassifierFacts.indicators_sum. apply Z.leb_le.
  apply list_unsubscribe_points, H.
Qed.

Lemma list_unsubscribe_suffices_witness :
  truthy (header_dict [("List-Unsubscribe", "<mailto:leave@example.com>")]
            !! "List-Unsubscribe") = true
  ∧ is_likely_newsletter
      (header_dict [("List-Unsubscribe", "<mailto:leave@example.com>")])
      None None = true.
Proof.
  assert (H : truthy (header_dict
                        [("List-Unsubscribe", "<mailto:leave@example.com>")]
                        !! "List-Unsubscribe") = true)
    by (vm_compute; reflexivity).
  split; [exact H|]. exact (list_unsubscribe_suffices _ None None H).
Defined.

(** The content weighs at most two points and never counts against a
    message: a message whose headers alone make a newsletter stays one
    whatever its content, and a message whose headers earn no point is
    never a newsletter, whatever it says. *)
Theorem content_weighs_at_most_two (headers : gmap string string)
    (text_content html_content : option string) :
  (is_likely_newsletter headers None None = true →
   is_likely_newsletter headers text_content html_content = true)
  ∧ (Spec.indicator_score headers None None ≤ 0 →
     is_likely_newsletter headers text_content html_content = false).
Proof.
  rewrite !ClassifierFacts.indicators_sum.
  pose proof (indicator_score_headers headers text_content html_content).
  split; intros H0.
  - apply Z.leb_le in H0. apply Z.leb_le. lia.
  - apply Z.leb_gt. lia.
Qed.

Lemma content_weighs_at_most_two_witness :
  is_likely_newsletter (header_dict [("From", "Ann <ann@example.com>")])
    (Some "Click here to unsubscribe or manage preferences")
    (Some "<a>unsubscribe</a>") = false.
Proof.
  apply (content_weighs_at_most_two
           (header_dict [("From", "Ann <ann@example.com>")])).
  vm_compute. discriminate.
Defined.

End ClassifierBounds.

(* ================================================================== *)
(** * Further properties of the metadata extraction *)
(* ================================================================== *)

Module MetadataRange.
Import Py Gmail Inv.

(** Whenever the text content of a message is present, categorization
    raises nothing and answers one of the eight declared category names or
    "General". *)
Lemma categorize_newsletter_range (email_data : EmailData.t) (text : string) :
  EmailData.content_text email_data = Some text →
  ∃ category,
    categorize_newsletter email_data = inr category
    ∧ category ∈ "General" :: categories.*1.
Proof.
  intros Htext. unfold categorize_newsletter. rewrite Htext. simpl str_add.
  unfold bind, ret.
  pose proof (CategorizerFacts.first_maximum
                (lower (str_or_empty
                          ((EmailData.subject email_data +:+ " ") +:+ text)))
                categories CategorizerFacts.categories_distinct) as H.
  destruct (py_max _ _) as [category|].
  - exists category. split; [reflexivity|].
    destruct H as (before & keywords & after & Heq & _).
    right. rewrite Heq, fmap_app, fmap_cons. apply elem_of_app. right. left.
  - exists "General". split; [reflexivity|]. left.
Qed.

Lemma prefix_app (u v s : string) :
  String.prefix (u +:+ v) s = true → String.prefix u s = true.
Proof.
  revert s. induction u as [|a u IH]; intros s H;
    [destruct s; reflexivity|].
  destruct s as [|b s]; [discriminate|].
  simpl in *. destruct (ascii_dec a b); [apply IH, H|discriminate].
Qed.

(** A text that contains a word contains every beginning of the word. *)
Lemma contains_app (u v s : string) :
  contains (u +:+ v) s = true → contains u s = true.
Proof.
  induction s as [|b s IH]; intros H.
  - change (contains (u +:+ v) "") with (String.prefix (u +:+ v) "" || false) in H.
    change (contains u "") with (String.prefix u "" || false).
    rewrite orb_false_r in *. apply (prefix_app u v), H.
  - change (contains (u +:+ v) (String b s))
      with (String.prefix (u +:+ v) (String b s) || contains (u +:+ v) s) in H.
    change (contains u (String b s))
      with (String.prefix u (String b s) || contains u s).
    apply orb_true_iff in H as [H|H]; apply orb_true_iff.
    + left. apply (prefix_app u v), H.
    + right. apply IH, H.
Qed.

(** The cadence guess looks at the lower-cased subject only.  "daily" or
    "today" give 'daily' whatever else the subject says; the guess is
    'unknown' exactly when the subject contains none of "daily", "today",
    "week", "month" and "quarter" (the longer words "weekly", "monthly"
    and "quarterly" of the source add nothing); and the answer is always
    one of the five cadence names. *)
Theorem estimate_publication_frequency_cases (email_data : EmailData.t) :
  let subject := lower (EmailData.subject email_data) in
  (any_in ["daily"; "today"] subject = true →
   estimate_publication_frequency email_data = "daily")
  ∧ (estimate_publication_frequency email_data = "unknown"
     ↔ any_in ["daily"; "today"; "week"; "month"; "quarter"] subject = false)
  ∧ estimate_publication_frequency email_data
    ∈ ["daily"; "weekly"; "monthly"; "quarterly"; "unknown"].
Proof.
  intros subject. unfold estimate_publication_frequency. fold subject.
  assert (Hw : contains "weekly" subject = true → contains "week" subject = true)
    by apply (contains_app "week" "ly").
  assert (Hm : contains "monthly" subject = true → contains "month" subject = true)
    by apply (contains_app "month" "ly").
  assert (Hq : contains "quarterly" subject = true
               → contains "quarter" subject = true)
    by apply (contains_app "quarter" "ly").
  unfold any_in. cbn [existsb].
  destruct (contains "daily" subject), (contains "today" subject),
    (contains "week" subject) eqn:Ew, (contains "month" subject) eqn:Em,
    (contains "quarter" subject) eqn:Eq,
    (contains "weekly" subject), (contains "monthly" subject),
    (contains "quarterly" subject);
    try (specialize (Hw eq_refl); discriminate);
    try (specialize (Hm eq_refl); discriminate);
    try (specialize (Hq eq_refl); discriminate);
    cbn; (split; [|split]); try (split; intros; congruence);
    try (intros; congruence); set_solver.
Qed.

(** What follows the last '@' of an address holds no '@'; an address with
    an '@' is what precedes its last '@', the '@', and what follows; an
    address without '@' is returned whole. *)
Lemma after_last_at_split (s : string) :
  contains "@" (after_last_at s) = false
  ∧ (contains "@" s = true → ∃ p, s = p +:+ "@" +:+ after_last_at s)
  ∧ (contains "@" s = false → after_last_at s = s).
Proof.
  assert (Hc : ∀ a t, contains "@" (String a t)
                      = (Ascii.eqb a "@" || contains "@" t)).
  { intros a t.
    change (contains "@" (String a t))
      with (String.prefix "@" (String a t) || contains "@" t).
    f_equal. cbn [String.prefix]. destruct (ascii_dec "@" a) as [<-|Hne].
    - destruct t; reflexivity.
    - symmetry. apply Ascii.eqb_neq. congruence. }
  induction s as [|a s (IH1 & IH2 & IH3)].
  - split; [reflexivity|]. split; [discriminate|reflexivity].
  - simpl after_last_at. rewrite Hc.
    destruct (contains "@" s) eqn:Es.
    + rewrite orb_true_r. split; [exact IH1|]. split; [|discriminate].
      intros _. destruct (IH2 eq_refl) as (p & Hp).
      exists (String a p). rewrite ReFacts.append_cons. f_equal. exact Hp.
    + rewrite orb_false_r.
      destruct (Ascii.eqb a "@") eqn:Ea.
      * apply Ascii.eqb_eq in Ea. subst a.
        split; [exact Es|]. split; [|discriminate].
        intros _. exists "". reflexivity.
      * split; [rewrite Hc, Ea, Es; reflexivity|].
        split; [discriminate|]. reflexivity.
Qed.

Section Outcome.
Variable guess_newsletter_title : EmailData.t -> option string.
Variable netloc : string -> string + string.

#[local] Abbreviation metadata_of :=
  (extract_newsletter_metadata guess_newsletter_title netloc).
#[local] Abbreviation domain_of :=
  (λ email_data : EmailData.t,
     sender_domain netloc (EmailData.sender_email email_data)).

Lemma sender_domain_raises (sender_email : string) (e : exn) :
  sender_domain netloc sender_email = inl e →
  contains "@" sender_email = true
  ∧ ∃ message,
      e = ValueError message
      ∧ netloc ("http://" +:+ after_last_at sender_email) = inl message.
Proof.
  unfold sender_domain. destruct (contains "@" sender_email); [|discriminate].
  destruct (netloc _) as [message|domain]; [|discriminate].
  intros [= <-]. eauto.
Qed.

Lemma metadata_domain_raises (email_data : EmailData.t) (e : exn) :
  domain_of email_data = inl e → metadata_of email_data = inl e.
Proof.
  intros H. unfold extract_newsletter_metadata. rewrite H. reflexivity.
Qed.

Lemma metadata_no_text (email_data : EmailData.t) (domain : string) :
  domain_of email_data = inr domain →
  EmailData.content_text email_data = None →
  metadata_of email_data = inl TypeError.
Proof.
  intros Hd Hnone. unfold extract_newsletter_metadata, categorize_newsletter.
  rewrite Hd, Hnone. reflexivity.
Qed.

Lemma metadata_text (email_data : EmailData.t) (domain text : string) :
  domain_of email_data = inr domain →
  EmailData.content_text email_data = Some text →
  ∃ metadata category,
    metadata_of email_data = inr metadata
    ∧ Metadata.domain metadata = domain
    ∧ Metadata.sender_email metadata = EmailData.sender_email email_data
    ∧ Metadata.sender_name metadata = EmailData.sender_name email_data
    ∧ Metadata.average_length metadata = EmailData.content_length email_data
    ∧ Metadata.category metadata = Some category
    ∧ category ∈ "General" :: categories.*1
    ∧ Metadata.publication_frequency metadata
      = estimate_publication_frequency email_data.
Proof.
  intros Hd Htext.
  destruct (categorize_newsletter_range email_data text Htext)
    as (category & Hcat & Hin).
  unfold extract_newsletter_metadata. rewrite Hd, Hcat. cbn.
  eexists _, category. split; [reflexivity|]. cbn. repeat split; auto.
Qed.

(** A message is readable when its text content is present and the domain
    of its sender can be computed; metadata can be extracted from exactly
    the readable messages. *)
Lemma metadata_readable (email_data : EmailData.t) :
  (∃ metadata, metadata_of email_data = inr metadata)
  ↔ is_Some (EmailData.content_text email_data)
    ∧ ∃ domain, domain_of email_data = inr domain.
Proof.
  split.
  - intros [metadata Hm].
    destruct (domain_of email_data) as [e|domain] eqn:Hd.
    + rewrite (metadata_domain_raises _ _ Hd) in Hm. discriminate.
    + split; [|eauto].
      destruct (EmailData.content_text email_data) as [text|] eqn:Ht; [eauto|].
      rewrite (metadata_no_text _ _ Hd Ht) in Hm. discriminate.
  - intros [[text Ht] [domain Hd]].
    destruct (metadata_text _ _ _ Hd Ht) as (metadata & _ & Hm & _). eauto.
Qed.

(** The three outcomes of metadata extraction.  When [urlparse] raises on
    the domain of the sender, its [ValueError] leaves the function,
    whatever the text.  Otherwise the [TypeError] of the categorizer
    leaves it when the text content is absent, and metadata is returned
    when it is present: the sender address and name are those of the
    message, the domain is the network location computed, the average
    length is the content length of this one message, the category is one
    of the eight declared names or "General", and the cadence is the
    cadence guess.  An address without '@' has the empty domain and never
    makes [urlparse] raise. *)
Theorem extract_newsletter_metadata_outcome (email_data : EmailData.t) :
  (∀ e, domain_of email_data = inl e →
        metadata_of email_data = inl e
        ∧ ∃ message,
            e = ValueError message
            ∧ netloc ("http://"
                      +:+ after_last_at (EmailData.sender_email email_data))
              = inl message)
  ∧ (∀ domain, domain_of email_data = inr domain →
       (EmailData.content_text email_data = None →
        metadata_of email_data = inl TypeError)
       ∧ (∀ text, EmailData.content_text email_data = Some text →
            ∃ metadata category,
              metadata_of email_data = inr metadata
              ∧ Metadata.domain metadata = domain
              ∧ Metadata.sender_email metadata
                = EmailData.sender_email email_data
              ∧ Metadata.sender_name metadata
                = EmailData.sender_name email_data
              ∧ Metadata.average_length metadata
                = EmailData.content_length email_data
              ∧ Metadata.category metadata = Some category
              ∧ category ∈ "General" :: categories.*1
              ∧ Metadata.publication_frequency metadata
                = estimate_publication_frequency email_data))
  ∧ (contains "@" (EmailData.sender_email email_data) = false →
     domain_of email_data = inr "").
Proof.
  split; [|split].
  - intros e Hd. split; [apply metadata_domain_raises, Hd|].
    apply sender_domain_raises in Hd as (_ & message & He & Hn). eauto.
  - intros domain Hd. split.
    + apply metadata_no_text with domain. exact Hd.
    + intros text Ht. apply metadata_text with text; assumption.
  - intros Hat. unfold sender_domain. rewrite Hat. reflexivity.
Qed.

End Outcome.

(** A sender whose domain opens a bracket that it does not close: the
    [ValueError] comes before the categorizer is asked. *)
Lemma extract_newsletter_metadata_outcome_witness :
  extract_newsletter_metadata (λ _, None)
    (λ url, if contains "[" url then inl "Invalid IPv6 URL" else inr url)
    (EmailData.mk "18c2f" "18c2f" ["INBOX"] "" 0 "news@[example" None
       "Money and startup" None None 0 "" 0 true)
  = inl (ValueError "Invalid IPv6 URL")
  ∧ ∃ metadata,
      extract_newsletter_metadata (λ _, None)
        (λ url, if contains "[" url then inl "Invalid IPv6 URL" else inr url)
        Examples.tie_email
      = inr metadata
      ∧ Metadata.category metadata = Some "Technology".
Proof.
  split.
  - apply (extract_newsletter_metadata_outcome (λ _, None)
             (λ url, if contains "[" url then inl "Invalid IPv6 URL"
                     else inr url)).
    vm_compute. reflexivity.
  - destruct (proj1 (proj2 (extract_newsletter_metadata_outcome (λ _, None)
                              (λ url, if contains "[" url
                                      then inl "Invalid IPv6 URL" else inr url)
                              Examples.tie_email))
                "http://example.com" eq_refl) as [_ Hsome].
    destruct (Hsome "software" eq_refl)
      as (metadata & category & Heq & _ & _ & _ & _ & Hcat & _).
    exists metadata. split; [exact Heq|].
    rewrite Hcat. vm_compute in Heq. injection Heq as <-.
    vm_compute in Hcat. exact (eq_sym Hcat).
Defined.

End MetadataRange.

(* ================================================================== *)
(** * Further properties of the content extractor *)
(* ================================================================== *)

Module ExtractionMore.
Import Py Gmail Inv.

Lemma fill_Some (c : string) (contents : list string) :
  is_Some (fill (Some c) contents).
Proof.
  revert c. induction contents as [|d ds IH]; intros c; [eauto|].
  unfold fill. cbn [foldl]. destruct (truthy (Some c)); apply IH.
Qed.

Lemma fill_None (contents : list string) :
  fill None contents = None ↔ contents = [].
Proof.
  split; [|intros ->; reflexivity].
  destruct contents as [|c cs]; [reflexivity|].
  intros H. destruct (fill_Some c cs) as [x Hx].
  unfold fill in *. cbn [foldl] in H. simpl truthy in H. cbn iota in H.
  congruence.
Qed.

Section Extract.
Variable decode : string -> string.
Variable get_text : string -> option string.

Lemma offered_filter (mime : string) (ps : list Part) :
  mime = "text/plain" ∨ mime = "text/html" →
  Spec.offered decode mime (filter (λ p, carries_text p = true) ps)
  = Spec.offered decode mime ps.
Proof.
  intros Hmime. induction ps as [|p ps IH]; [reflexivity|].
  rewrite filter_cons. unfold carries_text at 1.
  destruct (decide _) as [Hp|Hp].
  - unfold Spec.offered in *. cbn [omap list_omap]. rewrite IH. reflexivity.
  - unfold Spec.offered in *. cbn [omap list_omap]. rewrite IH.
    destruct (body_data p) as [data|].
    + destruct (String.eqb (mimeType p) mime) eqn:E; [|reflexivity].
      apply String.eqb_eq in E. exfalso. apply Hp.
      rewrite E. destruct Hmime as [->| ->]; reflexivity.
    + destruct (String.eqb (mimeType p) mime); reflexivity.
Qed.

(** The extracted text is absent exactly when no visited text/plain part
    carries data and no visited text/html part has non-empty content; the
    extracted HTML is absent exactly when no visited text/html part carries
    data; and a non-empty HTML never comes without a text. *)
Theorem content_text_absent_iff (payload : Part) :
  let texts := Spec.offered decode "text/plain" (Spec.visited payload) in
  let htmls := Spec.offered decode "text/html" (Spec.visited payload) in
  let result := extract_message_body decode get_text payload in
  (result.1 = None ↔ texts = [] ∧ Spec.first_nonempty htmls = None)
  ∧ (result.2 = None ↔ htmls = [])
  ∧ (truthy result.2 = true → is_Some result.1).
Proof.
  intros texts htmls result. subst result.
  rewrite ExtractionFacts.extract_message_body_visited.
  unfold Spec.extract_over. rewrite ExtractionFacts.foldl_step_fill.
  fold texts. fold htmls.
  pose proof (ExtractionFacts.fill_first_nonempty None htmls eq_refl) as Hh.
  pose proof (fill_None texts) as Ht.
  pose proof (fill_None htmls) as Hh0.
  destruct (Spec.first_nonempty htmls) as [h|].
  - destruct Hh as [Hh Hne]. rewrite Hh in *. cbn [fst snd].
    apply ExtractionFacts.str_truthy_nonempty in Hne. rewrite Hne.
    rewrite andb_true_r.
    assert (Hhtml : Some h = None ↔ htmls = [])
      by (split; [discriminate|intros E; apply Hh0 in E; discriminate]).
    destruct (fill None texts) as [t|] eqn:Et;
      [destruct (truthy (Some t)) eqn:Ett|simpl truthy];
      cbn [negb]; cbv iota; (split; [|split]); try exact Hhtml; eauto;
      split; try discriminate; intros [_ E]; discriminate.
  - destruct (fill None htmls) as [html|] eqn:Eh; cbn [fst snd].
    + simpl in Hh. rewrite Hh, andb_false_r.
      split; [|split]; [|exact Hh0|].
      * rewrite Ht. intuition.
      * simpl truthy. rewrite Hh. discriminate.
    + split; [|split]; [|exact Hh0|discriminate].
      rewrite Ht. intuition.
Qed.

Lemma offered_nothing (mime : string) (ps : list Part) :
  mime = "text/plain" ∨ mime = "text/html" →
  Forall (λ p, carries_text p = false) ps → Spec.offered decode mime ps = [].
Proof.
  intros Hmime Hall. rewrite <- (offered_filter mime ps Hmime).
  induction Hall as [|p ps Hp _ IH]; [reflexivity|].
  rewrite filter_cons_False by (rewrite Hp; discriminate). exact IH.
Qed.

Lemma extract_nothing (payload : Part) :
  Forall (λ p, carries_text p = false) (Spec.visited payload) →
  extract_message_body decode get_text payload = (None, None).
Proof.
  intros Hall. rewrite ExtractionFacts.extract_message_body_visited.
  unfold Spec.extract_over. rewrite ExtractionFacts.foldl_step_fill.
  rewrite !offered_nothing by auto. reflexivity.
Qed.

(** Parts without body data and parts of any MIME type other than
    text/plain and text/html never influence the result: leaving them out
    of the visited parts changes nothing. *)
Theorem other_parts_ignored (payload : Part) :
  extract_message_body decode get_text payload
  = Spec.extract_over decode get_text
      (filter (λ p, carries_text p = true) (Spec.visited payload)).
Proof.
  rewrite ExtractionFacts.extract_message_body_visited.
  unfold Spec.extract_over. rewrite !ExtractionFacts.foldl_step_fill.
  rewrite !offered_filter by auto. reflexivity.
Qed.

End Extract.

End ExtractionMore.

(* ================================================================== *)
(** * A failing page request *)
(* ================================================================== *)

Module ListingFailure.
Import Py Gmail Inv.

#[local] Arguments Nat.min : simpl never.

(** The ids of the pages, in order. *)
#[local] Abbreviation collected pages :=
  (concat ((λ page : option (list MessageRef) * string, default [] page.1)
             <$> pages)).

Lemma list_loop_chain (max_results : nat)
    (pages : list (option (list MessageRef) * string)) :
  Forall (λ page, str_truthy page.2 = true) pages →
  ∀ messages page_token log,
    ((length (messages ++ collected pages) < max_results)%nat →
     (list_loop max_results (chain pages Fails) messages page_token log).1
     = inl HttpError
     ∧ length (list_loop max_results (chain pages Fails) messages page_token
                 log).2
       = (length log + S (length pages))%nat)
    ∧ ((max_results ≤ length (messages ++ collected pages))%nat →
       ∃ messages',
         (list_loop max_results (chain pages Fails) messages page_token log).1
         = inr messages'
         ∧ take max_results messages'
           = take max_results (messages ++ collected pages)).
Proof.
  induction 1 as [|page pages Htoken _ IH]; intros messages page_token log.
  - cbn [chain foldr fmap list_fmap concat]. rewrite app_nil_r.
    cbn [list_loop].
    destruct (Nat.ltb_spec (length messages) max_results) as [Hlt|Hge].
    + split; [|lia]. intros _. cbn [fst snd]. split; [reflexivity|].
      rewrite length_app. simpl. lia.
    + split; [lia|]. intros _. exists messages. split; reflexivity.
  - destruct page as [batch token]. cbn [fst snd] in *.
    change (chain ((batch, token) :: pages) Fails)
      with (NextPage batch token (chain pages Fails)).
    rewrite fmap_cons. cbn [concat fst]. rewrite app_assoc.
    cbn [list_loop]. rewrite Htoken.
    destruct (Nat.ltb_spec (length messages) max_results) as [Hlt|Hge].
    + destruct (IH (messages ++ default [] batch) (Some token)
                  (log ++ [{| pageToken := page_token;
                              maxResults :=
                                Nat.min 500 (max_results - length messages) |}]))
        as [IH1 IH2].
      split.
      * intros Hshort. destruct (IH1 Hshort) as [Hres Hlen].
        split; [exact Hres|]. rewrite Hlen, length_app. simpl. lia.
      * exact IH2.
    + split.
      * rewrite !length_app. lia.
      * intros _. exists messages. split; [reflexivity|].
        rewrite <- app_assoc, take_app_le by lia. reflexivity.
Qed.

(** When the provider answers some pages, each with a token, and the next
    request fails: if the pages together hold fewer ids than the budget,
    the failing request is sent and the listing returns no id at all, the
    ids of the earlier pages included; if they hold at least the budget,
    the failing request is never sent and the first [max_results] ids are
    returned. *)
Theorem list_messages_failure_discards (max_results : nat)
    (pages : list (option (list MessageRef) * string)) :
  Forall (λ page, str_truthy page.2 = true) pages →
  let result := list_messages true (chain pages Fails) max_results in
  ((length (collected pages) < max_results)%nat →
   result.1 = [] ∧ length result.2 = S (length pages))
  ∧ ((max_results ≤ length (collected pages))%nat →
     result.1 = take max_results (collected pages)).
Proof.
  intros Htokens result. subst result. unfold list_messages. cbn [negb].
  destruct (list_loop_chain max_results pages Htokens [] None []) as [H1 H2].
  rewrite app_nil_l in H1, H2.
  destruct (list_loop max_results (chain pages Fails) [] None [])
    as [[e|messages] log]; cbn [fst snd] in *.
  - split.
    + intros Hshort. destruct (H1 Hshort) as [_ Hlen]. split; [reflexivity|].
      exact Hlen.
    + intros Hfull. destruct (H2 Hfull) as (m & Hm & _). discriminate.
  - split.
    + intros Hshort. destruct (H1 Hshort) as [Hres _]. discriminate.
    + intros Hfull. destruct (H2 Hfull) as (m & Hm & Htake).
      injection Hm as <-. exact Htake.
Qed.

(** Two pages of 25 ids and then a failure: with a budget of 60 nothing is
    returned after three requests; with a budget of 37 the failure is never
    met. *)
Lemma list_messages_failure_discards_witness :
  (list_messages true
     (chain [(Some (Examples.ref <$> List.seq 0%nat 25%nat), "p2");
             (Some (Examples.ref <$> List.seq 25%nat 25%nat), "p3")] Fails) 60).1 = []
  ∧ (list_messages true
       (chain [(Some (Examples.ref <$> List.seq 0%nat 25%nat), "p2");
               (Some (Examples.ref <$> List.seq 25%nat 25%nat), "p3")] Fails) 37).1
    = Examples.ref <$> List.seq 0%nat 37%nat.
Proof.
  assert (Htokens : Forall (λ page : option (list MessageRef) * string,
                              str_truthy page.2 = true)
                      [(Some (Examples.ref <$> List.seq 0%nat 25%nat), "p2");
                       (Some (Examples.ref <$> List.seq 25%nat 25%nat), "p3")])
    by (repeat constructor).
  destruct (list_messages_failure_discards 60 _ Htokens) as [H60 _].
  destruct (list_messages_failure_discards 37 _ Htokens) as [_ H37].
  split.
  - apply H60. vm_compute. lia.
  - rewrite H37; [reflexivity|]. vm_compute. lia.
Defined.

End ListingFailure.

(* ================================================================== *)
(** * The outcome of [sync_emails] *)
(* ================================================================== *)

Module SyncEmailsFacts.
Import Py Gmail Inv.

Section SyncEmails.
Variable decode : string -> string.
Variable get_text : string -> option string.
Variable parsedate_to_datetime : string -> option Z.
Variable parseaddr : string -> string * string.
Variable now : Z.
Variable guess_newsletter_title : EmailData.t -> option string.
Variable netloc : string -> string + string.
Variable fetch : string -> option Message.t.

#[local] Abbreviation details :=
  (λ message : MessageRef,
     get_message_details decode get_text parsedate_to_datetime parseaddr now
       fetch (ref_id message)).
#[local] Abbreviation metadata_of :=
  (extract_newsletter_metadata guess_newsletter_title netloc).
#[local] Abbreviation loop :=
  (sync_loop decode get_text parsedate_to_datetime parseaddr now
     guess_newsletter_title netloc fetch).
#[local] Abbreviation flagged :=
  (λ email_data : EmailData.t, EmailData.is_newsletter email_data = true).
(** The text content is present and the domain of the sender can be
    computed. *)
#[local] Abbreviation readable :=
  (λ email_data : EmailData.t,
     is_Some (EmailData.content_text email_data)
     ∧ ∃ domain,
         sender_domain netloc (EmailData.sender_email email_data)
         = inr domain).

Lemma sync_loop_outcome (messages : list MessageRef) :
  ∀ processed detected,
    (Forall (λ e, flagged e → readable e) (omap details messages) →
     ∃ new,
       loop messages processed detected
       = inr (processed ++ omap details messages, detected ++ new)
       ∧ new.*1 = filter flagged (omap details messages)
       ∧ Forall (λ entry, metadata_of entry.1 = inr entry.2) new)
    ∧ (∀ before e after x,
         omap details messages = before ++ e :: after →
         Forall (λ e, flagged e → readable e) before →
         flagged e → metadata_of e = inl x →
         loop messages processed detected = inl x).
Proof.
  induction messages as [|message rest IH]; intros processed detected.
  - split.
    + intros _. exists []. rewrite !app_nil_r. repeat split. constructor.
    + intros [|e0 before] e after x Heq; discriminate.
  - cbn [sync_loop omap list_omap].
    destruct (details message) as [email_data|] eqn:Hd; [|apply IH].
    destruct (EmailData.is_newsletter email_data) eqn:Hflag.
    + split.
      * intros Hall. apply Forall_cons in Hall as [Hhead Hrest].
        destruct (proj2 (MetadataRange.metadata_readable
                           guess_newsletter_title netloc email_data)
                    (Hhead Hflag)) as [metadata Hm].
        rewrite Hm. cbn [bind].
        destruct (proj1 (IH (processed ++ [email_data])
                           (detected ++ [(email_data, metadata)])) Hrest)
          as (new & Hloop & Hfst & Hmeta).
        exists ((email_data, metadata) :: new).
        rewrite Hloop, <- !app_assoc. split; [reflexivity|]. split.
        -- rewrite fmap_cons, filter_cons_True by exact Hflag.
           rewrite Hfst. reflexivity.
        -- constructor; [exact Hm|exact Hmeta].
      * intros [|e0 before] e after x Heq Hall Hf Hx.
        -- injection Heq as <- _. rewrite Hx. reflexivity.
        -- injection Heq as <- Heq.
           apply Forall_cons in Hall as [Hhead Hrest].
           destruct (proj2 (MetadataRange.metadata_readable
                              guess_newsletter_title netloc email_data)
                       (Hhead Hflag)) as [metadata Hm].
           rewrite Hm. cbn [bind].
           apply (proj2 (IH _ _) before e after x Heq Hrest Hf Hx).
    + split.
      * intros Hall. apply Forall_cons in Hall as [_ Hrest].
        destruct (proj1 (IH (processed ++ [email_data]) detected) Hrest)
          as (new & Hloop & Hfst & Hmeta).
        exists new. rewrite Hloop, <- app_assoc. split; [reflexivity|].
        split; [|exact Hmeta].
        rewrite filter_cons_False; [exact Hfst|]. rewrite Hflag. discriminate.
      * intros [|e0 before] e after x Heq Hall Hf Hx.
        -- injection Heq as <- _. rewrite Hflag in Hf. discriminate.
        -- injection Heq as <- Heq.
           apply Forall_cons in Hall as [_ Hrest].
           apply (proj2 (IH _ _) before e after x Heq Hrest Hf Hx).
Qed.

(** A flagged message that cannot be read ends the loop with an
    exception, wherever it stands. *)
Lemma sync_loop_raises (messages : list MessageRef) :
  ∀ processed detected,
    Exists (λ e, flagged e ∧ ¬ readable e) (omap details messages) →
    ∃ x, loop messages processed detected = inl x.
Proof.
  induction messages as [|message rest IH]; intros processed detected Hex.
  - inversion Hex.
  - cbn [sync_loop omap list_omap] in *.
    destruct (details message) as [email_data|] eqn:Hd; [|apply IH, Hex].
    destruct (EmailData.is_newsletter email_data) eqn:Hflag.
    + destruct (metadata_of email_data) as [x|metadata] eqn:Hm;
        cbn [bind]; [eauto|].
      apply IH. apply Exists_cons in Hex as [[_ Hbad]|Hex]; [|exact Hex].
      exfalso. apply Hbad.
      apply (MetadataRange.metadata_readable guess_newsletter_title netloc).
      eauto.
    + apply IH. apply Exists_cons in Hex as [[Hf _]|Hex]; [|exact Hex].
      rewrite Hflag in Hf. discriminate.
Qed.

Lemma omap_length_le {A B} (f : A → option B) (l : list A) :
  (length (omap f l) ≤ length l)%nat.
Proof.
  induction l as [|a l IH]; [reflexivity|].
  cbn [omap list_omap]. destruct (f a); simpl; lia.
Qed.

Lemma list_messages_length (service : bool) (srv : Pages) (max_results : nat) :
  (length (list_messages service srv max_results).1 ≤ max_results)%nat.
Proof.
  unfold list_messages. destruct service; cbn [negb]; [|simpl; lia].
  destruct (list_loop max_results srv [] None []) as [[e|messages] log];
    cbn [fst]; [simpl; lia|]. rewrite length_take. lia.
Qed.

(** An authenticated synchronization looks at the messages the listing
    returns and processes those whose details can be fetched, at most
    [max_emails] of them; a message whose details cannot be fetched is
    skipped.  Call a message readable when its text content is present and
    [urlparse] accepts the domain of its sender.  When every processed
    message that is flagged as a newsletter is readable, the run succeeds:
    it reports all processed messages, and as newsletters exactly the
    flagged ones, in order, each with the metadata extracted from it.
    Otherwise the run is reported as an error and nothing of what was
    processed is returned; the error text is the message of the exception
    raised for the first flagged message that is not readable, the
    [ValueError] of [urlparse] or else the [TypeError] of the
    concatenation with [None]. *)
Theorem sync_emails_outcome (srv : Pages) (max_emails : nat) :
  let fetched := omap details (list_messages true srv max_emails).1 in
  let outcome :=
    sync_emails decode get_text parsedate_to_datetime parseaddr now
      guess_newsletter_title netloc fetch true srv max_emails in
  (length fetched ≤ max_emails)%nat
  ∧ (Forall (λ e, flagged e → readable e) fetched →
     ∃ newsletters,
       outcome = SyncSuccess fetched newsletters
       ∧ newsletters.*1 = filter flagged fetched
       ∧ Forall (λ entry, metadata_of entry.1 = inr entry.2) newsletters)
  ∧ (∀ before e after,
       fetched = before ++ e :: after →
       Forall (λ e, flagged e → readable e) before →
       flagged e → ¬ readable e →
       ∃ x, metadata_of e = inl x
            ∧ outcome = SyncError (str_of_exn x)
            ∧ (x = TypeError ∨ ∃ message, x = ValueError message)).
Proof.
  intros fetched outcome. subst outcome. unfold sync_emails. cbn [negb].
  destruct (sync_loop_outcome (list_messages true srv max_emails).1 [] [])
    as [Hok Hbad].
  fold fetched in Hok, Hbad. split; [|split].
  - subst fetched. etransitivity; [|apply (list_messages_length true srv)].
    apply omap_length_le.
  - intros Hall. destruct (Hok Hall) as (new & Hloop & Hfst & Hmeta).
    rewrite Hloop. exists new. auto.
  - intros before e after Heq Hall Hf Hnot.
    destruct (metadata_of e) as [x|metadata] eqn:Hm.
    2:{ exfalso. apply Hnot.
        apply (MetadataRange.metadata_readable guess_newsletter_title netloc).
        eauto. }
    exists x. split; [reflexivity|].
    rewrite (Hbad before e after x Heq Hall Hf Hm). split; [reflexivity|].
    destruct (sender_domain netloc (EmailData.sender_email e))
      as [y|domain] eqn:Hd.
    + rewrite (MetadataRange.metadata_domain_raises _ _ _ _ Hd) in Hm.
      injection Hm as <-.
      apply MetadataRange.sender_domain_raises in Hd as (_ & message & -> & _).
      eauto.
    + destruct (EmailData.content_text e) as [text|] eqn:Ht.
      * exfalso. apply Hnot. eauto.
      * rewrite (MetadataRange.metadata_no_text _ _ _ _ Hd Ht) in Hm.
        injection Hm as <-. left. reflexivity.
Qed.

End SyncEmails.

End SyncEmailsFacts.

(* ================================================================== *)
(** * The life of an email connection *)
(* ================================================================== *)

Module TableFacts.

(** Writing back a row that satisfies the search predicate exactly when the
    row it replaces does: the search finds the same position, and the new
    row when that position is the one written. *)
Lemma list_find_insert_same {A} (P : A → Prop) `{∀ x, Decision (P x)}
    (l : list A) (i : nat) (x x' : A) :
  l !! i = Some x → (P x ↔ P x') →
  list_find P (<[i := x']> l)
  = (λ p : nat * A, (p.1, if decide (p.1 = i) then x' else p.2))
      <$> list_find P l.
Proof.
  intros Hi Hagree. destruct (list_find P l) as [[j y]|] eqn:Hfind.
  - exact (SyncFacts.list_find_insert_agree P l i x x' Hi Hagree j y Hfind).
  - simpl. apply list_find_None. apply list_find_None in Hfind.
    apply Forall_insert; [exact Hfind|]. intros Hx'.
    eapply Forall_lookup_1 in Hfind; [|exact Hi]. apply Hfind, Hagree, Hx'.
Qed.

End TableFacts.

Module ConnectionFacts.
Import Py Crud Inv.

Lemma connection_written (db : DB) (user_id : Z) (i : nat)
    (c c' : EmailConnection.t) :
  get_email_connection db user_id = Some (i, c) →
  EmailConnection.user_id c' = EmailConnection.user_id c →
  let db' := with_email_connections (<[i := c']> (email_connections db)) db in
  get_email_connection db' user_id = Some (i, c')
  ∧ (∀ other, other ≠ user_id →
       get_email_connection db' other = get_email_connection db other)
  ∧ length (email_connections db') = length (email_connections db)
  ∧ newsletters db' = newsletters db
  ∧ user_newsletters db' = user_newsletters db
  ∧ newsletter_emails db' = newsletter_emails db.
Proof.
  intros Hfind Hsame db'. subst db'. unfold get_email_connection in *.
  cbn [email_connections with_email_connections newsletters user_newsletters
       newsletter_emails].
  pose proof Hfind as Hfound.
  apply list_find_Some in Hfound as (Hi & Hu & _).
  split; [|split; [|split; [apply length_insert|auto]]].
  - rewrite (TableFacts.list_find_insert_same _ _ i c c' Hi)
      by (rewrite Hsame; reflexivity).
    rewrite Hfind. simpl. rewrite decide_True by reflexivity. reflexivity.
  - intros other Hother.
    rewrite (TableFacts.list_find_insert_same _ _ i c c' Hi)
      by (rewrite Hsame; reflexivity).
    destruct (list_find (λ c0, EmailConnection.user_id c0 = other)
                (email_connections db)) as [[j y]|] eqn:Ho; [|reflexivity].
    simpl. destruct (decide (j = i)) as [->|Hne]; [|reflexivity].
    apply list_find_Some in Ho as (Hj & Hy & _).
    rewrite Hi in Hj. injection Hj as <-. congruence.
Qed.

Lemma update_status_found (db : DB) (now : Z) (user_id : Z) (status : string)
    (error_message : option string) (i : nat) (c : EmailConnection.t) :
  get_email_connection db user_id = Some (i, c) →
  ∃ c',
    update_email_connection_status db now user_id status error_message
    = (with_email_connections (<[i := c']> (email_connections db)) db, Some c')
    ∧ EmailConnection.user_id c' = EmailConnection.user_id c
    ∧ EmailConnection.is_connected c' = String.eqb status "connected"
    ∧ EmailConnection.connection_status c' = status
    ∧ EmailConnection.last_error c' = error_message
    ∧ EmailConnection.last_sync_at c'
      = (if String.eqb status "connected" then Some now
         else EmailConnection.last_sync_at c)
    ∧ EmailConnection.access_token c' = EmailConnection.access_token c
    ∧ EmailConnection.refresh_token c' = EmailConnection.refresh_token c
    ∧ EmailConnection.email_address c' = EmailConnection.email_address c.
Proof.
  intros Hfind. unfold update_email_connection_status. rewrite Hfind.
  eexists. split; [reflexivity|].
  destruct (String.eqb status "connected"); cbn; repeat split.
Qed.

(** What one status update does to the lookups. *)
Lemma update_status_lookup (db : DB) (now : Z) (user_id : Z) (status : string)
    (error_message : option string) :
  let db' := (update_email_connection_status db now user_id status
                error_message).1 in
  (∀ other, other ≠ user_id →
     get_email_connection db' other = get_email_connection db other)
  ∧ (get_email_connection db user_id = None → db' = db)
  ∧ (∀ i c, get_email_connection db user_id = Some (i, c) →
       ∃ c',
         get_email_connection db' user_id = Some (i, c')
         ∧ EmailConnection.is_connected c' = String.eqb status "connected"
         ∧ EmailConnection.connection_status c' = status
         ∧ EmailConnection.last_error c' = error_message
         ∧ EmailConnection.last_sync_at c'
           = (if String.eqb status "connected" then Some now
              else EmailConnection.last_sync_at c)
         ∧ EmailConnection.access_token c' = EmailConnection.access_token c
         ∧ EmailConnection.refresh_token c' = EmailConnection.refresh_token c
         ∧ EmailConnection.email_address c'
           = EmailConnection.email_address c).
Proof.
  intros db'. subst db'.
  destruct (get_email_connection db user_id) as [[i c]|] eqn:Hfind.
  - destruct (update_status_found db now user_id status error_message i c
                Hfind) as (c' & Heq & Hu & Hrest).
    rewrite Heq. cbn [fst].
    destruct (connection_written db user_id i c c' Hfind Hu)
      as (Hget & Hother & _).
    split; [exact Hother|]. split; [discriminate|].
    intros i0 c0 [= <- <-]. exists c'. split; [exact Hget|exact Hrest].
  - rewrite (CrudFacts.update_email_connection_status_absent _ _ _ _ _ Hfind).
    cbn [fst]. split; [reflexivity|]. split; [reflexivity|discriminate].
Qed.

Lemma process_newsletters_connections (user_id : Z) (now : Z)
    (items : list (EmailData.t * Metadata.t)) :
  ∀ st : DB * nat,
    email_connections (foldl (Sync.process_newsletter user_id now) st items).1
    = email_connections st.1.
Proof.
  induction items as [|item items IH]; intros [db k]; [reflexivity|].
  cbn [foldl]. rewrite IH.
  apply (SyncFacts.process_newsletter_settles user_id now db k item).
Qed.

#[local] Abbreviation refusal :=
  {| Api.status_code := 400; Api.detail := "Gmail account not connected" |}.

Lemma sync_refused (db : DB) (user_id : Z) :
  (∀ i c, get_email_connection db user_id = Some (i, c) →
          EmailConnection.is_connected c = false) →
  ∀ now authenticated sync_result,
    Api.sync_request db now user_id authenticated sync_result
    = (inl refusal, db).
Proof.
  intros H now authenticated sync_result. unfold Api.sync_request, Api.sync_emails.
  destruct (get_email_connection db user_id) as [[i c]|]; [|reflexivity].
  rewrite (H i c eq_refl). reflexivity.
Qed.

(** A background run and the connection.  The connection of another user
    is never touched.  A run that stops before the loop over the detected
    newsletters (the mailbox refuses the tokens, or [sync_emails] reports
    an error) stores nothing, records the error on the connection, keeps
    the time of the last synchronization and leaves the connection not
    connected, so every later sync request of the user is refused with
    status 400 and changes nothing. *)
Theorem sync_user_emails_status (db : DB) (now : Z) (user_id : Z)
    (authenticated : bool) (sync_result : Gmail.SyncResult) :
  let db' := Sync.sync_user_emails db now user_id authenticated sync_result in
  (∀ other, other ≠ user_id →
     get_email_connection db' other = get_email_connection db other)
  ∧ (enters_loop authenticated sync_result = false →
     newsletters db' = newsletters db
     ∧ user_newsletters db' = user_newsletters db
     ∧ newsletter_emails db' = newsletter_emails db
     ∧ (∀ i c, get_email_connection db user_id = Some (i, c) →
          ∃ c', get_email_connection db' user_id = Some (i, c')
                ∧ EmailConnection.connection_status c' = "error"
                ∧ is_Some (EmailConnection.last_error c')
                ∧ EmailConnection.last_sync_at c'
                  = EmailConnection.last_sync_at c)
     ∧ (∀ now' authenticated' sync_result',
          Api.sync_request db' now' user_id authenticated' sync_result'
          = (inl refusal, db'))).
Proof.
  intros db'.
  set (db1 := (update_email_connection_status db now user_id "syncing" None).1).
  destruct (update_status_lookup db now user_id "syncing" None)
    as (Hother1 & Hnone1 & Hsome1). fold db1 in Hother1, Hnone1, Hsome1.
  destruct (SyncFacts.update_email_connection_status_tables db now user_id
              "syncing" None) as (Hn1 & Hs1 & He1).
  fold db1 in Hn1, Hs1, He1.
  assert (Hfail : ∀ message,
            let db2 := (update_email_connection_status db1 now user_id "error"
                          (Some message)).1 in
            (∀ other, other ≠ user_id →
               get_email_connection db2 other = get_email_connection db other)
            ∧ newsletters db2 = newsletters db
            ∧ user_newsletters db2 = user_newsletters db
            ∧ newsletter_emails db2 = newsletter_emails db
            ∧ (∀ i c, get_email_connection db user_id = Some (i, c) →
                 ∃ c', get_email_connection db2 user_id = Some (i, c')
                       ∧ EmailConnection.connection_status c' = "error"
                       ∧ is_Some (EmailConnection.last_error c')
                       ∧ EmailConnection.last_sync_at c'
                         = EmailConnection.last_sync_at c)
            ∧ (∀ now' authenticated' sync_result',
                 Api.sync_request db2 now' user_id authenticated' sync_result'
                 = (inl refusal, db2))).
  { intros message db2.
    destruct (update_status_lookup db1 now user_id "error" (Some message))
      as (Hother2 & Hnone2 & Hsome2). fold db2 in Hother2, Hnone2, Hsome2.
    destruct (SyncFacts.update_email_connection_status_tables db1 now user_id
                "error" (Some message)) as (Hn2 & Hs2 & He2).
    fold db2 in Hn2, Hs2, He2.
    split; [intros other Ho; rewrite Hother2, Hother1 by exact Ho; reflexivity|].
    split; [congruence|]. split; [congruence|]. split; [congruence|].
    split.
    - intros i c Hfind.
      destruct (Hsome1 i c Hfind) as (c1 & Hget1 & _ & _ & _ & Hsync1 & _).
      destruct (Hsome2 i c1 Hget1) as (c2 & Hget2 & _ & Hst & Herr & Hsync2 & _).
      exists c2. split; [exact Hget2|]. split; [exact Hst|].
      split; [rewrite Herr; eauto|].
      rewrite Hsync2, Hsync1. reflexivity.
    - apply sync_refused. intros i c2 Hget2.
      destruct (get_email_connection db1 user_id) as [[i1 c1]|] eqn:Hget1.
      + destruct (Hsome2 i1 c1 eq_refl) as (c2' & Hget2' & Hconn & _).
        rewrite Hget2 in Hget2'. injection Hget2' as _ <-. exact Hconn.
      + rewrite (Hnone2 eq_refl), Hget1 in Hget2. discriminate. }
  subst db'. unfold Sync.sync_user_emails. fold db1.
  destruct authenticated; cbn [negb enters_loop andb].
  2:{ destruct (Hfail "Authentication failed") as (Ho & Hrest).
      split; [exact Ho|]. intros _. exact Hrest. }
  destruct sync_result as [|error|processed items].
  - destruct (Hfail "'status'") as (Ho & Hrest).
    split; [exact Ho|]. intros _. exact Hrest.
  - destruct (Hfail error) as (Ho & Hrest).
    split; [exact Ho|]. intros _. exact Hrest.
  - unfold Sync.process_newsletters.
    pose proof (process_newsletters_connections user_id now items (db1, 0%nat))
      as Hconn.
    destruct (foldl _ _ items) as [db2 k]. cbn [fst] in Hconn.
    assert (Hget2 : ∀ u, get_email_connection db2 u = get_email_connection db1 u)
      by (intros u; unfold get_email_connection; rewrite Hconn; reflexivity).
    destruct (update_status_lookup db2 now user_id "connected" None)
      as (Hother3 & _ & _).
    split; [|discriminate].
    intros other Ho. rewrite Hother3, Hget2, Hother1 by exact Ho. reflexivity.
Qed.

Lemma fmap_insert_same {A B} (f : A → B) (l : list A) (i : nat) (x x' : A) :
  l !! i = Some x → f x' = f x → f <$> <[i := x']> l = f <$> l.
Proof.
  intros Hi Hf. rewrite list_fmap_insert, Hf. apply list_insert_id.
  rewrite list_lookup_fmap, Hi. reflexivity.
Qed.

Lemma connection_added (db : DB) (user_id : Z) (c : EmailConnection.t) :
  get_email_connection db user_id = None →
  EmailConnection.user_id c = user_id →
  let db' := with_email_connections (email_connections db ++ [c]) db in
  get_email_connection db' user_id = Some (length (email_connections db), c)
  ∧ (∀ other, other ≠ user_id →
       get_email_connection db' other = get_email_connection db other)
  ∧ (NoDup (EmailConnection.user_id <$> email_connections db) →
     NoDup (EmailConnection.user_id <$> email_connections db')).
Proof.
  intros Hnone Hu db'. subst db'. unfold get_email_connection in *.
  cbn [email_connections with_email_connections].
  split; [|split].
  - apply SyncFacts.list_find_snoc_new; assumption.
  - intros other Hother.
    destruct (list_find (λ c0, EmailConnection.user_id c0 = other)
                (email_connections db)) as [[j y]|] eqn:Ho.
    + apply list_find_app_l. exact Ho.
    + rewrite list_find_app_r by exact Ho. cbn [list_find].
      rewrite decide_False by congruence. reflexivity.
  - intros Hnd. rewrite fmap_app. apply NoDup_app. split; [exact Hnd|].
    split; [|apply NoDup_singleton].
    intros u Hin Hin'. apply list_elem_of_singleton in Hin'. subst u.
    apply list_elem_of_fmap in Hin as (c0 & Hc0 & Hin).
    apply list_find_None in Hnone.
    eapply Forall_forall in Hnone; [|exact Hin]. congruence.
Qed.

(** Disconnecting.  The connection of another user and the other tables
    are never touched, and no row is removed.  Without a connection the
    answer is 404 and nothing changes.  With one, the row stays in place
    with its address and its last synchronization, its three token columns
    are emptied and its status is 'disconnected'.  Either way every sync
    request that follows is refused with status 400. *)
Theorem disconnect_email_clears (db : DB) (user_id : Z) :
  let r := Api.disconnect_email db user_id in
  (∀ other, other ≠ user_id →
     get_email_connection r.2 other = get_email_connection db other)
  ∧ newsletters r.2 = newsletters db
  ∧ user_newsletters r.2 = user_newsletters db
  ∧ newsletter_emails r.2 = newsletter_emails db
  ∧ length (email_connections r.2) = length (email_connections db)
  ∧ (get_email_connection db user_id = None →
     r = (inl {| Api.status_code := 404;
                 Api.detail := "No email connection found" |}, db))
  ∧ (∀ i c, get_email_connection db user_id = Some (i, c) →
       r.1 = inr "Email account disconnected successfully"
       ∧ ∃ c', get_email_connection r.2 user_id = Some (i, c')
               ∧ EmailConnection.access_token c' = None
               ∧ EmailConnection.refresh_token c' = None
               ∧ EmailConnection.token_expires_at c' = None
               ∧ EmailConnection.connection_status c' = "disconnected"
               ∧ EmailConnection.email_address c'
                 = EmailConnection.email_address c
               ∧ EmailConnection.last_sync_at c'
                 = EmailConnection.last_sync_at c)
  ∧ (∀ now authenticated sync_result,
       Api.sync_request r.2 now user_id authenticated sync_result
       = (inl refusal, r.2)).
Proof.
  intros r. subst r. unfold Api.disconnect_email, disconnect_email.
  destruct (get_email_connection db user_id) as [[i c]|] eqn:Hfind.
  - cbn [negb fst snd].
    match goal with
    | |- context [<[i := ?row]> _] => set (c' := row)
    end.
    destruct (connection_written db user_id i c c' Hfind eq_refl)
      as (Hget & Hother & Hlen & Hn & Hs & He).
    split; [exact Hother|]. split; [exact Hn|]. split; [exact Hs|].
    split; [exact He|]. split; [exact Hlen|]. split; [discriminate|].
    split.
    + intros i0 c0 [= <- <-]. split; [reflexivity|].
      exists c'. split; [exact Hget|]. repeat split.
    + apply sync_refused. intros i0 c0 Hget0.
      rewrite Hget in Hget0. injection Hget0 as _ <-. reflexivity.
  - cbn [negb fst snd]. repeat split; try discriminate.
    apply sync_refused. intros i c Hget. rewrite Hfind in Hget. discriminate.
Qed.

(** The OAuth callback.  The connection of another user is never touched,
    and a table with one connection per user stays so.  When the exchange
    of the code gives tokens, the user has exactly the connection the
    handler answers with: it carries the address and the tokens of the
    exchange (its refresh token is absent when the exchange gave none), it
    is connected without error, and the next sync request is accepted; a
    row is added only when the user had none.  When the exchange fails the
    answer is 400 with the error text, no row is added, and every sync
    request that follows is refused. *)
Theorem handle_oauth_callback_connects (db : DB) (now : Z) (user_id : Z)
    (exchange : string + Api.TokenData) :
  let r := Api.handle_oauth_callback db now user_id exchange in
  (∀ other, other ≠ user_id →
     get_email_connection r.2 other = get_email_connection db other)
  ∧ (NoDup (EmailConnection.user_id <$> email_connections db) →
     NoDup (EmailConnection.user_id <$> email_connections r.2))
  ∧ (∀ token_data, exchange = inr token_data →
       ∃ c, r.1 = inr c
            ∧ Api.sync_emails r.2 user_id = inr c
            ∧ EmailConnection.email_address c = Api.email token_data
            ∧ EmailConnection.access_token c
              = Some (Api.access_token token_data)
            ∧ EmailConnection.refresh_token c = Api.refresh_token token_data
            ∧ EmailConnection.connected_at c = Some now
            ∧ EmailConnection.last_error c = None
            ∧ length (email_connections r.2)
              = match get_email_connection db user_id with
                | Some _ => length (email_connections db)
                | None => S (length (email_connections db))
                end)
  ∧ (∀ e, exchange = inl e →
       r.1 = inl {| Api.status_code := 400;
                    Api.detail := "Failed to connect Gmail account: " +:+ e |}
       ∧ length (email_connections r.2) = length (email_connections db)
       ∧ (∀ now' authenticated sync_result,
            Api.sync_request r.2 now' user_id authenticated sync_result
            = (inl refusal, r.2))).
Proof.
  intros r. subst r. destruct exchange as [e|token_data].
  - cbn [Api.handle_oauth_callback fst snd].
    destruct (update_status_lookup db now user_id "error" (Some e))
      as (Hother & Hnone & Hsome).
    set (db' := (update_email_connection_status db now user_id "error"
                   (Some e)).1) in *.
    assert (Hconn : ∃ l, email_connections db' = l
                         ∧ EmailConnection.user_id <$> l
                           = EmailConnection.user_id <$> email_connections db
                         ∧ length l = length (email_connections db)).
    { subst db'.
      destruct (get_email_connection db user_id) as [[i c]|] eqn:Hfind.
      - destruct (update_status_found db now user_id "error" (Some e) i c
                    Hfind) as (c' & Heq & Hu & _).
        rewrite Heq. cbn [fst email_connections with_email_connections].
        eexists. split; [reflexivity|]. split; [|apply length_insert].
        apply list_find_Some in Hfind as (Hi & _).
        apply (fmap_insert_same _ _ i c c' Hi Hu).
      - rewrite (CrudFacts.update_email_connection_status_absent _ _ _ _ _
                   Hfind).
        eexists. repeat split. }
    destruct Hconn as (l & Hl & Hids & Hlen).
    split; [exact Hother|]. split; [rewrite Hl, Hids; auto|].
    split; [discriminate|].
    intros e0 [= <-]. split; [reflexivity|]. split; [rewrite Hl; exact Hlen|].
    apply sync_refused. intros i c' Hget.
    destruct (get_email_connection db user_id) as [[i0 c]|] eqn:Hfind.
    + destruct (Hsome i0 c eq_refl) as (c2 & Hget2 & Hc2 & _).
      rewrite Hget in Hget2. injection Hget2 as _ <-. exact Hc2.
    + rewrite (Hnone eq_refl), Hfind in Hget. discriminate.
  - cbn [Api.handle_oauth_callback]. unfold create_email_connection.
    change (list_find (λ c, EmailConnection.user_id c = user_id)
              (email_connections db))
      with (get_email_connection db user_id).
    destruct (get_email_connection db user_id) as [[i c]|] eqn:Hfind.
    + cbn [fst snd].
      match goal with
      | |- context [<[i := ?row]> _] => set (c' := row)
      end.
      destruct (connection_written db user_id i c c' Hfind eq_refl)
        as (Hget & Hother & Hlen & _).
      split; [exact Hother|]. split.
      * cbn [email_connections with_email_connections].
        apply list_find_Some in Hfind as (Hi & _).
        rewrite (fmap_insert_same EmailConnection.user_id _ i c c' Hi eq_refl).
        auto.
      * split; [|discriminate]. intros td [= <-].
        exists c'. split; [reflexivity|]. unfold Api.sync_emails.
        rewrite Hget. repeat split. exact Hlen.
    + cbn [fst snd].
      match goal with
      | |- context [email_connections db ++ [?row]] => set (c' := row)
      end.
      destruct (connection_added db user_id c' Hfind eq_refl)
        as (Hget & Hother & Hnd).
      split; [exact Hother|]. split; [exact Hnd|].
      split; [|discriminate]. intros td [= <-].
      exists c'. split; [reflexivity|]. unfold Api.sync_emails.
      rewrite Hget. repeat split.
      cbn [email_connections with_email_connections].
      rewrite length_app. simpl. lia.
Qed.

End ConnectionFacts.

(* ================================================================== *)
(** * The listings *)
(* ================================================================== *)

Module ListingQueries.
Import Py Crud Inv.

#[local] Instance score_desc_total : Total score_desc.
Proof.
  intros a b. unfold score_desc.
  destruct (Qlt_le_dec (UserNewsletter.current_relevance_score a)
                       (UserNewsletter.current_relevance_score b)) as [H|H].
  - right. apply Qlt_le_weak, H.
  - left. exact H.
Qed.

#[local] Instance score_desc_trans : Transitive score_desc.
Proof. intros a b c Hab Hbc. unfold score_desc in *. eapply Qle_trans; eauto. Qed.

#[local] Instance received_desc_total : Total received_desc.
Proof. intros a b. unfold received_desc. lia. Qed.

#[local] Instance received_desc_trans : Transitive received_desc.
Proof. intros a b c. unfold received_desc. lia. Qed.

(** One page of an ordered query: [ORDER BY], [OFFSET], [LIMIT]. *)
Lemma page_of_sorted {A} (R : relation A) `{∀ x y, Decision (R x y)}
    `{!Total R} `{!Transitive R} (l : list A) (skip limit : nat) :
  let rows := take limit (drop skip (merge_sort R l)) in
  (length rows ≤ limit)%nat
  ∧ rows ⊆+ l
  ∧ StronglySorted R rows
  ∧ (skip = 0%nat → (length l ≤ limit)%nat → rows ≡ₚ l).
Proof.
  intros rows. subst rows. split; [|split; [|split]].
  - rewrite length_take. lia.
  - rewrite <- (merge_sort_Permutation R l) at 2.
    apply sublist_submseteq. etransitivity; [apply sublist_take|].
    apply sublist_drop.
  - pose proof (StronglySorted_merge_sort R l) as Hsorted.
    rewrite <- (take_drop skip (merge_sort R l)) in Hsorted.
    apply StronglySorted_app_1_r in Hsorted.
    rewrite <- (take_drop limit (drop skip (merge_sort R l))) in Hsorted.
    apply StronglySorted_app_1_l in Hsorted. exact Hsorted.
  - intros -> Hlen. rewrite drop_0, take_ge; [apply merge_sort_Permutation|].
    rewrite (merge_sort_Permutation R l). exact Hlen.
Qed.

Lemma get_user_newsletters_sound (db : DB) (user_id : Z) (active_only : bool)
    (skip limit : nat) :
  let rows := get_user_newsletters db user_id active_only skip limit in
  rows ⊆+ user_newsletters db
  ∧ Forall (λ s, UserNewsletter.user_id s = user_id
                 ∧ (active_only = true → UserNewsletter.is_active s = true))
           rows.
Proof.
  intros rows. subst rows. unfold get_user_newsletters.
  set (mine := filter (λ s, UserNewsletter.user_id s = user_id)
                 (user_newsletters db)).
  set (query := if active_only
                then filter (λ s, UserNewsletter.is_active s = true) mine
                else mine).
  destruct (page_of_sorted score_desc query skip limit) as (_ & Hms & _).
  split.
  - etransitivity; [exact Hms|]. apply sublist_submseteq.
    subst query mine. destruct active_only.
    + etransitivity; apply sublist_filter.
    + apply sublist_filter.
  - apply Forall_forall. intros s Hs.
    apply (elem_of_submseteq _ _ _ Hs) in Hms.
    subst query mine. destruct active_only;
      rewrite ?list_elem_of_filter in Hms; intuition congruence.
Qed.

(** The subscriptions listed for a user: at most [limit] rows, each a
    row of the table listed no more often than the table holds it, each of
    this user and, when only active ones are asked for, active; no row of
    the page has a lower score than a row after it; and with no offset and
    a limit that the table does not exceed, the page holds exactly the
    rows of the user (the active ones, when asked so). *)
Theorem get_user_newsletters_page (db : DB) (user_id : Z) (active_only : bool)
    (skip limit : nat) :
  let rows := get_user_newsletters db user_id active_only skip limit in
  (length rows ≤ limit)%nat
  ∧ rows ⊆+ user_newsletters db
  ∧ Forall (λ s, UserNewsletter.user_id s = user_id
                 ∧ (active_only = true → UserNewsletter.is_active s = true))
           rows
  ∧ StronglySorted score_desc rows
  ∧ (skip = 0%nat → (length (user_newsletters db) ≤ limit)%nat →
     ∀ s, s ∈ rows
          ↔ s ∈ user_newsletters db
            ∧ UserNewsletter.user_id s = user_id
            ∧ (active_only = true → UserNewsletter.is_active s = true)).
Proof.
  intros rows. subst rows. unfold get_user_newsletters.
  set (mine := filter (λ s, UserNewsletter.user_id s = user_id)
                 (user_newsletters db)).
  set (query := if active_only
                then filter (λ s, UserNewsletter.is_active s = true) mine
                else mine).
  assert (Hquery : ∀ s, s ∈ query
                        ↔ s ∈ user_newsletters db
                          ∧ UserNewsletter.user_id s = user_id
                          ∧ (active_only = true
                             → UserNewsletter.is_active s = true)).
  { intros s. subst query mine. destruct active_only;
      rewrite ?list_elem_of_filter; intuition congruence. }
  assert (Hsub : query `sublist_of` user_newsletters db).
  { subst query mine. destruct active_only.
    - etransitivity; apply sublist_filter.
    - apply sublist_filter. }
  destruct (page_of_sorted score_desc query skip limit)
    as (Hlen & Hms & Hsorted & Hall).
  split; [exact Hlen|]. split.
  { etransitivity; [exact Hms|]. apply sublist_submseteq, Hsub. }
  split.
  { apply Forall_forall. intros s Hs.
    apply (elem_of_submseteq _ _ _ Hs), Hquery in Hms. tauto. }
  split; [exact Hsorted|].
  intros Hskip Hlimit s. rewrite <- Hquery.
  rewrite (Hall Hskip); [reflexivity|].
  etransitivity; [apply sublist_length, Hsub|exact Hlimit].
Qed.

(** The emails listed for a user: at most [limit] rows of the table, each
    of this user and, when a newsletter other than 0 is named, of that
    newsletter; no row of the page was received earlier than a row after
    it; with no offset and a limit that the table does not exceed, the
    page holds exactly those rows.  Asking for the emails of newsletter 0
    is asking for the emails of all newsletters. *)
Theorem get_newsletter_emails_page (db : DB) (user_id : Z)
    (newsletter_id : option Z) (limit skip : nat) :
  let rows := get_newsletter_emails db user_id newsletter_id limit skip in
  let wanted (e : NewsletterEmail.t) : Prop :=
    NewsletterEmail.user_id e = user_id
    ∧ ∀ n, newsletter_id = Some n → n ≠ 0 →
           NewsletterEmail.newsletter_id e = n in
  (length rows ≤ limit)%nat
  ∧ rows ⊆+ newsletter_emails db
  ∧ Forall wanted rows
  ∧ StronglySorted received_desc rows
  ∧ (skip = 0%nat → (length (newsletter_emails db) ≤ limit)%nat →
     ∀ e, e ∈ rows ↔ e ∈ newsletter_emails db ∧ wanted e)
  ∧ Api.get_newsletter_emails db user_id 0 skip limit
    = Api.get_all_newsletter_emails db user_id skip limit.
Proof.
  intros rows wanted. subst rows. unfold get_newsletter_emails.
  set (mine := filter (λ e, NewsletterEmail.user_id e = user_id)
                 (newsletter_emails db)).
  set (query := if int_truthy newsletter_id
                then filter (λ e, Some (NewsletterEmail.newsletter_id e)
                                  = newsletter_id) mine
                else mine).
  assert (Hquery : ∀ e, e ∈ query ↔ e ∈ newsletter_emails db ∧ wanted e).
  { intros e. subst query mine wanted. cbv beta.
    destruct newsletter_id as [n|]; cbn [int_truthy].
    - destruct (Z.eqb_spec n 0) as [->|Hn]; cbn [negb];
        rewrite ?list_elem_of_filter.
      + split; [intros [Hu He]|intros [He [Hu _]]]; [|tauto].
        split; [exact He|]. split; [exact Hu|]. intros n [= <-] H0. lia.
      + split.
        * intros [[= Hid] [Hu He]]. split; [exact He|]. split; [exact Hu|].
          intros n0 [= <-] _. exact Hid.
        * intros [He [Hu Hid]]. rewrite (Hid n eq_refl Hn). tauto.
    - rewrite list_elem_of_filter. split; [intros [Hu He]|tauto].
      split; [exact He|]. split; [exact Hu|]. discriminate. }
  assert (Hsub : query `sublist_of` newsletter_emails db).
  { subst query mine. destruct (int_truthy newsletter_id).
    - etransitivity; apply sublist_filter.
    - apply sublist_filter. }
  destruct (page_of_sorted received_desc query skip limit)
    as (Hlen & Hms & Hsorted & Hall).
  split; [exact Hlen|]. split.
  { etransitivity; [exact Hms|]. apply sublist_submseteq, Hsub. }
  split.
  { apply Forall_forall. intros e He.
    apply (elem_of_submseteq _ _ _ He), Hquery in Hms. tauto. }
  split; [exact Hsorted|]. split; [|reflexivity].
  intros Hskip Hlimit e. rewrite <- Hquery.
  rewrite (Hall Hskip); [reflexivity|].
  etransitivity; [apply sublist_length, Hsub|exact Hlimit].
Qed.

End ListingQueries.

(* ================================================================== *)
(** * Subscribing and unsubscribing *)
(* ================================================================== *)

Module SubscriptionFacts.
Import Py Crud Inv.

#[local] Abbreviation subscription_of user_id newsletter_id :=
  (λ s : UserNewsletter.t,
     UserNewsletter.user_id s = user_id
     ∧ UserNewsletter.newsletter_id s = newsletter_id).

Lemma subscription_written (db : DB) (user_id newsletter_id : Z) (i : nat)
    (row row' : UserNewsletter.t) :
  list_find (subscription_of user_id newsletter_id) (user_newsletters db)
  = Some (i, row) →
  subscription_key row' = subscription_key row →
  list_find (subscription_of user_id newsletter_id)
    (<[i := row']> (user_newsletters db)) = Some (i, row')
  ∧ subscription_key <$> <[i := row']> (user_newsletters db)
    = subscription_key <$> user_newsletters db.
Proof.
  intros Hfind Hkey. pose proof Hfind as Hfound.
  apply list_find_Some in Hfound as (Hi & Hrow & _).
  injection Hkey as Hu Hn. split.
  - rewrite (TableFacts.list_find_insert_same _ _ i row row' Hi)
      by (rewrite Hu, Hn; reflexivity).
    rewrite Hfind. simpl. rewrite decide_True by reflexivity. reflexivity.
  - apply (ConnectionFacts.fmap_insert_same subscription_key _ i row row' Hi).
    unfold subscription_key. rewrite Hu, Hn. reflexivity.
Qed.

(** Unsubscribing and subscribing again, through the two handlers, for a
    user who has a subscription row for a newsletter on record: both
    requests succeed, the second answers with the id of the row the user
    had, no row is added or moved, and every other row and every other
    table is what it was.  The row itself is active and subscribed again
    and keeps its id, its owner, its newsletter, its subscription time,
    its counters and both its scores: nothing is reset. *)
Theorem unsubscribe_then_subscribe (db : DB) (now : Z)
    (user_id newsletter_id : Z) (i : nat) (row : UserNewsletter.t) :
  list_find (subscription_of user_id newsletter_id) (user_newsletters db)
  = Some (i, row) →
  is_Some (get_newsletter_by_id db newsletter_id) →
  let r1 := Api.unsubscribe_from_newsletter db user_id newsletter_id in
  let r2 := Api.subscribe_to_newsletter r1.2 now user_id newsletter_id in
  r1.1 = inr "Unsubscribed from newsletter successfully"
  ∧ r2.1 = inr (UserNewsletter.id row)
  ∧ newsletters r2.2 = newsletters db
  ∧ newsletter_emails r2.2 = newsletter_emails db
  ∧ email_connections r2.2 = email_connections db
  ∧ ∃ row',
      user_newsletters r2.2 = <[i := row']> (user_newsletters db)
      ∧ UserNewsletter.is_active row' = true
      ∧ UserNewsletter.is_subscribed row' = true
      ∧ UserNewsletter.id row' = UserNewsletter.id row
      ∧ subscription_key row' = subscription_key row
      ∧ UserNewsletter.subscribed_at row' = UserNewsletter.subscribed_at row
      ∧ UserNewsletter.last_received_at row'
        = UserNewsletter.last_received_at row
      ∧ UserNewsletter.total_received_count row'
        = UserNewsletter.total_received_count row
      ∧ UserNewsletter.base_relevance_score row'
        = UserNewsletter.base_relevance_score row
      ∧ UserNewsletter.current_relevance_score row'
        = UserNewsletter.current_relevance_score row.
Proof.
  intros Hfind [newsletter Hnl] r1 r2. subst r2 r1.
  unfold Api.unsubscribe_from_newsletter, unsubscribe_from_newsletter.
  rewrite Hfind. cbn [negb fst snd]. split; [reflexivity|].
  set (row1 := UserNewsletter.with_is_active false
                 (UserNewsletter.with_is_subscribed false row)).
  destruct (subscription_written db user_id newsletter_id i row row1 Hfind
              eq_refl) as [Hfind1 _].
  unfold Api.subscribe_to_newsletter.
  change (get_newsletter_by_id
            (with_user_newsletters (<[i := row1]> (user_newsletters db)) db)
            newsletter_id)
    with (get_newsletter_by_id db newsletter_id).
  rewrite Hnl. unfold create_user_newsletter_subscription.
  cbn [user_newsletters with_user_newsletters]. rewrite Hfind1.
  cbn [fst snd user_newsletters with_user_newsletters newsletters
       newsletter_emails email_connections].
  rewrite list_insert_insert_eq.
  split; [reflexivity|]. split; [reflexivity|]. split; [reflexivity|].
  split; [reflexivity|].
  eexists. split; [reflexivity|]. repeat split.
Qed.

Lemma unsubscribe_then_subscribe_witness :
  (Api.subscribe_to_newsletter
     (Api.unsubscribe_from_newsletter Examples.subscribed 7 1).2
     1700000900 7 1).1 = inr 1
  ∧ length (user_newsletters
              (Api.subscribe_to_newsletter
                 (Api.unsubscribe_from_newsletter Examples.subscribed 7 1).2
                 1700000900 7 1).2) = 1%nat.
Proof.
  destruct (unsubscribe_then_subscribe Examples.subscribed 1700000900 7 1
              0%nat Examples.subscription_of_7 eq_refl
              (ltac:(vm_compute; eauto)))
    as (_ & Hid & _ & _ & _ & row' & Hrows & _).
  split; [exact Hid|]. rewrite Hrows, length_insert. reflexivity.
Defined.

(** Unsubscribing through the handler, in a table with at most one row per
    user and newsletter.  With a subscription, the request succeeds and
    the newsletter is on no page of the user's listing afterwards; without
    one, the answer is 404 and nothing changes.  The rows of other users
    and of other newsletters stay as they are, and the table still has at
    most one row per user and newsletter. *)
Theorem unsubscribe_hides (db : DB) (user_id newsletter_id : Z)
    (skip limit : nat) :
  NoDup (subscription_key <$> user_newsletters db) →
  let r := Api.unsubscribe_from_newsletter db user_id newsletter_id in
  (has_subscription db user_id newsletter_id →
   r.1 = inr "Unsubscribed from newsletter successfully"
   ∧ Forall (λ s, UserNewsletter.newsletter_id s ≠ newsletter_id)
            (Api.get_my_newsletters r.2 user_id skip limit))
  ∧ (¬ has_subscription db user_id newsletter_id →
     r = (inl {| Api.status_code := 404;
                 Api.detail := "Newsletter subscription not found" |}, db))
  ∧ (∀ s, s ∈ user_newsletters db →
          subscription_key s ≠ (user_id, newsletter_id) →
          s ∈ user_newsletters r.2)
  ∧ NoDup (subscription_key <$> user_newsletters r.2).
Proof.
  intros Hnd r. subst r.
  unfold Api.unsubscribe_from_newsletter, unsubscribe_from_newsletter,
    has_subscription.
  destruct (list_find (subscription_of user_id newsletter_id)
              (user_newsletters db)) as [[i row]|] eqn:Hfind.
  2:{ cbn [negb fst snd]. split; [intros [x Hx]; discriminate|].
      split; [reflexivity|]. split; [auto|exact Hnd]. }
  cbn [negb fst snd user_newsletters with_user_newsletters].
  set (row1 := UserNewsletter.with_is_active false
                 (UserNewsletter.with_is_subscribed false row)).
  destruct (subscription_written db user_id newsletter_id i row row1 Hfind
              eq_refl) as [_ Hkeys].
  pose proof Hfind as Hfound.
  apply list_find_Some in Hfound as (Hi & [Hu Hn] & _).
  split; [|split; [intros H; exfalso; apply H; eauto|split]].
  - intros _. split; [reflexivity|].
    destruct (ListingQueries.get_user_newsletters_sound
                (with_user_newsletters (<[i := row1]> (user_newsletters db)) db)
                user_id true skip limit) as (Hsub & Hall).
    unfold Api.get_my_newsletters.
    apply Forall_forall. intros s Hs Hsn.
    eapply Forall_forall in Hall as [Hsu Hactive]; [|exact Hs].
    specialize (Hactive eq_refl).
    apply (elem_of_submseteq _ _ _ Hs) in Hsub.
    cbn [user_newsletters with_user_newsletters] in Hsub.
    apply list_elem_of_lookup in Hsub as [j Hj].
    destruct (decide (j = i)) as [->|Hne].
    + rewrite list_lookup_insert_eq in Hj by (eapply lookup_lt_Some; eauto).
      injection Hj as <-. discriminate.
    + rewrite list_lookup_insert_ne in Hj by congruence.
      apply Hne.
      apply (NoDup_lookup _ j i (user_id, newsletter_id) Hnd);
        rewrite list_lookup_fmap.
      * rewrite Hj. unfold subscription_key. cbn. rewrite Hsu, Hsn. reflexivity.
      * rewrite Hi. unfold subscription_key. cbn. rewrite Hu, Hn. reflexivity.
  - intros s Hs Hkey. apply list_elem_of_lookup in Hs as [j Hj].
    apply list_elem_of_lookup. exists j.
    rewrite list_lookup_insert_ne; [exact Hj|].
    intros <-. rewrite Hi in Hj. injection Hj as <-.
    apply Hkey. unfold subscription_key. rewrite Hu, Hn. reflexivity.
  - rewrite Hkeys. exact Hnd.
Qed.

Lemma unsubscribe_hides_witness :
  NoDup (subscription_key <$> user_newsletters Examples.subscribed)
  ∧ has_subscription Examples.subscribed 7 1
  ∧ Forall (λ s, UserNewsletter.newsletter_id s ≠ 1)
      (Api.get_my_newsletters
         (Api.unsubscribe_from_newsletter Examples.subscribed 7 1).2 7 0 50).
Proof.
  assert (Hnd : NoDup (subscription_key
                         <$> user_newsletters Examples.subscribed))
    by (apply NoDup_singleton).
  assert (Hsub : has_subscription Examples.subscribed 7 1)
    by (vm_compute; eauto).
  split; [exact Hnd|]. split; [exact Hsub|].
  apply (proj1 (unsubscribe_hides Examples.subscribed 7 1 0 50 Hnd) Hsub).
Defined.

End SubscriptionFacts.

(* ================================================================== *)
(** * Tracking an interaction *)
(* ================================================================== *)

Module InteractionFacts.
Import Py Crud Inv.

(** Tracking an interaction through the handler.  The answer is 404
    exactly when the user has no email row of the given id, and then
    nothing changes.  Otherwise one row is written in place: no row is
    added or removed, the other tables are untouched, every row of another
    user and every row of another id is what it was, and the row written
    keeps its owner, its newsletter, its message id, its subject, its
    content, its time of reception and its relevance score. *)
Theorem track_email_interaction_own_row (db : DB) (user_id email_id : Z)
    (interaction_data : InteractionData) :
  let r := Api.track_email_interaction db user_id email_id interaction_data in
  (get_newsletter_email_by_id db email_id user_id = None
   ↔ r.1 = inl {| Api.status_code := 404;
                  Api.detail := "Newsletter email not found" |})
  ∧ (get_newsletter_email_by_id db email_id user_id = None → r.2 = db)
  ∧ newsletters r.2 = newsletters db
  ∧ user_newsletters r.2 = user_newsletters db
  ∧ email_connections r.2 = email_connections db
  ∧ length (newsletter_emails r.2) = length (newsletter_emails db)
  ∧ (∀ j e, newsletter_emails db !! j = Some e →
            NewsletterEmail.user_id e ≠ user_id
            ∨ NewsletterEmail.id e ≠ email_id →
            newsletter_emails r.2 !! j = Some e)
  ∧ (∀ j e', newsletter_emails r.2 !! j = Some e' →
       ∃ e, newsletter_emails db !! j = Some e
            ∧ NewsletterEmail.id e' = NewsletterEmail.id e
            ∧ email_key e' = email_key e
            ∧ NewsletterEmail.newsletter_id e' = NewsletterEmail.newsletter_id e
            ∧ NewsletterEmail.subject e' = NewsletterEmail.subject e
            ∧ NewsletterEmail.received_at e' = NewsletterEmail.received_at e
            ∧ NewsletterEmail.content_text e' = NewsletterEmail.content_text e
            ∧ NewsletterEmail.content_html e' = NewsletterEmail.content_html e
            ∧ NewsletterEmail.relevance_score e'
              = NewsletterEmail.relevance_score e).
Proof.
  intros r. subst r.
  unfold Api.track_email_interaction, update_newsletter_email_interaction.
  destruct (get_newsletter_email_by_id db email_id user_id) as [[i row]|]
    eqn:Hfind.
  2:{ cbn [fst snd]. split; [tauto|]. repeat split; auto.
      intros j e' Hj. exists e'. repeat split; auto. }
  cbn [fst snd newsletter_emails with_newsletter_emails newsletters
       user_newsletters email_connections].
  match goal with
  | |- context [<[i := ?new]> _] => set (row' := new)
  end.
  apply list_find_Some in Hfind as (Hi & [Hid Hu] & _).
  split; [split; discriminate|]. split; [discriminate|].
  split; [reflexivity|]. split; [reflexivity|]. split; [reflexivity|].
  split; [apply length_insert|]. split.
  - intros j e Hj Hother.
    rewrite list_lookup_insert_ne; [exact Hj|].
    intros <-. rewrite Hi in Hj. injection Hj as <-. tauto.
  - intros j e' Hj.
    apply list_lookup_insert_Some in Hj as [(<- & <- & _)|[_ Hj]].
    + exists row. split; [exact Hi|]. subst row'.
      destruct (has_been_opened interaction_data),
        (has_been_clicked interaction_data),
        (reading_time_seconds interaction_data),
        (engagement_score interaction_data); repeat split.
    + exists e'. repeat split; auto.
Qed.

End InteractionFacts.

(* ================================================================== *)
(** * The figures of the summary *)
(* ================================================================== *)

Module StatsFacts.
Import Py Crud Inv.

#[local] Instance count_desc_total : Total count_desc.
Proof. intros a b. unfold count_desc. lia. Qed.

#[local] Instance count_desc_trans : Transitive count_desc.
Proof. intros a b c. unfold count_desc. lia. Qed.

Lemma filter_length_mono {A} (P Q : A → Prop) `{∀ x, Decision (P x)}
    `{∀ x, Decision (Q x)} (l : list A) :
  (∀ x, P x → Q x) → (length (filter P l) ≤ length (filter Q l))%nat.
Proof.
  intros Himpl. induction l as [|x l IH]; [reflexivity|].
  rewrite !filter_cons.
  destruct (decide (P x)) as [Hp|Hp], (decide (Q x)) as [Hq|Hq]; simpl;
    try lia.
  exfalso. apply Hq, Himpl, Hp.
Qed.

Lemma bump_positive (key : option string)
    (groups : list (option string * nat)) :
  Forall (λ g, (1 ≤ g.2)%nat) groups →
  Forall (λ g, (1 ≤ g.2)%nat) (bump key groups).
Proof.
  induction 1 as [|[key' count] groups Hg Hgs IH]; cbn [bump].
  - repeat constructor.
  - destruct (decide (key' = key)); constructor; auto. simpl. lia.
Qed.

Lemma groups_positive {A} (key : A → option string) (rows : list A) :
  ∀ groups,
    Forall (λ g, (1 ≤ g.2)%nat) groups →
    Forall (λ g, (1 ≤ g.2)%nat)
           (foldl (λ groups p, bump (key p) groups) groups rows).
Proof.
  induction rows as [|p rows IH]; intros groups Hg; [exact Hg|].
  cbn [foldl]. apply IH, bump_positive, Hg.
Qed.

Lemma map_fmap {A B} (f : A → B) (l : list A) : map f l = f <$> l.
Proof. induction l as [|x l IH]; [reflexivity|]. simpl. rewrite IH. reflexivity. Qed.

Lemma page_sorted (groups : list (option string * nat)) :
  (length (take 5 (merge_sort count_desc groups)) ≤ 5)%nat
  ∧ take 5 (merge_sort count_desc groups) ⊆+ groups
  ∧ StronglySorted count_desc (take 5 (merge_sort count_desc groups)).
Proof.
  destruct (ListingQueries.page_of_sorted count_desc groups 0 5)
    as (Hlen & Hsub & Hsorted & _).
  auto.
Qed.

(** What a run of the [try] block without exception returns. *)
Lemma compute_stats_value (db : Session) (now : Z) (user_id : Z)
    (stats : Stats) :
  compute_stats db now user_id = inr stats →
  total_emails stats = count_emails user_id (store db)
  ∧ active_subscriptions stats = count_active_subscriptions user_id (store db)
  ∧ emails_this_week stats
    = count_emails_since user_id (now - 7 * seconds_per_day) (store db)
  ∧ emails_this_month stats
    = count_emails_since user_id (now - 30 * seconds_per_day) (store db)
  ∧ top_categories stats
    = (λ row : option string * nat,
         (if truthy row.1 then or_empty row.1 else "Unknown", row.2))
        <$> top_categories_query user_id (store db).
Proof.
  unfold compute_stats, execute.
  repeat (destruct (bool_decide _); [discriminate|]).
  cbn [bind ret]. unfold ret. intros [= <-].
  cbn [total_emails active_subscriptions emails_this_week emails_this_month
       top_categories].
  rewrite map_fmap. repeat split.
Qed.

(** The figures of the summary, whether or not a statement failed, the
    two readings of the clock taken as one: the emails of the week are
    among those of the month, and these among all the emails of the user;
    no count exceeds its table; at most five categories are reported, none
    with an empty name, none with a count of zero, and none before one of
    a greater count. *)
Theorem get_newsletter_stats_bounds (db : Session) (now : Z) (user_id : Z) :
  let stats := get_newsletter_stats db now user_id in
  (emails_this_week stats ≤ emails_this_month stats)%nat
  ∧ (emails_this_month stats ≤ total_emails stats)%nat
  ∧ (total_emails stats ≤ length (newsletter_emails (store db)))%nat
  ∧ (active_subscriptions stats ≤ length (user_newsletters (store db)))%nat
  ∧ (length (top_categories stats) ≤ 5)%nat
  ∧ Forall (λ row : string * nat, str_truthy row.1 = true ∧ (1 ≤ row.2)%nat)
           (top_categories stats)
  ∧ StronglySorted (λ a b : string * nat, (b.2 ≤ a.2)%nat)
                   (top_categories stats).
Proof.
  intros stats. subst stats. unfold get_newsletter_stats.
  destruct (compute_stats db now user_id) as [e|stats] eqn:Hrun.
  { cbn. repeat split; try lia; constructor. }
  destruct (compute_stats_value db now user_id stats Hrun)
    as (-> & -> & -> & -> & ->).
  split; [|split; [|split; [|split]]].
  - apply filter_length_mono. intros e [Hu Hsince]. split; [exact Hu|].
    unfold seconds_per_day in *. lia.
  - apply filter_length_mono. intros e [Hu _]. exact Hu.
  - apply length_filter.
  - apply length_filter.
  - unfold top_categories_query.
    set (groups := foldl _ [] _).
    assert (Hpos : Forall (λ g : option string * nat, (1 ≤ g.2)%nat) groups)
      by (apply groups_positive; constructor).
    destruct (page_sorted groups) as (Hlen & Hsub & Hsorted).
    split; [rewrite length_fmap; exact Hlen|]. split.
    + apply Forall_fmap, Forall_forall. intros [name count] Hrow.
      cbn [fst snd compose]. split.
      * destruct name as [[|a name]|]; reflexivity.
      * apply (elem_of_submseteq _ _ _ Hrow) in Hsub.
        eapply Forall_forall in Hpos; [|exact Hsub]. exact Hpos.
    + eapply StronglySorted_fmap; [|exact Hsorted]. intros a b Hab. exact Hab.
Qed.

End StatsFacts.

(* ================================================================== *)
(** * What the writes keep *)
(* ================================================================== *)

Module RunInvariants.
Import Py Crud Inv.

Lemma NoDup_fmap_snoc {A K} (key : A → K) (P : A → Prop)
    `{∀ x, Decision (P x)} (l : list A) (x : A) :
  list_find P l = None → (∀ y, key y = key x → P y) →
  NoDup (key <$> l) → NoDup (key <$> (l ++ [x])).
Proof.
  intros Hnone Hkey Hnd. rewrite fmap_app. apply NoDup_app.
  split; [exact Hnd|]. split; [|apply NoDup_singleton].
  intros k Hin Hin'. apply list_elem_of_singleton in Hin'. subst k.
  apply list_elem_of_fmap in Hin as (y & Hy & Hin).
  apply list_find_None in Hnone.
  eapply Forall_forall in Hnone; [|exact Hin]. apply Hnone, Hkey.
  symmetry. exact Hy.
Qed.

Lemma newsletter_upsert_facts (db : DB) (now : Z) (md : Metadata.t) :
  let r := get_or_create_newsletter db now md in
  (NoDup (Newsletter.sender_email <$> newsletters db) →
   NoDup (Newsletter.sender_email <$> newsletters r.1))
  ∧ user_newsletters r.1 = user_newsletters db
  ∧ newsletter_emails r.1 = newsletter_emails db
  ∧ email_connections r.1 = email_connections db
  ∧ (length (newsletters db) ≤ length (newsletters r.1))%nat
  ∧ (length (newsletters r.1) ≤ S (length (newsletters db)))%nat.
Proof.
  intros r. subst r.
  destruct (list_find (λ n, Newsletter.sender_email n
                            = Metadata.sender_email md) (newsletters db))
    as [[i n]|] eqn:Hfind.
  - destruct (SyncFacts.upsert_found db now md i n Hfind) as (Hdb & _ & Hsender).
    rewrite Hdb. cbn [newsletters with_newsletters user_newsletters
                      newsletter_emails email_connections].
    apply list_find_Some in Hfind as (Hi & _).
    rewrite (ConnectionFacts.fmap_insert_same Newsletter.sender_email _ i n _
               Hi Hsender), length_insert.
    repeat split; auto.
  - unfold get_or_create_newsletter. rewrite Hfind.
    cbn [fst newsletters with_newsletters user_newsletters newsletter_emails
         email_connections].
    rewrite length_app. cbn [length].
    split; [|repeat split; lia].
    apply (NoDup_fmap_snoc _ _ _ _ Hfind). intros y Hy. exact Hy.
Qed.

Lemma subscription_upsert_facts (db : DB) (now : Z)
    (user_id newsletter_id : Z) (score : Q) :
  let r := create_user_newsletter_subscription db now user_id newsletter_id
             score in
  (NoDup (subscription_key <$> user_newsletters db) →
   NoDup (subscription_key <$> user_newsletters r.1))
  ∧ newsletters r.1 = newsletters db
  ∧ newsletter_emails r.1 = newsletter_emails db
  ∧ email_connections r.1 = email_connections db
  ∧ (¬ has_subscription db user_id newsletter_id →
     user_newsletters r.1 = user_newsletters db ++ [r.2]
     ∧ UserNewsletter.user_id r.2 = user_id
     ∧ UserNewsletter.is_active r.2 = true
     ∧ UserNewsletter.is_subscribed r.2 = true).
Proof.
  intros r. subst r. unfold create_user_newsletter_subscription, has_subscription.
  destruct (list_find _ (user_newsletters db)) as [[i row]|] eqn:Hfind.
  - cbn [fst snd newsletters with_user_newsletters user_newsletters
         newsletter_emails email_connections].
    destruct (SubscriptionFacts.subscription_written db user_id newsletter_id
                i row
                (UserNewsletter.with_is_subscribed true
                   (UserNewsletter.with_is_active true row)) Hfind eq_refl)
      as [_ Hkeys].
    rewrite Hkeys. repeat split; auto. all: exfalso; eauto.
  - cbn [fst snd newsletters with_user_newsletters user_newsletters
         newsletter_emails email_connections].
    split; [|repeat split].
    apply (NoDup_fmap_snoc _ _ _ _ Hfind). intros y [= Hu Hn]. split; assumption.
Qed.

Lemma email_insert_facts (db : DB) (user_id newsletter_id : Z)
    (email_data : EmailData.t) :
  let r := create_newsletter_email db user_id newsletter_id email_data in
  (NoDup (email_key <$> newsletter_emails db) →
   NoDup (email_key <$> newsletter_emails r.1))
  ∧ newsletters r.1 = newsletters db
  ∧ user_newsletters r.1 = user_newsletters db
  ∧ email_connections r.1 = email_connections db
  ∧ ∃ emails,
      newsletter_emails r.1 = newsletter_emails db ++ emails
      ∧ (length emails ≤ 1)%nat
      ∧ Forall (λ e, NewsletterEmail.user_id e = user_id) emails.
Proof.
  intros r. subst r. unfold create_newsletter_email.
  destruct (list_find _ (newsletter_emails db)) as [[i row]|] eqn:Hfind.
  - cbn [fst]. repeat split; auto. exists []. rewrite app_nil_r.
    repeat split; auto.
  - cbn [fst snd newsletters with_newsletter_emails user_newsletters
         newsletter_emails email_connections].
    split; [|repeat split].
    + apply (NoDup_fmap_snoc _ _ _ _ Hfind). intros y [= Hu He].
      split; assumption.
    + eexists [_]. split; [reflexivity|]. split; [reflexivity|].
      repeat constructor.
Qed.

Lemma status_update_keys (db : DB) (now : Z) (user_id : Z) (status : string)
    (error_message : option string) :
  keys_unique db →
  keys_unique (update_email_connection_status db now user_id status
                 error_message).1.
Proof.
  intros (Hn & Hs & He & Hc).
  destruct (SyncFacts.update_email_connection_status_tables db now user_id
              status error_message) as (Hn' & Hs' & He').
  unfold keys_unique. rewrite Hn', Hs', He'.
  split; [exact Hn|]. split; [exact Hs|]. split; [exact He|].
  destruct (get_email_connection db user_id) as [[i c]|] eqn:Hfind.
  - destruct (ConnectionFacts.update_status_found db now user_id status
                error_message i c Hfind) as (c' & Heq & Hu & _).
    rewrite Heq. cbn [fst email_connections with_email_connections].
    apply list_find_Some in Hfind as (Hi & _).
    rewrite (ConnectionFacts.fmap_insert_same EmailConnection.user_id _ i c c'
               Hi Hu). exact Hc.
  - rewrite (CrudFacts.update_email_connection_status_absent _ _ _ _ _ Hfind).
    exact Hc.
Qed.

(** What one round of the loop does to the tables. *)
Lemma process_newsletter_step (user_id : Z) (now : Z) (db : DB) (k : nat)
    (item : EmailData.t * Metadata.t) :
  let r := Sync.process_newsletter user_id now (db, k) item in
  (keys_unique db → keys_unique r.1)
  ∧ email_connections r.1 = email_connections db
  ∧ (length (newsletters db) ≤ length (newsletters r.1))%nat
  ∧ (length (newsletters r.1) ≤ S (length (newsletters db)))%nat
  ∧ ∃ subs emails,
      user_newsletters r.1 = user_newsletters db ++ subs
      ∧ r.2 = (k + length subs)%nat
      ∧ (length subs ≤ 1)%nat
      ∧ Forall (λ s, UserNewsletter.user_id s = user_id
                     ∧ UserNewsletter.is_active s = true
                     ∧ UserNewsletter.is_subscribed s = true) subs
      ∧ newsletter_emails r.1 = newsletter_emails db ++ emails
      ∧ (length emails ≤ 1)%nat
      ∧ Forall (λ e, NewsletterEmail.user_id e = user_id) emails.
Proof.
  destruct item as [email_data md]. unfold Sync.process_newsletter.
  destruct (newsletter_upsert_facts db now md)
    as (Hk1 & Hs1 & He1 & Hc1 & Hlo & Hhi).
  destruct (get_or_create_newsletter db now md) as [db1 newsletter].
  cbn [fst snd] in *.
  destruct (list_find _ (user_newsletters db1)) as [found|] eqn:Hsub.
  - destruct (email_insert_facts db1 user_id (Newsletter.id newsletter)
                email_data) as (Hk3 & Hn3 & Hs3 & Hc3 & emails & Hem & Hlen & Hall).
    cbn [fst snd]. split.
    { intros (Hn & Hs & He & Hc). unfold keys_unique.
      rewrite Hn3, Hs3, Hc3, Hs1, Hc1. rewrite He1 in Hk3. auto. }
    rewrite Hn3, Hs3, Hc3, Hem.
    split; [exact Hc1|]. split; [exact Hlo|]. split; [exact Hhi|].
    exists [], emails. rewrite app_nil_r, He1.
    repeat split; auto; simpl; lia.
  - assert (Hno : ¬ has_subscription db1 user_id (Newsletter.id newsletter))
      by (unfold has_subscription; rewrite Hsub; intros [x Hx]; discriminate).
    destruct (subscription_upsert_facts db1 now user_id
                (Newsletter.id newsletter) default_base_relevance_score)
      as (Hk2 & Hn2 & He2 & Hc2 & Happ).
    destruct (Happ Hno) as (Hrows & Hu & Hactive & Hsubscribed).
    destruct (create_user_newsletter_subscription db1 now user_id
                (Newsletter.id newsletter) default_base_relevance_score)
      as [db2 subscription].
    cbn [fst snd] in *.
    destruct (email_insert_facts db2 user_id (Newsletter.id newsletter)
                email_data) as (Hk3 & Hn3 & Hs3 & Hc3 & emails & Hem & Hlen & Hall).
    split.
    { intros (Hn & Hs & He & Hc). unfold keys_unique.
      rewrite Hn3, Hs3, Hc3, Hn2, Hc2, Hc1. rewrite He2, He1 in Hk3.
      rewrite Hs1 in Hk2. auto. }
    rewrite Hn3, Hs3, Hc3, Hem, Hn2, Hc2, He2, Hrows, Hs1, He1.
    split; [exact Hc1|]. split; [exact Hlo|]. split; [exact Hhi|].
    exists [subscription], emails.
    repeat split; auto; simpl; lia.
Qed.

(** The loop over the detected newsletters only appends to the
    subscription and email tables: every row these tables held is still
    there, unchanged and at its place, so a subscription the user had
    ended is not taken up again, though the messages of that newsletter go
    on being stored.  The counter of new newsletters is the number of
    subscription rows added, each of them active and of this user; at most
    one email row and at most one newsletter row is added per detected
    newsletter, and no newsletter row is removed. *)
Theorem process_newsletters_appends (user_id : Z) (now : Z) (db : DB)
    (items : list (EmailData.t * Metadata.t)) :
  let r := Sync.process_newsletters user_id now db items in
  ∃ subs emails,
    user_newsletters r.1 = user_newsletters db ++ subs
    ∧ length subs = r.2
    ∧ (r.2 ≤ length items)%nat
    ∧ Forall (λ s, UserNewsletter.user_id s = user_id
                   ∧ UserNewsletter.is_active s = true
                   ∧ UserNewsletter.is_subscribed s = true) subs
    ∧ newsletter_emails r.1 = newsletter_emails db ++ emails
    ∧ (length emails ≤ length items)%nat
    ∧ Forall (λ e, NewsletterEmail.user_id e = user_id) emails
    ∧ (length (newsletters db) ≤ length (newsletters r.1))%nat
    ∧ (length (newsletters r.1) ≤ length (newsletters db) + length items)%nat.
Proof.
  intros r. subst r. unfold Sync.process_newsletters.
  assert (H : ∀ (st : DB * nat),
            let r := foldl (Sync.process_newsletter user_id now) st items in
            ∃ subs emails,
              user_newsletters r.1 = user_newsletters st.1 ++ subs
              ∧ r.2 = (st.2 + length subs)%nat
              ∧ (length subs ≤ length items)%nat
              ∧ Forall (λ s, UserNewsletter.user_id s = user_id
                             ∧ UserNewsletter.is_active s = true
                             ∧ UserNewsletter.is_subscribed s = true) subs
              ∧ newsletter_emails r.1 = newsletter_emails st.1 ++ emails
              ∧ (length emails ≤ length items)%nat
              ∧ Forall (λ e, NewsletterEmail.user_id e = user_id) emails
              ∧ (length (newsletters st.1) ≤ length (newsletters r.1))%nat
              ∧ (length (newsletters r.1)
                 ≤ length (newsletters st.1) + length items)%nat).
  { induction items as [|item items IH]; intros [db0 k].
    - exists [], []. cbn. rewrite !app_nil_r. repeat split; auto; lia.
    - cbn [foldl].
      destruct (process_newsletter_step user_id now db0 k item)
        as (_ & _ & Hlo & Hhi & subs & emails & Hs & Hk & Hls & Hfs & He & Hle
            & Hfe).
      destruct (Sync.process_newsletter user_id now (db0, k) item)
        as [db1 k1].
      cbn [fst snd] in *. subst k1.
      destruct (IH (db1, (k + length subs)%nat))
        as (subs' & emails' & Hs' & Hk' & Hls' & Hfs' & He' & Hle' & Hfe'
            & Hlo' & Hhi').
      cbn [fst snd] in *.
      exists (subs ++ subs'), (emails ++ emails').
      rewrite Hs', Hs, He', He, Hk', !length_app, <- !app_assoc.
      cbn [length].
      repeat split; try lia; try (apply Forall_app; split; assumption). }
  destruct (H (db, 0%nat))
    as (subs & emails & Hs & Hk & Hls & Hfs & He & Hle & Hfe & Hlo & Hhi).
  cbn [fst snd] in *. exists subs, emails.
  rewrite Hk. repeat split; auto.
Qed.

Lemma process_newsletters_keys (user_id : Z) (now : Z)
    (items : list (EmailData.t * Metadata.t)) :
  ∀ st : DB * nat,
    keys_unique st.1 →
    keys_unique (foldl (Sync.process_newsletter user_id now) st items).1.
Proof.
  induction items as [|item items IH]; intros [db k] Hkeys; [exact Hkeys|].
  cbn [foldl]. apply IH.
  pose proof (process_newsletter_step user_id now db k item) as (Hstep & _).
  destruct (Sync.process_newsletter user_id now (db, k) item).
  apply Hstep, Hkeys.
Qed.

Lemma keys_unique_tables (db db' : DB) :
  Newsletter.sender_email <$> newsletters db'
  = Newsletter.sender_email <$> newsletters db →
  subscription_key <$> user_newsletters db'
  = subscription_key <$> user_newsletters db →
  email_key <$> newsletter_emails db'
  = email_key <$> newsletter_emails db →
  EmailConnection.user_id <$> email_connections db'
  = EmailConnection.user_id <$> email_connections db →
  keys_unique db → keys_unique db'.
Proof. unfold keys_unique. intros -> -> -> ->. auto. Qed.

(** No write makes a second row for a key the code looks rows up by.  In
    a database with at most one newsletter per sender address, one
    subscription per user and newsletter, one email row per user and
    message and one connection per user, this is still so after a
    background run, whatever its outcome, and after each of the handlers
    that write: the OAuth callback, disconnecting, subscribing,
    unsubscribing and tracking an interaction. *)
Theorem writes_keep_keys_unique (db : DB) (now : Z) (user_id : Z) :
  keys_unique db →
  (∀ authenticated sync_result,
     keys_unique (Sync.sync_user_emails db now user_id authenticated
                    sync_result))
  ∧ (∀ exchange,
       keys_unique (Api.handle_oauth_callback db now user_id exchange).2)
  ∧ keys_unique (Api.disconnect_email db user_id).2
  ∧ (∀ newsletter_id,
       keys_unique (Api.subscribe_to_newsletter db now user_id
                      newsletter_id).2)
  ∧ (∀ newsletter_id,
       keys_unique (Api.unsubscribe_from_newsletter db user_id
                      newsletter_id).2)
  ∧ (∀ email_id interaction_data,
       keys_unique (Api.track_email_interaction db user_id email_id
                      interaction_data).2).
Proof.
  intros Hkeys. split; [|split; [|split; [|split; [|split]]]].
  - intros authenticated sync_result. unfold Sync.sync_user_emails.
    pose proof (status_update_keys db now user_id "syncing" None Hkeys) as H1.
    destruct authenticated; cbn [negb]; [|apply status_update_keys, H1].
    destruct sync_result as [|error|processed items];
      try (apply status_update_keys, H1).
    unfold Sync.process_newsletters.
    pose proof (process_newsletters_keys user_id now items (_, 0%nat) H1) as H2.
    destruct (foldl _ _ items) as [db2 k]. apply status_update_keys, H2.
  - intros [e|token_data]; cbn [Api.handle_oauth_callback snd].
    + apply status_update_keys, Hkeys.
    + unfold create_email_connection.
      change (list_find (λ c, EmailConnection.user_id c = user_id)
                (email_connections db))
        with (get_email_connection db user_id).
      destruct Hkeys as (Hn & Hs & He & Hc).
      destruct (get_email_connection db user_id) as [[i c]|] eqn:Hfind;
        cbn [snd]; (split; [exact Hn|]; split; [exact Hs|]; split; [exact He|]);
        cbn [email_connections with_email_connections].
      * apply list_find_Some in Hfind as (Hi & _).
        match goal with
        | |- context [<[i := ?new]> _] =>
            rewrite (ConnectionFacts.fmap_insert_same EmailConnection.user_id
                       _ i c new Hi eq_refl)
        end.
        exact Hc.
      * apply (NoDup_fmap_snoc _ _ _ _ Hfind); [|exact Hc].
        intros y Hy. exact Hy.
  - unfold Api.disconnect_email, disconnect_email.
    destruct (get_email_connection db user_id) as [[i c]|] eqn:Hfind;
      cbn [negb snd]; [|exact Hkeys].
    apply list_find_Some in Hfind as (Hi & _).
    apply (keys_unique_tables db); try reflexivity; [|exact Hkeys].
    cbn [email_connections with_email_connections].
    match goal with
    | |- context [<[i := ?new]> _] =>
        apply (ConnectionFacts.fmap_insert_same EmailConnection.user_id _ i c
                 new Hi eq_refl)
    end.
  - intros newsletter_id. unfold Api.subscribe_to_newsletter.
    destruct (get_newsletter_by_id db newsletter_id); [|exact Hkeys].
    destruct (subscription_upsert_facts db now user_id newsletter_id
                default_base_relevance_score) as (Hk & Hn & He & Hc & _).
    destruct (create_user_newsletter_subscription db now user_id newsletter_id
                default_base_relevance_score) as [db' subscription].
    cbn [fst snd] in *. destruct Hkeys as (Hkn & Hks & Hke & Hkc).
    unfold keys_unique. rewrite Hn, He, Hc. auto.
  - intros newsletter_id.
    unfold Api.unsubscribe_from_newsletter, unsubscribe_from_newsletter.
    destruct (list_find _ (user_newsletters db)) as [[i row]|] eqn:Hfind;
      cbn [negb snd]; [|exact Hkeys].
    destruct (SubscriptionFacts.subscription_written db user_id newsletter_id
                i row
                (UserNewsletter.with_is_active false
                   (UserNewsletter.with_is_subscribed false row)) Hfind
                eq_refl) as [_ Hsame].
    apply (keys_unique_tables db); try reflexivity; [|exact Hkeys].
    exact Hsame.
  - intros email_id interaction_data.
    unfold Api.track_email_interaction, update_newsletter_email_interaction.
    destruct (get_newsletter_email_by_id db email_id user_id) as [[i row]|]
      eqn:Hfind; cbn [snd]; [|exact Hkeys].
    apply list_find_Some in Hfind as (Hi & _).
    apply (keys_unique_tables db); try reflexivity; [|exact Hkeys].
    cbn [newsletter_emails with_newsletter_emails].
    apply (ConnectionFacts.fmap_insert_same email_key _ i row _ Hi).
    destruct (has_been_opened interaction_data),
      (has_been_clicked interaction_data),
      (reading_time_seconds interaction_data),
      (engagement_score interaction_data); reflexivity.
Qed.

Lemma writes_keep_keys_unique_witness :
  keys_unique Examples.subscribed
  ∧ keys_unique (Sync.sync_user_emails Examples.subscribed 1700000900 7 true
                   (Gmail.SyncSuccess [] Examples.detected)).
Proof.
  assert (Hkeys : keys_unique Examples.subscribed).
  { unfold keys_unique.
    repeat split;
      match goal with
      | |- ?P => apply (bool_decide_unpack P); vm_compute; exact I
      end. }
  split; [exact Hkeys|].
  apply (proj1 (writes_keep_keys_unique Examples.subscribed 1700000900 7
                  Hkeys)).
Defined.

End RunInvariants.

(* ================================================================== *)
(** * Reading the headers of a message *)
(* ================================================================== *)

Module ParseFacts.
Import Py Gmail Inv.

#[local] Abbreviation named name :=
  (λ h : string * string, h.1 = name).

Lemma header_fold (headers : list (string * string)) (name : string) :
  ∀ d : gmap string string,
    foldl (λ d h, <[h.1 := h.2]> d) d headers !! name
    = match last (filter (named name) headers) with
      | Some h => Some h.2
      | None => d !! name
      end.
Proof.
  induction headers as [|h headers IH]; intros d; [reflexivity|].
  cbn [foldl]. rewrite IH, filter_cons. clear IH.
  destruct (decide (h.1 = name)) as [Hh|Hh].
  - destruct (filter (named name) headers) as [|h' rest].
    + cbn [last]. rewrite <- Hh, lookup_insert_eq. reflexivity.
    + change (last (h :: h' :: rest)) with (last (h' :: rest)).
      destruct (last (h' :: rest)) as [x|] eqn:Hlast; [reflexivity|].
      destruct rest; discriminate || (apply last_None in Hlast; discriminate).
  - destruct (last (filter (named name) headers)); [reflexivity|].
    apply lookup_insert_ne, Hh.
Qed.

Section Parse.
Variable decode : string -> string.
Variable get_text : string -> option string.
Variable parsedate_to_datetime : string -> option Z.
Variable parseaddr : string -> string * string.
Variable now : Z.

(** The header dictionary holds, for each name, the value of the last
    header of exactly that name, and nothing for a name no header has.
    Hence a parsed message has as subject and as Message-ID the value of
    the last header so named, or the empty string without one; its content
    length is the length of the extracted text, zero without text; and its
    text and HTML are those the extractor gives for the payload. *)
Theorem header_dict_last_wins (message : Message.t) (name : string) :
  let headers := Message.headers message in
  let email_data :=
    parse_message decode get_text parsedate_to_datetime parseaddr now
      message in
  header_dict headers !! name = snd <$> last (filter (named name) headers)
  ∧ EmailData.subject email_data
    = default "" (snd <$> last (filter (named "Subject") headers))
  ∧ EmailData.message_id_header email_data
    = default "" (snd <$> last (filter (named "Message-ID") headers))
  ∧ EmailData.content_length email_data
    = Z.of_nat (String.length (or_empty (EmailData.content_text email_data)))
  ∧ (EmailData.content_text email_data, EmailData.content_html email_data)
    = extract_message_body decode get_text (Message.payload message).
Proof.
  intros headers email_data.
  assert (Hdict : ∀ key, header_dict headers !! key
                         = snd <$> last (filter (named key) headers)).
  { intros key. unfold header_dict. rewrite header_fold.
    destruct (last _); reflexivity. }
  subst email_data. unfold parse_message. fold headers.
  destruct (extract_message_body decode get_text (Message.payload message))
    as [text html].
  destruct (parse_sender parseaddr _) as [sender_email sender_name].
  cbn [EmailData.subject EmailData.message_id_header EmailData.content_length
       EmailData.content_text EmailData.content_html].
  rewrite <- !Hdict. repeat split.
  destruct text as [[|a text]|]; reflexivity.
Qed.

End Parse.

End ParseFacts.

(* ================================================================== *)
(** * Updating and creating a subscription *)
(* ================================================================== *)

Module SubscriptionUpdates.
Import Py Crud Inv.

#[local] Abbreviation subscription_of user_id newsletter_id :=
  (λ s : UserNewsletter.t,
     UserNewsletter.user_id s = user_id
     ∧ UserNewsletter.newsletter_id s = newsletter_id).

(** Updating a subscription.  Without a row for the user and the
    newsletter nothing is written and nothing is returned.  With one, the
    row is written in place: the subscribed flag and the current score
    take the values given and stay as they are where none is given; no
    row changes its owner, its newsletter, its base score or its active
    flag, so a subscription ended this way stays on the user's active
    listing, unlike one ended by unsubscribing; the other tables are
    untouched. *)
Theorem update_user_newsletter_subscription_frame (db : DB)
    (user_id newsletter_id : Z) (is_subscribed : option bool)
    (relevance_score : option Q) :
  let r := update_user_newsletter_subscription db user_id newsletter_id
             is_subscribed relevance_score in
  (¬ has_subscription db user_id newsletter_id → r = (db, None))
  ∧ (∀ i row,
       list_find (subscription_of user_id newsletter_id) (user_newsletters db)
       = Some (i, row) →
       ∃ row',
         r.2 = Some row'
         ∧ user_newsletters r.1 = <[i := row']> (user_newsletters db)
         ∧ UserNewsletter.is_subscribed row'
           = default (UserNewsletter.is_subscribed row) is_subscribed
         ∧ UserNewsletter.current_relevance_score row'
           = default (UserNewsletter.current_relevance_score row)
               relevance_score)
  ∧ UserNewsletter.is_active <$> user_newsletters r.1
    = UserNewsletter.is_active <$> user_newsletters db
  ∧ subscription_key <$> user_newsletters r.1
    = subscription_key <$> user_newsletters db
  ∧ UserNewsletter.base_relevance_score <$> user_newsletters r.1
    = UserNewsletter.base_relevance_score <$> user_newsletters db
  ∧ newsletters r.1 = newsletters db
  ∧ newsletter_emails r.1 = newsletter_emails db
  ∧ email_connections r.1 = email_connections db.
Proof.
  intros r. subst r. unfold update_user_newsletter_subscription, has_subscription.
  destruct (list_find (subscription_of user_id newsletter_id)
              (user_newsletters db)) as [[i row]|] eqn:Hfind.
  2:{ cbn [fst snd]. repeat split; auto. discriminate. }
  cbn [fst snd user_newsletters with_user_newsletters newsletters
       newsletter_emails email_connections].
  match goal with
  | |- context [<[i := ?new]> _] => set (row' := new)
  end.
  apply list_find_Some in Hfind as (Hi & _).
  split; [intros H; exfalso; apply H; eauto|].
  split.
  { intros i0 row0 [= <- <-]. exists row'. split; [reflexivity|].
    split; [reflexivity|]. subst row'.
    destruct is_subscribed, relevance_score; split; reflexivity. }
  split; [|split; [|split]]; try (repeat split; fail);
    apply (ConnectionFacts.fmap_insert_same _ _ i row row' Hi);
    subst row'; destruct is_subscribed, relevance_score; reflexivity.
Qed.

(** Subscribing through the handler.  For a newsletter that is not on
    record the answer is 404 and nothing changes.  Otherwise the answer
    carries the id of a row of this user and this newsletter that is
    active and subscribed afterwards; a row is added only when the user
    had none, and then it starts with the default score of 50; every row
    of another user or newsletter is what it was, at its place. *)
Theorem subscribe_to_newsletter_outcome (db : DB) (now : Z)
    (user_id newsletter_id : Z) :
  let r := Api.subscribe_to_newsletter db now user_id newsletter_id in
  (get_newsletter_by_id db newsletter_id = None →
   r = (inl {| Api.status_code := 404; Api.detail := "Newsletter not found" |},
        db))
  ∧ (is_Some (get_newsletter_by_id db newsletter_id) →
     ∃ i row,
       list_find (subscription_of user_id newsletter_id) (user_newsletters r.2)
       = Some (i, row)
       ∧ r.1 = inr (UserNewsletter.id row)
       ∧ UserNewsletter.is_active row = true
       ∧ UserNewsletter.is_subscribed row = true
       ∧ (has_subscription db user_id newsletter_id →
          length (user_newsletters r.2) = length (user_newsletters db))
       ∧ (¬ has_subscription db user_id newsletter_id →
          user_newsletters r.2 = user_newsletters db ++ [row]
          ∧ UserNewsletter.current_relevance_score row = (50 # 1)%Q))
  ∧ (∀ j s, user_newsletters db !! j = Some s →
            subscription_key s ≠ (user_id, newsletter_id) →
            user_newsletters r.2 !! j = Some s).
Proof.
  intros r. subst r. unfold Api.subscribe_to_newsletter.
  destruct (get_newsletter_by_id db newsletter_id) as [newsletter|].
  2:{ split; [reflexivity|]. split; [intros [x Hx]; discriminate|auto]. }
  split; [discriminate|].
  unfold create_user_newsletter_subscription, has_subscription.
  destruct (list_find (subscription_of user_id newsletter_id)
              (user_newsletters db)) as [[i row]|] eqn:Hfind.
  - cbn [fst snd user_newsletters with_user_newsletters].
    set (row' := UserNewsletter.with_is_subscribed true
                   (UserNewsletter.with_is_active true row)).
    destruct (SubscriptionFacts.subscription_written db user_id newsletter_id
                i row row' Hfind eq_refl) as [Hfind' _].
    apply list_find_Some in Hfind as (Hi & [Hu Hn] & _).
    split.
    + intros _. exists i, row'. split; [exact Hfind'|].
      split; [reflexivity|]. split; [reflexivity|]. split; [reflexivity|].
      split; [intros _; apply length_insert|].
      intros H. exfalso. apply H. eauto.
    + intros j s Hj Hkey. rewrite list_lookup_insert_ne; [exact Hj|].
      intros <-. rewrite Hi in Hj. injection Hj as <-.
      apply Hkey. unfold subscription_key. rewrite Hu, Hn. reflexivity.
  - cbn [fst snd user_newsletters with_user_newsletters].
    split.
    + intros _. eexists (length (user_newsletters db)), _.
      split; [apply SyncFacts.list_find_snoc_new; [exact Hfind|split; reflexivity]|].
      repeat split. intros [x Hx]. discriminate.
    + intros j s Hj _. apply lookup_app_l_Some, Hj.
Qed.

End SubscriptionUpdates.

(* ================================================================== *)
(** * From one unreadable newsletter to a failed synchronization *)
(* ================================================================== *)

Module Unreadable.
Import Py Gmail Inv.

Section SyncEmails.
Variable decode : string -> string.
Variable get_text : string -> option string.
Variable parsedate_to_datetime : string -> option Z.
Variable parseaddr : string -> string * string.
Variable now : Z.
Variable guess_newsletter_title : EmailData.t -> option string.
Variable netloc : string -> string + string.
Variable fetch : string -> option Message.t.

#[local] Abbreviation details :=
  (λ message : MessageRef,
     get_message_details decode get_text parsedate_to_datetime parseaddr now
       fetch (ref_id message)).
#[local] Abbreviation flagged :=
  (λ email_data : EmailData.t, EmailData.is_newsletter email_data = true).
#[local] Abbreviation readable :=
  (λ email_data : EmailData.t,
     is_Some (EmailData.content_text email_data)
     ∧ ∃ domain,
         sender_domain netloc (EmailData.sender_email email_data)
         = inr domain).

(** One message is enough to make a whole synchronization fail: when the
    listing returns a message that can be fetched, that carries a
    [List-Unsubscribe] header with a value, and none of whose visited
    parts is a text/plain or text/html part with data (a newsletter made
    of an attachment or of images only), the run ends with the error
    status and reports none of the other messages.  The error text is the
    message of the [TypeError], the name of the type between quotation
    marks, when [urlparse] accepts the domain of the sender of this
    message and every flagged message fetched before it can be read. *)
Theorem unreadable_newsletter_aborts (srv : Pages) (max_emails : nat)
    (message_ref : MessageRef) (message : Message.t) :
  message_ref ∈ (list_messages true srv max_emails).1 →
  fetch (ref_id message_ref) = Some message →
  truthy (header_dict (Message.headers message) !! "List-Unsubscribe") = true →
  Forall (λ p, carries_text p = false) (Spec.visited (Message.payload message)) →
  let outcome :=
    sync_emails decode get_text parsedate_to_datetime parseaddr now
      guess_newsletter_title netloc fetch true srv max_emails in
  (∃ error, outcome = SyncError error)
  ∧ (∀ before after,
       (list_messages true srv max_emails).1
       = before ++ message_ref :: after →
       Forall (λ e, flagged e → readable e) (omap details before) →
       (∃ domain,
          sender_domain netloc
            (EmailData.sender_email
               (parse_message decode get_text parsedate_to_datetime parseaddr
                  now message)) = inr domain) →
       outcome = SyncError (str_of_exn TypeError)).
Proof.
  intros Hin Hfetch Hheader Hparts outcome. subst outcome.
  set (email_data := parse_message decode get_text parsedate_to_datetime
                       parseaddr now message).
  assert (Hbody : extract_message_body decode get_text (Message.payload message)
                  = (None, None))
    by (apply ExtractionMore.extract_nothing, Hparts).
  assert (Hflag : EmailData.is_newsletter email_data = true).
  { subst email_data. unfold parse_message. rewrite Hbody.
    destruct (parse_sender parseaddr _) as [sender_email sender_name].
    cbn [EmailData.is_newsletter].
    rewrite ClassifierFacts.indicators_sum. apply Z.leb_le.
    apply ClassifierBounds.list_unsubscribe_points, Hheader. }
  assert (Htext : EmailData.content_text email_data = None).
  { subst email_data. unfold parse_message. rewrite Hbody.
    destruct (parse_sender parseaddr _) as [sender_email sender_name].
    reflexivity. }
  assert (Hdetails : details message_ref = Some email_data).
  { unfold get_message_details. rewrite Hfetch. reflexivity. }
  unfold sync_emails. cbn [negb]. split.
  - destruct (SyncEmailsFacts.sync_loop_raises decode get_text
                parsedate_to_datetime parseaddr now guess_newsletter_title
                netloc fetch (list_messages true srv max_emails).1 [] [])
      as [x Hx]; [|rewrite Hx; eauto].
    apply Exists_exists. exists email_data. split.
    + apply list_elem_of_omap. exists message_ref. split; assumption.
    + split; [exact Hflag|]. intros [[text Ht] _]. congruence.
  - intros before after Heq Hbefore [domain Hdomain].
    rewrite (proj2 (SyncEmailsFacts.sync_loop_outcome decode get_text
                      parsedate_to_datetime parseaddr now
                      guess_newsletter_title netloc fetch
                      (list_messages true srv max_emails).1 [] [])
               (omap details before) email_data (omap details after)
               TypeError); [reflexivity| |exact Hbefore|exact Hflag|].
    + rewrite Heq, omap_app. cbn [omap list_omap]. rewrite Hdetails.
      reflexivity.
    + apply (MetadataRange.metadata_no_text guess_newsletter_title netloc
               email_data domain Hdomain Htext).
Qed.

End SyncEmails.

(** A readable message and, after it, a digest that is an attachment
    only: nothing is reported. *)
Lemma unreadable_newsletter_aborts_witness :
  sync_emails Ref.urlsafe_b64decode Ref.get_text Ref.parsedate_to_datetime
    Ref.parseaddr 1700000900 (λ _, None) (λ url, inr url)
    (λ id, if String.eqb id "1"
           then Some (Message.mk "18c2e" "18c2e" (Some ["INBOX"]) (Some "")
                        (Some 512) [("Subject", "Hello")]
                        Examples.alternative_payload)
           else Some Examples.attachment_message)
    true (LastPage (Some [Examples.ref 1; Examples.ref 2])) 10
  = SyncError (str_of_exn TypeError).
Proof.
  refine (proj2 (unreadable_newsletter_aborts _ _ _ _ _ _ _ _ _ 10%nat
                   (Examples.ref 2) Examples.attachment_message _ _ _ _)
            [Examples.ref 1] [] _ _ _).
  - right. left.
  - vm_compute. reflexivity.
  - vm_compute. reflexivity.
  - vm_compute. repeat constructor.
  - vm_compute. reflexivity.
  - constructor; [|constructor]. intros H. vm_compute in H. discriminate.
  - eexists. vm_compute. reflexivity.
Defined.

End Unreadable.
